(** * ANGSPE publications scraper: extraction, de-duplication and analysis

    A shallow embedding of [scraper.py] (class [ANGSPEScraper]) together with
    the properties of its specification.

    Conventions of the embedding.
    - A Python [str] is a list of characters.  Characters are the code points
      below 256 (Rocq's [ascii]); on this range [str.lower], [str.isspace]
      and the regular-expression classes [\d] and [\s] are given by the
      tables below.  Code points from 256 on are outside the model.
    - [None] is [None]; a dictionary with a fixed set of keys is a record.
    - Python sets are [gset]s.
    - The parsed page (the [BeautifulSoup] object) is a tree of elements and
      text nodes; a [Tag] is a node together with its chain of ancestors.
    - [urljoin] (urllib) and the HTML parser are parameters of the
      development.
    - Floating point numbers are modelled by exact rationals. *)

From Stdlib Require Import ZArith QArith Ascii String List Lia Bool.
From stdpp Require Import base gmap strings list.

Local Open Scope nat_scope.
Set Warnings "-register-all".

(** ** Strings *)

Module Str.

Definition str : Type := list ascii.

(** Literals: the characters of an ASCII string literal. *)
Definition s (x : string) : str := list_ascii_of_string x.

Definition code (c : ascii) : N := N_of_ascii c.

Definition between (lo hi : N) (c : ascii) : bool :=
  (N.leb lo (code c)) && (N.leb (code c) hi).

(** [str.isspace] on one character, which is also the class [\s]. *)
Definition isspace (c : ascii) : bool :=
  between 9 13 c || between 28 32 c || N.eqb (code c) 133 || N.eqb (code c) 160.

(** The class [\d]: decimal digits. *)
Definition isdecimal (c : ascii) : bool := between 48 57 c.

Definition isupper (c : ascii) : bool :=
  between 65 90 c || between 192 214 c || between 216 222 c.

(** [str.lower] on one character. *)
Definition char_lower (c : ascii) : ascii :=
  if isupper c then ascii_of_N (code c + 32) else c.

(** [s.lower()] *)
Definition lower (x : str) : str := map char_lower x.

Definition char_eqb (a b : ascii) : bool := Ascii.eqb a b.

Fixpoint str_eqb (a b : str) : bool :=
  match a, b with
  | [], [] => true
  | x :: a', y :: b' => char_eqb x y && str_eqb a' b'
  | _, _ => false
  end.

(** [x.startswith(p)] *)
Fixpoint startswith (p x : str) : bool :=
  match p, x with
  | [], _ => true
  | a :: p', b :: x' => char_eqb a b && startswith p' x'
  | _ :: _, [] => false
  end.

(** [p in x] for strings: [p] occurs as a contiguous substring of [x]. *)
Fixpoint contains (p x : str) : bool :=
  startswith p x ||
  match x with
  | [] => false
  | _ :: x' => contains p x'
  end.

Fixpoint lstrip (x : str) : str :=
  match x with
  | c :: x' => if isspace c then lstrip x' else x
  | [] => []
  end.

Definition rstrip (x : str) : str := rev (lstrip (rev x)).

(** [s.strip()] *)
Definition strip (x : str) : str := rstrip (lstrip x).

(** [s.split()]: the maximal runs of non-whitespace characters.  [w] is the
    word being read. *)
Fixpoint split_from (w : str) (x : str) : list str :=
  match x with
  | [] => match w with [] => [] | _ => [w] end
  | c :: x' =>
      if isspace c
      then match w with [] => split_from [] x' | _ => w :: split_from [] x' end
      else split_from (w ++ [c]) x'
  end.

Definition split (x : str) : list str := split_from [] x.

(** [sep.join(ws)] *)
Fixpoint join (sep : str) (ws : list str) : str :=
  match ws with
  | [] => []
  | [w] => w
  | w :: ws' => w ++ sep ++ join sep ws'
  end.

(** [s.replace(old, new)] for a non-empty [old]: the occurrences are found
    from left to right and do not overlap.  [skip] counts the characters of
    an occurrence that are still to be passed over. *)
Fixpoint replace_from (old new : str) (skip : nat) (x : str) : str :=
  match x with
  | [] => []
  | c :: x' =>
      match skip with
      | S k => replace_from old new k x'
      | O =>
          if startswith old x
          then new ++ replace_from old new (length old - 1) x'
          else c :: replace_from old new 0 x'
      end
  end.

Definition replace (old new x : str) : str :=
  match old with
  | [] => x
  | _ => replace_from old new 0 x
  end.

(** [s.translate(str.maketrans('', '', deleted))] *)
Definition delete_chars (deleted : str) (x : str) : str :=
  List.filter (fun c => negb (existsb (char_eqb c) deleted)) x.

(** [string.punctuation] *)
Definition punctuation : str :=
  s "!" ++ ["034"%char] ++ s "#$%&'()*+,-./:;<=>?@[\]^_`{|}~".

(** [str(n)] for an integer. *)
Definition digit_char (d : N) : ascii := ascii_of_N (48 + d).

Fixpoint pos_digits (fuel : nat) (n : N) (acc : str) : str :=
  match fuel with
  | O => acc
  | S f =>
      let acc' := digit_char (N.modulo n 10) :: acc in
      if N.ltb n 10 then acc' else pos_digits f (N.div n 10) acc'
  end.

Definition str_of_N (n : N) : str := pos_digits (S (N.to_nat (N.log2 n))) n [].

Definition str_of_Z (z : Z) : str :=
  match z with
  | Zneg p => "-"%char :: str_of_N (Npos p)
  | _ => str_of_N (Z.to_N z)
  end.

Definition digit_value (c : ascii) : N := code c - 48.

(** The value of a run of decimal digits with single underscores allowed
    between digits, as [int] accepts them. *)
Fixpoint digits_value (acc : N) (prev_digit : bool) (x : str) : option N :=
  match x with
  | [] => if prev_digit then Some acc else None
  | c :: x' =>
      if isdecimal c then digits_value (10 * acc + digit_value c) true x'
      else if char_eqb c "_" && prev_digit
           then match x' with
                | d :: _ => if isdecimal d then digits_value acc false x' else None
                | [] => None
                end
           else None
  end.

(** The white space that [int] skips around the number: of the characters
    with [isspace], the separators 28 to 31 are not skipped. *)
Definition int_space (c : ascii) : bool :=
  between 9 13 c || N.eqb (code c) 32 || N.eqb (code c) 133 || N.eqb (code c) 160.

Fixpoint int_lstrip (x : str) : str :=
  match x with
  | c :: x' => if int_space c then int_lstrip x' else x
  | [] => []
  end.

(** [int(x)]: [None] stands for [ValueError]. *)
Definition int_of_str (x : str) : option Z :=
  match rev (int_lstrip (rev (int_lstrip x))) with
  | "-"%char :: d => option_map (fun n => Z.opp (Z.of_N n)) (digits_value 0 false d)
  | "+"%char :: d => option_map Z.of_N (digits_value 0 false d)
  | d => option_map Z.of_N (digits_value 0 false d)
  end.

(** [s.split(sep)[-1]] for a one-character separator: the part after the
    last separator. *)
Fixpoint after_last (sep : ascii) (x : str) : str :=
  match x with
  | [] => []
  | c :: x' =>
      if existsb (char_eqb sep) x' then after_last sep x'
      else if char_eqb c sep then x' else x
  end.

End Str.
Import Str.

(** ** Regular expressions

    The patterns of the scraper use character classes, literals, sequence,
    alternation, capturing groups, [?], and [+], [*] and [{m,n}] applied to
    a single character class.  [re_match] is the backtracking matcher of
    Python's [re]: alternatives are tried from left to right, repetitions
    are greedy and give characters back when the rest of the pattern fails.
    The continuation [k] is the rest of the pattern. *)

Module Re.

Inductive regex : Type :=
| Eps
| Chr (p : ascii -> bool)
| Seq (a b : regex)
| Alt (a b : regex)
| Opt (a : regex)
| Star (p : ascii -> bool)
| Plus (p : ascii -> bool)
| Group (n : nat) (a : regex).

(** Captured groups, the most recent first. *)
Definition caps : Type := list (nat * str).

Fixpoint group (n : nat) (g : caps) : str :=
  match g with
  | [] => []
  | (i, v) :: g' => if Nat.eqb i n then v else group n g'
  end.

Section Matcher.
Context {A : Type}.

Fixpoint re_star (p : ascii -> bool) (x : str) (k : str -> option A) : option A :=
  match x with
  | c :: x' =>
      if p c
      then match re_star p x' k with
           | Some v => Some v
           | None => k x
           end
      else k x
  | [] => k x
  end.

Fixpoint re_match (r : regex) (x : str) (g : caps)
    (k : str -> caps -> option A) : option A :=
  match r with
  | Eps => k x g
  | Chr p =>
      match x with
      | c :: x' => if p c then k x' g else None
      | [] => None
      end
  | Seq a b => re_match a x g (fun x' g' => re_match b x' g' k)
  | Alt a b =>
      match re_match a x g k with
      | Some v => Some v
      | None => re_match b x g k
      end
  | Opt a =>
      match re_match a x g k with
      | Some v => Some v
      | None => k x g
      end
  | Star p => re_star p x (fun x' => k x' g)
  | Plus p =>
      match x with
      | c :: x' => if p c then re_star p x' (fun x'' => k x'' g) else None
      | [] => None
      end
  | Group n a =>
      re_match a x g
        (fun x' g' => k x' ((n, take (length x - length x') x) :: g'))
  end.
End Matcher.

(** [re.search(r, x)]: the match at the leftmost position that has one;
    the result is the captured groups. *)
Fixpoint search (r : regex) (x : str) : option caps :=
  match re_match r x [] (fun _ g => Some g) with
  | Some g => Some g
  | None =>
      match x with
      | [] => None
      | _ :: x' => search r x'
      end
  end.

(** A literal, and a literal under [re.IGNORECASE]. *)
Fixpoint lit (l : str) : regex :=
  match l with
  | [] => Eps
  | c :: l' => Seq (Chr (char_eqb c)) (lit l')
  end.

Definition char_eqb_i (a c : ascii) : bool :=
  char_eqb (char_lower a) (char_lower c).

Fixpoint lit_i (l : str) : regex :=
  match l with
  | [] => Eps
  | c :: l' => Seq (Chr (char_eqb_i c)) (lit_i l')
  end.

Fixpoint alts (rs : list regex) : regex :=
  match rs with
  | [] => Chr (fun _ => false)
  | [r] => r
  | r :: rs' => Alt r (alts rs')
  end.

Definition digit : regex := Chr isdecimal.

(** [\d{1,2}] and [\d{4}] *)
Definition digit_1_2 : regex := Seq digit (Opt digit).
Definition digit_4 : regex := Seq digit (Seq digit (Seq digit digit)).

End Re.
Import Re.

(** ** Field extractors *)

(** [(Mo|MB|Go|GB|ko|KB|To|TB)] under [re.IGNORECASE] *)
Definition size_units : list str :=
  [s "Mo"; s "MB"; s "Go"; s "GB"; s "ko"; s "KB"; s "To"; s "TB"].

Definition unit_re : regex := alts (map lit_i size_units).

(** [(\d+(?:\.\d+)?)\s*(Mo|MB|Go|GB|ko|KB|To|TB)] for the decimal mark
    [mark]; the second pattern of the source has a comma there. *)
Definition size_pattern (mark : ascii) : regex :=
  Seq (Group 1 (Seq (Plus isdecimal)
                    (Opt (Seq (Chr (char_eqb mark)) (Plus isdecimal)))))
      (Seq (Star isspace) (Group 2 unit_re)).

Definition size_patterns : list regex :=
  [size_pattern "."; size_pattern ","].

Fixpoint first_size (ps : list regex) (text : str) : option str :=
  match ps with
  | [] => None
  | p :: ps' =>
      match search p text with
      | Some g => Some (group 1 g ++ s " " ++ group 2 g)
      | None => first_size ps' text
      end
  end.

Definition extract_file_size (text : str) : option str :=
  match text with
  | [] => None
  | _ => first_size size_patterns text
  end.

(** [(\d{1,2})SEP(\d{1,2})SEP(\d{4})] *)
Definition date_pattern (sep : ascii) : regex :=
  Seq (Group 1 digit_1_2)
      (Seq (Chr (char_eqb sep))
           (Seq (Group 2 digit_1_2)
                (Seq (Chr (char_eqb sep)) (Group 3 digit_4)))).

(** The text [Posté le ]: the letter e with acute accent is code point 233. *)
Definition poste_le : str := s "Post" ++ ["233"%char] ++ s " le ".

Definition date_patterns : list regex :=
  [date_pattern "/"; date_pattern "-"; Seq (lit poste_le) (date_pattern "/")].

Fixpoint first_date (ps : list regex) (text : str) : option str :=
  match ps with
  | [] => None
  | p :: ps' =>
      match search p text with
      | Some g => Some (group 1 g ++ s "/" ++ group 2 g ++ s "/" ++ group 3 g)
      | None => first_date ps' text
      end
  end.

Definition extract_date_from_text (text : str) : option str :=
  match text with
  | [] => None
  | _ => first_date date_patterns text
  end.

(** The category labels; in [Rapport d'activités] the accented letter is
    code point 233. *)
Definition cat_rapport : str := s "Rapport d'activit" ++ ["233"%char] ++ s "s".
Definition cat_autres : str := s "Autres rapports".
Definition cat_publications : str := s "Publications".
Definition cat_documents : str := s "Documents".
Definition non_classe : str := s "Non class" ++ ["233"%char].

Fixpoint first_contained (labels : list str) (text : str) : option str :=
  match labels with
  | [] => None
  | l :: labels' => if contains l text then Some l else first_contained labels' text
  end.

Definition extract_category_from_text (text : str) : str :=
  match first_contained [cat_rapport; cat_autres; cat_publications; cat_documents] text with
  | Some l => l
  | None => non_classe
  end.

(** ** Title normalisation *)

Definition _normalize_title (title : str) : str :=
  match title with
  | [] => []
  | _ =>
      let normalized := strip (lower title) in
      let deleted := replace (s ".") [] (replace (s "-") [] punctuation) in
      let normalized := delete_chars deleted normalized in
      let normalized := join (s " ") (split normalized) in
      let normalized := replace (s "rapport sur l") (s "rapport sur le") normalized in
      let normalized := replace (s "  ") (s " ") normalized in
      normalized
  end.

(** ** The parsed page *)

Module Dom.

Inductive node : Type :=
| NavigableString (text : str)
| Element (name : str) (attrs : list (str * str)) (children : list node).

(** A [Tag]: an element with its ancestors, the nearest first; the last
    ancestor is the [BeautifulSoup] object itself. *)
Record tag : Type := Tag { t_node : node; t_parents : list node }.

Definition name (t : tag) : str :=
  match t_node t with
  | Element n _ _ => n
  | NavigableString _ => []
  end.

Fixpoint assoc (key : str) (l : list (str * str)) : option str :=
  match l with
  | [] => None
  | (k, v) :: l' => if str_eqb k key then Some v else assoc key l'
  end.

(** [t.get(key)] *)
Definition get (t : tag) (key : str) : option str :=
  match t_node t with
  | Element _ attrs _ => assoc key attrs
  | NavigableString _ => None
  end.

(** The strings below a node, in document order. *)
Fixpoint strings (n : node) : list str :=
  match n with
  | NavigableString x => [x]
  | Element _ _ cs =>
      (fix go (l : list node) : list str :=
         match l with
         | [] => []
         | c :: l' => strings c ++ go l'
         end) cs
  end.

(** [t.get_text()] *)
Definition get_text (n : node) : str := concat (strings n).

(** [t.get_text(strip=True)]: every string is stripped and the empty ones
    are left out. *)
Definition get_text_strip (n : node) : str :=
  concat (List.filter (fun x => negb (str_eqb x [])) (map strip (strings n))).

(** The elements below [n], in document order; [anc] are the ancestors of
    [n]. *)
Fixpoint descendants (anc : list node) (n : node) : list tag :=
  match n with
  | NavigableString _ => []
  | Element _ _ cs =>
      (fix go (l : list node) : list tag :=
         match l with
         | [] => []
         | c :: l' =>
             match c with
             | Element _ _ _ => [Tag c (n :: anc)]
             | NavigableString _ => []
             end ++ descendants (n :: anc) c ++ go l'
         end) cs
  end.

(** [t.find_all(names, <filter>)] *)
Definition find_all (names : list str) (keep : tag -> bool) (t : tag) : list tag :=
  List.filter (fun d => existsb (str_eqb (name d)) names && keep d)
    (descendants (t_parents t) (t_node t)).

(** [t.find(names, <filter>)] *)
Definition find (names : list str) (keep : tag -> bool) (t : tag) : option tag :=
  head (find_all names keep t).

(** [t.find_parents()] *)
Fixpoint parents_of (anc : list node) : list tag :=
  match anc with
  | [] => []
  | p :: anc' => Tag p anc' :: parents_of anc'
  end.

Definition find_parents (t : tag) : list tag := parents_of (t_parents t).

(** [t.find_parent()] *)
Definition find_parent (t : tag) : option tag := head (find_parents t).

(** The filter [href=re.compile(r)]: the attribute is there and [r] is
    found in it. *)
Definition href_matches (r : regex) (t : tag) : bool :=
  match get t (s "href") with
  | Some v => match search r v with Some _ => true | None => false end
  | None => false
  end.

(** The filter [class_=re.compile(r)]: [r] is found in one of the class
    names or in the class names joined by spaces. *)
Definition class_matches (r : regex) (t : tag) : bool :=
  match get t (s "class") with
  | Some v =>
      let found x := match search r x with Some _ => true | None => false end in
      existsb found (split v) || found (join (s " ") (split v))
  | None => false
  end.

Definition headings : list str :=
  [s "h1"; s "h2"; s "h3"; s "h4"; s "h5"; s "h6"].

End Dom.
Import Dom.

(** ** Publications *)

Record publication : Type := Publication {
  title : str;
  download_url : str;
  file_size : option str;
  date_posted : option str;
  category : str;
  file_type : str
}.

(** The three parsing strategies of [parse_publications]. *)
Inductive tier : Type := StructuredSections | RawLinks | KnownRecords.

(** The local state of [parse_publications].  [tiers_run] is a ghost field:
    it records which strategies were entered, in order. *)
Record parse_state : Type := ParseState {
  publications : list publication;
  seen_urls : gset str;
  seen_titles : gset str;
  tiers_run : list tier
}.

(** [r'\.pdf'] and [r'\.(pdf|doc|docx)'] with [re.I];
    [r'publication|rapport|document'] with [re.I] *)
Definition pdf_re : regex := Seq (Chr (char_eqb ".")) (lit_i (s "pdf")).

Definition doc_re : regex :=
  Seq (Chr (char_eqb "."))
      (Group 1 (alts [lit_i (s "pdf"); lit_i (s "doc"); lit_i (s "docx")])).

Definition section_re : regex :=
  alts [lit_i (s "publication"); lit_i (s "rapport"); lit_i (s "document")].

Section Scraper.

(** [urllib.parse.urljoin], with [None] when it raises [ValueError], and
    the HTML parser [BeautifulSoup(_, 'lxml')]. *)
Variable urljoin : str -> str -> option str.
Variable BeautifulSoup : str -> node.

Definition base_url : str := s "https://angspe.ma".
Definition target_url : str := s "https://angspe.ma/les-publications".

Definition _is_unique_publication (p : publication)
    (urls titles : gset str) : bool :=
  match download_url p with
  | [] => false
  | _ =>
      match title p with
      | [] => false
      | _ =>
          let normalized_title := _normalize_title (title p) in
          if bool_decide (download_url p ∈ urls) then false
          else if bool_decide (normalized_title ∈ titles) then false
          else true
      end
  end.

Definition extract_date (element : tag) : option str :=
  (fix go (l : list tag) : option str :=
     match l with
     | [] => None
     | e :: l' =>
         match extract_date_from_text (get_text (t_node e)) with
         | Some d => Some d
         | None => go l'
         end
     end) (element :: take 3 (find_parents element)).

Definition extract_category (element : tag) : str :=
  (fix go (l : list tag) : str :=
     match l with
     | [] => non_classe
     | parent :: l' =>
         let parent_text := get_text (t_node parent) in
         if existsb (fun cat => contains cat parent_text)
              [cat_rapport; cat_autres; cat_publications]
         then extract_category_from_text parent_text
         else go l'
     end) (find_parents element).

(** The body of the function is in a [try]: when [urljoin] raises, the
    result is [None]. *)
Definition extract_publication_info (link : tag) : option publication :=
  match get link (s "href") with
  | None | Some [] => None
  | Some href =>
      match urljoin base_url href with
      | None => None
      | Some download_url =>
          let title := get_text_strip (t_node link) in
          let title :=
            if Nat.ltb (length title) 5
            then match find_parent link with
                 | Some parent =>
                     match find headings (fun _ => true) parent with
                     | Some heading => get_text_strip (t_node heading)
                     | None => title
                     end
                 | None => title
                 end
            else title in
          let file_size :=
            match extract_file_size (get_text (t_node link)) with
            | Some sz => Some sz
            | None =>
                match find_parent link with
                | Some parent => extract_file_size (get_text (t_node parent))
                | None => None
                end
            end in
          Some {| title := title;
                  download_url := download_url;
                  file_size := file_size;
                  date_posted := extract_date link;
                  category := extract_category link;
                  file_type := if contains (s ".pdf") (lower href)
                               then s "PDF" else s "Unknown" |}
      end
  end.

(** Here too an exception of [urljoin] ends in [return None]. *)
Definition extract_publication_from_section (section : tag) : option publication :=
  let title :=
    match find headings (fun _ => true) section with
    | Some title_elem => get_text_strip (t_node title_elem)
    | None => []
    end in
  let download :=
    match find [s "a"] (href_matches doc_re) section with
    | Some download_link =>
        let href := default [] (get download_link (s "href")) in
        match urljoin base_url href with
        | Some download_url =>
            Some (download_url,
                  if contains (s ".pdf") (lower href) then s "PDF"
                  else if contains (s ".doc") (lower href) then s "DOC"
                  else s "Unknown")
        | None => None
        end
    | None => Some ([], s "Unknown")
    end in
  match download with
  | None => None
  | Some (download_url, file_type) =>
      let section_text := get_text (t_node section) in
      match title, download_url with
      | _ :: _, _ :: _ =>
          Some {| title := title;
                  download_url := download_url;
                  file_size := extract_file_size section_text;
                  date_posted := extract_date_from_text section_text;
                  category := extract_category_from_text section_text;
                  file_type := file_type |}
      | _, _ => None
      end
  end.

Definition known_publications : list publication :=
  [ {| title := s "Rapport sur l'" ++ ["201"%char] ++ s "tat actionnaire 2023 - 2024";
       download_url := base_url ++ s "/path/to/rapport-etat-actionnaire-2023-2024.pdf";
       file_size := Some (s "6.92 Mo");
       date_posted := Some (s "26/06/2025");
       category := cat_rapport;
       file_type := s "PDF" |};
    {| title := s "Charte de gouvernance pour les EEP.";
       download_url := base_url ++ s "/path/to/charte-gouvernance-eep.pdf";
       file_size := Some (s "1755 ko");
       date_posted := Some (s "22/05/2025");
       category := cat_autres;
       file_type := s "PDF" |} ].

Definition alternative_parsing (soup : tag) : list publication :=
  let page_text := get_text (t_node soup) in
  List.filter (fun pub => contains (title pub) page_text) known_publications.

(** The body shared by the three loops of [parse_publications]: a candidate
    that passes [_is_unique_publication] is appended and its keys are
    recorded. *)
Definition consider (st : parse_state) (candidate : option publication) : parse_state :=
  match candidate with
  | None => st
  | Some p =>
      if _is_unique_publication p (seen_urls st) (seen_titles st)
      then {| publications := publications st ++ [p];
              seen_urls := {[ download_url p ]} ∪ seen_urls st;
              seen_titles := {[ _normalize_title (title p) ]} ∪ seen_titles st;
              tiers_run := tiers_run st |}
      else st
  end.

Definition enter (t : tier) (st : parse_state) : parse_state :=
  {| publications := publications st;
     seen_urls := seen_urls st;
     seen_titles := seen_titles st;
     tiers_run := tiers_run st ++ [t] |}.

Definition publication_sections (soup : tag) : list tag :=
  find_all [s "div"; s "article"; s "section"] (class_matches section_re) soup.

Definition pdf_links (soup : tag) : list tag :=
  find_all [s "a"] (href_matches pdf_re) soup.

(** The loops over the sections, the links and the known records. *)
Definition section_tier (soup : tag) (st : parse_state) : parse_state :=
  fold_left consider (map extract_publication_from_section (publication_sections soup)) st.

Definition link_tier (soup : tag) (st : parse_state) : parse_state :=
  fold_left consider (map extract_publication_info (pdf_links soup)) st.

Definition known_tier (soup : tag) (st : parse_state) : parse_state :=
  fold_left consider (map Some (alternative_parsing soup)) st.

Definition initial_state : parse_state := ParseState [] ∅ ∅ [].

(** The first part of [parse_publications]: the search for sections, then
    the loop over the sections when there are some, and the search for PDF
    links with its loop otherwise.  [enter] notes the strategy at the point
    where its search is made. *)
Definition sections_or_links (soup : tag) : parse_state :=
  let st := enter StructuredSections initial_state in
  match publication_sections soup with
  | [] => link_tier soup (enter RawLinks st)
  | _ => section_tier soup st
  end.

(** The second part: the known records when nothing was found. *)
Definition parse_soup (soup : tag) : parse_state :=
  let st := sections_or_links soup in
  match publications st with
  | [] => known_tier soup (enter KnownRecords st)
  | _ => st
  end.

Definition soup_of (html_content : str) : tag := Tag (BeautifulSoup html_content) [].

Definition parse_publications (html_content : str) : list publication :=
  publications (parse_soup (soup_of html_content)).

End Scraper.

(** ** Analysis *)

Inductive exn : Type := TypeError.

Inductive outcome (A : Type) : Type :=
| Return (a : A)
| Raise (e : exn).
Arguments Return {A} a.
Arguments Raise {A} e.

Record report : Type := Report {
  total_publications : nat;
  categories : gmap str nat;
  file_types : gmap str nat;
  publications_by_year : gmap Z nat;
  average_file_size : option Q;
  latest_publication : option publication;
  publications_list : list publication
}.

(** The value of [analyze_publications]: the dictionary
    [{"error": "No publications found"}] or a full report. *)
Inductive analysis : Type :=
| NoPublicationsFound
| Analysis (r : report).

(** [dict(Counter(xs))] *)
Definition Counter `{Countable K} (xs : list K) : gmap K nat :=
  fold_left (fun m x => <[ x := S (default 0 (m !! x)) ]> m) xs ∅.

(** The first loop over the dates: the years that [int] can read. *)
Definition year_of (pub : publication) : option Z :=
  match date_posted pub with
  | Some (c :: d) =>
      let date_str := c :: d in
      if contains (s "/") date_str then int_of_str (after_last "/" date_str) else None
  | _ => None
  end.

Fixpoint collect_years (pubs : list publication) : list Z :=
  match pubs with
  | [] => []
  | pub :: pubs' =>
      match year_of pub with
      | Some y => y :: collect_years pubs'
      | None => collect_years pubs'
      end
  end.

(** [max(years)] for a non-empty list. *)
Definition max_year (y : Z) (years : list Z) : Z := fold_left Z.max years y.

(** The second loop over the dates.  [year in date_str] raises [TypeError]
    when [date_str] is [None]. *)
Fixpoint find_latest (year : str) (pubs : list publication) : outcome (option publication) :=
  match pubs with
  | [] => Return None
  | pub :: pubs' =>
      match date_posted pub with
      | None => Raise TypeError
      | Some date_str =>
          if contains year date_str then Return (Some pub) else find_latest year pubs'
      end
  end.

(** [r'(\d+(?:\.\d+)?)'] *)
Definition number_re : regex :=
  Group 1 (Seq (Plus isdecimal) (Opt (Seq (Chr (char_eqb ".")) (Plus isdecimal)))).

Fixpoint decimal_value (acc : N) (x : str) : N :=
  match x with
  | [] => acc
  | c :: x' => decimal_value (10 * acc + digit_value c) x'
  end.

Fixpoint digits_prefix (x : str) : str :=
  match x with
  | c :: x' => if isdecimal c then c :: digits_prefix x' else []
  | [] => []
  end.

Fixpoint pow10 (n : nat) : positive :=
  match n with
  | O => 1
  | S k => 10 * pow10 k
  end.

(** [float(x)] for [x] of the form digits, or digits, a period, digits;
    the value is kept exact. *)
Definition float_of_decimal (x : str) : Q :=
  let int_part := digits_prefix x in
  let frac_part := drop (S (length int_part)) x in
  Qmake (Z.of_N (decimal_value (decimal_value 0 int_part) frac_part))
        (pow10 (length frac_part)).

(** The third loop: the size of one publication in megabytes, when it has
    one.  A size string in which no number is found raises inside the
    [try] and is skipped. *)
Definition size_in_mb (pub : publication) : option Q :=
  match file_size pub with
  | Some (c :: d) =>
      let size_str := c :: d in
      if contains (s "Mo") size_str || contains (s "MB") size_str
      then match search number_re size_str with
           | Some g => Some (float_of_decimal (group 1 g))
           | None => None
           end
      else if contains (s "ko") size_str || contains (s "KB") size_str
      then match search number_re size_str with
           | Some g => Some (float_of_decimal (group 1 g) / 1024)%Q
           | None => None
           end
      else None
  | _ => None
  end.

Fixpoint collect_sizes (pubs : list publication) : list Q :=
  match pubs with
  | [] => []
  | pub :: pubs' =>
      match size_in_mb pub with
      | Some q => q :: collect_sizes pubs'
      | None => collect_sizes pubs'
      end
  end.

Definition Qsum (l : list Q) : Q := fold_left Qplus l 0%Q.

(** [sum(sizes)/len(sizes)] when [sizes] is not empty. *)
Definition average (sizes : list Q) : option Q :=
  match sizes with
  | [] => None
  | _ => Some (Qsum sizes / inject_Z (Z.of_nat (length sizes)))%Q
  end.

Definition analyze_publications (pubs : list publication) : outcome analysis :=
  match pubs with
  | [] => Return NoPublicationsFound
  | _ =>
      let cats := Counter (map category pubs) in
      let types := Counter (map file_type pubs) in
      let years := collect_years pubs in
      let dates :=
        match years with
        | [] => Return (∅, None)
        | y :: years' =>
            let latest_year := max_year y years' in
            match find_latest (str_of_Z latest_year) pubs with
            | Return latest => Return (Counter years, latest)
            | Raise e => Raise e
            end
        end in
      match dates with
      | Raise e => Raise e
      | Return (by_year, latest) =>
          Return (Analysis
            {| total_publications := length pubs;
               categories := cats;
               file_types := types;
               publications_by_year := by_year;
               average_file_size := average (collect_sizes pubs);
               latest_publication := latest;
               publications_list := pubs |})
      end
  end.

(** ** The run and its environment *)

Record datetime : Type := DateTime { year : Z; isoformat : str }.

(** What the server answers to the request of [fetch_page_html]:
    a response with its status code and body, or no response at all
    (connection error, timeout). *)
Inductive response : Type :=
| HttpResponse (status_code : nat) (text : str)
| RequestFailed.

(** The content of a file, as far as the scraper writes and reads it. *)
Inductive file : Type :=
| PublicationsJson (pubs : list publication) (a : analysis)
    (scraped_at : str) (source_url : str) (total_unique_publications : nat)
| AnalysisJson (a : analysis)
| PublicationsCsv (rows : list publication)
| OtherFile (content : str).

(** The lines printed by [run_full_scrape] and the functions it calls; the
    lines printed while parsing are left out. *)
Inductive msg : Type :=
| MStarting | MFetching (url : str) | MStartedAt (t : datetime)
| MFoundExisting (n : nat)
| MErrorFetching | MFetchFailed | MFetched | MHtmlLength (n : nat)
| MParsing | MCheckingDuplicates
| MNoNewPublications (n : nat) | MUpToDate
| MFoundUnique (n : nat) | MNewDetected (n : Z) | MMayHaveBeenRemoved (n : Z)
| MAnalyzing
| MPublicationsSaved (path : str) | MAnalysisSaved (path : str) | MCsvSaved (path : str)
| MStandaloneGenerated | MStandaloneFailed | MStandaloneError
| MDynamicViewer (path : str) | MTemplateNotFound
| MCompleted (t : datetime) | MSeparator.

Record world : Type := World {
  server : response;
  files : gmap str file;
  ticks : nat;
  stdout : list msg
}.

(** Computations on the world that may raise. *)
Definition M (A : Type) : Type := world -> outcome A * world.

Definition ret {A} (a : A) : M A := fun w => (Return a, w).

Definition bind {A B} (c : M A) (k : A -> M B) : M B :=
  fun w =>
    match c w with
    | (Return a, w') => k a w'
    | (Raise e, w') => (Raise e, w')
    end.

Notation "x <- c ;; k" := (bind c (fun x => k))
  (at level 100, c at next level, right associativity).
Notation "c ;;; k" := (bind c (fun _ => k))
  (at level 100, right associativity).

Definition lift {A} (o : outcome A) : M A := fun w => (o, w).

Definition print (m : msg) : M unit :=
  fun w => (Return tt, World (server w) (files w) (ticks w) (stdout w ++ [m])).

Definition read_file (path : str) : M (option file) :=
  fun w => (Return (files w !! path), w).

(** [open(path, 'w')] followed by the dump: the file is replaced. *)
Definition write_file (path : str) (f : file) : M unit :=
  fun w => (Return tt, World (server w) (<[ path := f ]> (files w)) (ticks w) (stdout w)).

Definition when (b : bool) (c : M unit) : M unit := if b then c else ret tt.

Definition publications_path (y : Z) : str :=
  s "data/angspe_publications_" ++ str_of_Z y ++ s ".json".
Definition analysis_path (y : Z) : str :=
  s "data/angspe_analysis_" ++ str_of_Z y ++ s ".json".
Definition csv_path (y : Z) : str :=
  s "data/angspe_publications_" ++ str_of_Z y ++ s ".csv".
Definition viewer_template : str := s "angspe_dynamic_viewer.html".
Definition viewer_path (y : Z) : str :=
  s "angspe_viewer_" ++ str_of_Z y ++ s ".html".

Inductive save_format : Type := Json | Csv.

Section Run.

Variable urljoin : str -> str -> option str.
Variable BeautifulSoup : str -> node.

(** The readings of [datetime.now()], in the order they are taken. *)
Variable clock : nat -> datetime.

(** The outcome of [subprocess.run(['python3', 'generate_standalone.py'])]:
    the return code, or [None] when the process cannot be started.  The
    files that this external program writes are not part of the model. *)
Variable generate_standalone_py : world -> option nat.

Definition now : M datetime :=
  fun w => (Return (clock (ticks w)),
            World (server w) (files w) (S (ticks w)) (stdout w)).

Definition fetch_page_html : M (option str) :=
  fun w =>
    match server w with
    | HttpResponse code text =>
        if Nat.leb 400 code && Nat.ltb code 600
        then (print MErrorFetching ;;; ret None) w
        else ret (Some text) w
    | RequestFailed => (print MErrorFetching ;;; ret None) w
    end.

(** The count is 0 when the file is missing and when it cannot be read; the
    warning that is printed in the second case is not among the messages
    of the model. *)
Definition get_existing_publications_count : M nat :=
  t <- now ;;
  f <- read_file (publications_path (year t)) ;;
  match f with
  | Some (PublicationsJson pubs _ _ _ _) => ret (length pubs)
  | _ => ret 0
  end.

Definition save_results (pubs : list publication) (a : analysis)
    (format : save_format) : M unit :=
  t <- now ;;
  let current_year := year t in
  match format with
  | Json =>
      t' <- now ;;
      write_file (publications_path current_year)
        (PublicationsJson pubs a (isoformat t') target_url (length pubs)) ;;;
      print (MPublicationsSaved (publications_path current_year)) ;;;
      write_file (analysis_path current_year) (AnalysisJson a) ;;;
      print (MAnalysisSaved (analysis_path current_year))
  | Csv =>
      match pubs with
      | [] => ret tt
      | _ =>
          write_file (csv_path current_year) (PublicationsCsv pubs) ;;;
          print (MCsvSaved (csv_path current_year))
      end
  end.

Definition generate_standalone_viewer : M unit :=
  fun w =>
    match generate_standalone_py w with
    | Some 0 => print MStandaloneGenerated w
    | Some _ => print MStandaloneFailed w
    | None => print MStandaloneError w
    end.

Definition generate_dynamic_viewer : M unit :=
  f <- read_file viewer_template ;;
  match f with
  | Some template =>
      t <- now ;;
      write_file (viewer_path (year t)) template ;;;
      print (MDynamicViewer (viewer_path (year t)))
  | None => print MTemplateNotFound
  end.

Definition run_full_scrape
  : M (option (list publication) * option analysis) :=
  print MStarting ;;;
  print (MFetching target_url) ;;;
  t <- now ;;
  print (MStartedAt t) ;;;
  existing_count <- get_existing_publications_count ;;
  when (Nat.ltb 0 existing_count) (print (MFoundExisting existing_count)) ;;;
  html_content <- fetch_page_html ;;
  match html_content with
  | None | Some [] =>
      print MFetchFailed ;;;
      ret (None, None)
  | Some html_content =>
      print MFetched ;;;
      print (MHtmlLength (length html_content)) ;;;
      print MParsing ;;;
      print MCheckingDuplicates ;;;
      let pubs := parse_publications urljoin BeautifulSoup html_content in
      (if Nat.eqb (length pubs) existing_count
       then print (MNoNewPublications (length pubs)) ;;; print MUpToDate
       else
         print (MFoundUnique (length pubs)) ;;;
         when (Nat.ltb 0 existing_count)
           (let new_count := (Z.of_nat (length pubs) - Z.of_nat existing_count)%Z in
            if Z.ltb 0 new_count then print (MNewDetected new_count)
            else when (Z.ltb new_count 0) (print (MMayHaveBeenRemoved (Z.abs new_count))))) ;;;
      print MAnalyzing ;;;
      a <- lift (analyze_publications pubs) ;;
      save_results pubs a Json ;;;
      save_results pubs a Csv ;;;
      generate_standalone_viewer ;;;
      generate_dynamic_viewer ;;;
      t' <- now ;;
      print (MCompleted t') ;;;
      print MSeparator ;;;
      ret (Some pubs, Some a)
  end.

End Run.

(** ** The entry point

    [main] runs the scraper and prints the summary of the analysis.  The
    exceptions that can end it are the one of the analysis and the
    [KeyError] of a dictionary that is read at a key it does not have. *)

Inductive uncaught : Type :=
| FromRun (e : exn)
| KeyError (key : str).

(** How a call of [main] ends.  The lines of the summary are not modelled
    one by one: [Summary r] stands for the summary of the report [r],
    printed in full. *)
Inductive ending : Type :=
| Summary (r : report)
| ScrapingFailed
| Crash (e : uncaught).

(** [analysis['total_publications']] is the first key that is read; the
    other keys that are read are keys of every report. *)
Definition print_analysis_summary (a : analysis) : ending :=
  match a with
  | Analysis r => Summary r
  | NoPublicationsFound => Crash (KeyError (s "total_publications"))
  end.

Section Main.

Variable urljoin : str -> str -> option str.
Variable BeautifulSoup : str -> node.
Variable clock : nat -> datetime.
Variable generate_standalone_py : world -> option nat.

(** [if analysis:] holds for every dictionary that is not empty, the one
    with the key [error] included. *)
Definition main (w : world) : ending * world :=
  match run_full_scrape urljoin BeautifulSoup clock generate_standalone_py w with
  | (Return (_, Some a), w') => (print_analysis_summary a, w')
  | (Return (_, None), w') => (ScrapingFailed, w')
  | (Raise e, w') => (Crash (FromRun e), w')
  end.

End Main.

(** ** The API ([app/main.py])

    The endpoints read the snapshot of the year 2025 below the project
    root, which is the directory in which [run_scraper] starts the scraper:
    the path is the one that [save_results] writes in 2025.  A file that is
    not a JSON object is a [PublicationsCsv] or an [OtherFile].  What an
    endpoint returns is the value read from the file; for the analysis
    this is the JSON image of the dictionary that was stored, in which the
    years of [publications_by_year] are strings. *)

Definition data_path : str := s "data/angspe_publications_2025.json".

Inductive api_exn : Type :=
| HTTPException (status_code : nat)
| OtherException.

(** The first lines of the three endpoints, inside their [try]: the test
    for the file and [json.load]. *)
Definition load_data (fs : gmap str file) : file + api_exn :=
  match fs !! data_path with
  | None => inr (HTTPException 404)
  | Some (PublicationsCsv _) | Some (OtherFile _) => inr OtherException
  | Some data => inl data
  end.

(** [except Exception as e: raise HTTPException(status_code=500, ...)];
    [HTTPException] is itself an [Exception]. *)
Definition except_Exception {A} (body : A + api_exn) : A + api_exn :=
  match body with
  | inl a => inl a
  | inr _ => inr (HTTPException 500)
  end.

(** [data.get('publications', [])] *)
Definition get_publications (fs : gmap str file) : list publication + api_exn :=
  except_Exception
    (match load_data fs with
     | inl (PublicationsJson pubs _ _ _ _) => inl pubs
     | inl _ => inl []
     | inr e => inr e
     end).

(** [data.get('analysis', {})]: [None] is the empty dictionary. *)
Definition get_analysis (fs : gmap str file) : option analysis + api_exn :=
  except_Exception
    (match load_data fs with
     | inl (PublicationsJson _ a _ _ _) => inl (Some a)
     | inl _ => inl None
     | inr e => inr e
     end).

(** * Specification

    The predicates and the reference definitions in which the properties
    are stated, and the concrete inputs of the examples. *)

(** ** Normalised titles *)

(** Words: non-empty runs of characters that are not white space. *)

Definition nospace (w : str) : Prop := Forall (fun c => isspace c = false) w.
Definition word (w : str) : Prop := w <> [] /\ nospace w.

(** The single and the double space of the last two steps. *)
Definition sp : str := s " ".
Definition dsp : str := s "  ".

(** The substitution, and the characters that [translate] deletes. *)
Definition pattern_l : str := s "rapport sur l".
Definition pattern_le : str := s "rapport sur le".
Definition deleted : str := replace (s ".") [] (replace (s "-") [] punctuation).

(** The value of [normalized] before the two substitutions. *)
Definition collapsed (title : str) : str :=
  join sp (split (delete_chars deleted (strip (lower title)))).

(** Characters that [lower] and [translate] leave alone. *)
Definition lowered (c : ascii) : Prop := char_lower c = c.
Definition kept (c : ascii) : Prop := existsb (char_eqb c) deleted = false.

(** The shape of a collapsed title: lower-case words without deleted
    punctuation, separated by single spaces. *)
Record canonical (z : str) : Prop := Canonical {
  can_words : exists ws, z = join sp ws /\ Forall word ws;
  can_lowered : Forall lowered z;
  can_kept : Forall kept z
}.

(** Single spaces between words: [prev_space] tells whether the text so
    far is empty or ends with white space. *)
Fixpoint spaced_from (prev_space : bool) (z : str) : bool :=
  match z with
  | [] => negb prev_space
  | c :: z' =>
      if isspace c then negb prev_space && spaced_from true z'
      else spaced_from false z'
  end.

Definition plain_space (c : ascii) : Prop := isspace c = true -> c = " "%char.

(** ** Matches of a regular expression *)

(** [matches r u g g']: the text [u] is matched by [r], which extends the
    captured groups [g] to [g']. *)
Inductive matches : regex -> str -> caps -> caps -> Prop :=
| matches_eps g : matches Eps [] g g
| matches_chr p c g : p c = true -> matches (Chr p) [c] g g
| matches_seq a b u v g g' g'' :
    matches a u g g' -> matches b v g' g'' -> matches (Seq a b) (u ++ v) g g''
| matches_alt_l a b u g g' : matches a u g g' -> matches (Alt a b) u g g'
| matches_alt_r a b u g g' : matches b u g g' -> matches (Alt a b) u g g'
| matches_opt_some a u g g' : matches a u g g' -> matches (Opt a) u g g'
| matches_opt_none a g : matches (Opt a) [] g g
| matches_star p u g :
    Forall (fun c => p c = true) u -> matches (Star p) u g g
| matches_plus p u g :
    u <> [] -> Forall (fun c => p c = true) u -> matches (Plus p) u g g
| matches_group n a u g g' :
    matches a u g g' -> matches (Group n a) u g ((n, u) :: g').

(** ** Dates and numbers in a text *)

Definition all_digits (d : str) : Prop := Forall (fun c => isdecimal c = true) d.

(** One or two digits (day, month) and four digits (year). *)
Definition day_or_month (d : str) : Prop :=
  (length d = 1 \/ length d = 2) /\ all_digits d.
Definition four_digits (y : str) : Prop := length y = 4 /\ all_digits y.

(** [text] contains day, month and year joined by [sep]. *)
Definition has_date (sep : ascii) (text d m y : str) : Prop :=
  day_or_month d /\ day_or_month m /\ four_digits y /\
  exists pre post, text = pre ++ (d ++ sep :: m ++ sep :: y) ++ post.

(** The rendering of the source: [f"{d}/{m}/{y}"]. *)
Definition slashed (d m y : str) : str := d ++ s "/" ++ m ++ s "/" ++ y.

(** A pattern without group leaves the captured groups as they are. *)
Fixpoint groupless (r : regex) : bool :=
  match r with
  | Eps | Chr _ | Star _ | Plus _ => true
  | Seq a b | Alt a b => groupless a && groupless b
  | Opt a => groupless a
  | Group _ _ => false
  end.

(** ** De-duplication *)

(** The key of a publication in [seen_titles]. *)
Definition title_key (p : publication) : str := _normalize_title (title p).

(** The state of the parser between two candidates: the accepted
    publications have distinct URLs and distinct title keys, none is
    without title or URL, and the two sets hold exactly their keys. *)
Record consistent (st : parse_state) : Prop := Consistent {
  cons_urls : NoDup (map download_url (publications st));
  cons_titles : NoDup (map title_key (publications st));
  cons_nonempty :
    Forall (fun p => title p <> [] /\ download_url p <> []) (publications st);
  cons_seen_urls : forall u,
    u ∈ seen_urls st <-> In u (map download_url (publications st));
  cons_seen_titles : forall k,
    k ∈ seen_titles st <-> In k (map title_key (publications st))
}.

(** First seen wins, on lists and without the two sets: a candidate is
    kept when it has a title and a URL and no publication kept before it
    has the same URL or the same normalised title. *)
Definition same_key (p q : publication) : bool :=
  str_eqb (download_url q) (download_url p) || str_eqb (title_key q) (title_key p).

Definition acceptable (kept : list publication) (p : publication) : bool :=
  negb (str_eqb (title p) []) && negb (str_eqb (download_url p) [])
  && negb (existsb (same_key p) kept).

Fixpoint first_seen (kept : list publication) (cs : list (option publication))
    : list publication :=
  match cs with
  | [] => kept
  | None :: cs' => first_seen kept cs'
  | Some p :: cs' => first_seen (if acceptable kept p then kept ++ [p] else kept) cs'
  end.

(** ** Runs *)

(** The request of [fetch_page_html] fails: no response, or a response
    whose status [raise_for_status] refuses. *)
Definition fetch_fails (r : response) : Prop :=
  match r with
  | RequestFailed => True
  | HttpResponse code _ => 400 <= code < 600
  end.

(** The request is answered with the body [html]. *)
Definition fetch_succeeds (r : response) (html : str) : Prop :=
  exists code, r = HttpResponse code html /\ ~ (400 <= code < 600).

(** Computations that only print. *)
Definition prints_only (c : M unit) : Prop :=
  forall w, exists out,
    c w = (Return tt, World (server w) (files w) (ticks w) (stdout w ++ out)).

(** ** Sizes *)

(** A non-empty run of digits, and a number: digits, or digits, a period
    and digits. *)
Definition digit_run (d : str) : Prop := d <> [] /\ all_digits d.

Definition decimal_number (n : str) : Prop :=
  digit_run n \/ exists i f, digit_run i /\ digit_run f /\ n = i ++ "."%char :: f.

(** [\d+(?:\.\d+)?] at the start of a number that is followed by a space. *)
Definition number_body : regex :=
  Seq (Plus isdecimal) (Opt (Seq (Chr (char_eqb ".")) (Plus isdecimal))).



(** ** Concrete inputs *)

(** A publication with a size, and one with a date. *)

Definition sized (name size : string) : publication :=
  {| title := s name; download_url := s "https://angspe.ma/" ++ s name;
     file_size := Some (s size); date_posted := None;
     category := non_classe; file_type := s "PDF" |}.


(** The report of [analyze_publications], when it returns one. *)
Definition report_of (pubs : list publication) : report :=
  match analyze_publications pubs with
  | Return (Analysis r) => r
  | _ => Report 0 ∅ ∅ ∅ None None []
  end.

Definition dated (name : string) (date : option string) : publication :=
  {| title := s name; download_url := s "https://angspe.ma/" ++ s name;
     file_size := None; date_posted := option_map s date;
     category := non_classe; file_type := s "PDF" |}.

(** An environment: a [urljoin] that concatenates, a parser that finds an
    empty document, a clock that stands still, a generator that succeeds,
    and a world in which a snapshot with one publication is stored. *)
Definition join_url (base href : str) : option str := Some (base ++ href).
Definition empty_page (_ : str) : node := Element (s "[document]") [] [].
Definition noon (_ : nat) : datetime := DateTime 2025 (s "2025-06-26T12:00:00").
Definition generator_ok (_ : world) : option nat := Some 0.

Definition old_snapshot : file :=
  PublicationsJson [dated "a.pdf" (Some "01/01/2024")] NoPublicationsFound
    (s "2025-01-01T00:00:00") target_url 1.

Definition world_with_snapshot (r : response) : world :=
  World r {[ publications_path 2025 := old_snapshot ]} 0 [].

(** A page on which the section search finds a section without a heading:
    the section gives no record, the PDF link is not looked at, and the
    result is empty. *)
Definition page_with_empty_section : node :=
  Element (s "[document]") []
    [Element (s "div") [(s "class", s "document-list")]
       [Element (s "a") [(s "href", s "/files/rapport.pdf")]
          [NavigableString (s "Rapport annuel 2024")]]].

(** ** Candidates and records of the parser *)

Section ParserSpec.

Variable urljoin : str -> str -> option str.

(** The candidates of the first part of [parse_publications], in the
    order in which they are considered. *)
Definition first_candidates (soup : tag) : list (option publication) :=
  match publication_sections soup with
  | [] => map (extract_publication_info urljoin) (pdf_links soup)
  | sections => map (extract_publication_from_section urljoin) sections
  end.

(** The records that the section loop accepts, from the state in which
    [parse_publications] starts it. *)
Definition section_records (soup : tag) : list publication :=
  publications (section_tier urljoin soup (enter StructuredSections initial_state)).

(** The records accepted by the first two strategies together. *)
Definition first_records (soup : tag) : list publication :=
  publications (sections_or_links urljoin soup).

(** What first-seen-wins keeps of the records of the sections, and of the
    records of the PDF links, each strategy taken on its own and from the
    empty list. *)
Definition sections_kept (soup : tag) : list publication :=
  first_seen [] (map (extract_publication_from_section urljoin) (publication_sections soup)).

Definition links_kept (soup : tag) : list publication :=
  first_seen [] (map (extract_publication_info urljoin) (pdf_links soup)).

End ParserSpec.

(** ** The fields of a record *)

Definition category_labels : list str :=
  [cat_rapport; cat_autres; cat_publications; cat_documents].

(** The labels that [extract_category] looks for in an ancestor, and an
    ancestor in whose text none of them occurs. *)
Definition link_labels : list str := [cat_rapport; cat_autres; cat_publications].

Definition unlabelled (t : tag) : Prop :=
  Forall (fun l => contains l (get_text (t_node t)) = false) link_labels.

Definition spaces (ws : str) : Prop := Forall (fun c => isspace c = true) ws.

(** One of the eight units, in any letter case. *)
Definition size_unit (u : str) : Prop := In (lower u) (map lower size_units).

(** [text] contains a number, white space and a unit. *)
Definition has_size (text n ws u : str) : Prop :=
  decimal_number n /\ spaces ws /\ size_unit u /\
  exists pre post, text = pre ++ (n ++ ws ++ u) ++ post.

(** The values of the two extractors: a number, one space and a unit;
    day, month and year joined by slashes. *)
Definition size_text (x : str) : Prop :=
  exists n u, decimal_number n /\ size_unit u /\ x = n ++ " "%char :: u.

Definition date_text (x : str) : Prop :=
  exists d m y, day_or_month d /\ day_or_month m /\ four_digits y /\ x = slashed d m y.

Record well_formed (p : publication) : Prop := WellFormed {
  wf_size : match file_size p with Some x => size_text x | None => True end;
  wf_date : match date_posted p with Some x => date_text x | None => True end;
  wf_category : In (category p) (category_labels ++ [non_classe]);
  wf_type : In (file_type p) [s "PDF"; s "DOC"]
}.

(** The words of a title, as the normaliser sees them. *)
Definition title_words (t : str) : list str :=
  split (delete_chars deleted (lower t)).

(** ** Counting *)

Definition occurrences `{EqDecision K} (x : K) (xs : list K) : nat :=
  length (List.filter (fun y => bool_decide (y = x)) xs).

(** What [Counter] holds at a key that occurs [n] times. *)
Definition counted (n : nat) : option nat :=
  match n with O => None | S _ => Some n end.

(** ** The record at which the search for the latest publication stops *)

(** The records before [p] have a date in which [year] does not occur. *)
Definition passed_over (year : str) (before : list publication) : Prop :=
  Forall (fun q => exists d, date_posted q = Some d /\ contains year d = false) before.

(** The search reaches a record without date. *)
Definition reaches_undated (year : str) (pubs : list publication) : Prop :=
  exists before p after,
    pubs = before ++ p :: after /\ date_posted p = None /\ passed_over year before.

(** ** The files of a run *)

(** The paths that [run_full_scrape] writes. *)
Definition output_path (p : str) : Prop :=
  exists y, p = publications_path y \/ p = analysis_path y \/ p = csv_path y
            \/ p = viewer_path y.

(** The snapshot that a run stores for [pubs] and [a]. *)
Definition snapshot_of (pubs : list publication) (a : analysis) (f : file) : Prop :=
  exists scraped_at, f = PublicationsJson pubs a scraped_at target_url (length pubs).

(** The files after the two calls of [save_results] that start at the
    tick [t] of the clock: the snapshot and the analysis of the year read
    first, and the CSV file, of the year read by the second call, when
    there is a publication. *)
Definition saved (clock : nat -> datetime) (t : nat) (pubs : list publication)
    (a : analysis) (fs : gmap str file) : gmap str file :=
  let json :=
    <[ analysis_path (year (clock t)) := AnalysisJson a ]>
      (<[ publications_path (year (clock t)) :=
            PublicationsJson pubs a (isoformat (clock (S t))) target_url (length pubs) ]>
         fs) in
  match pubs with
  | [] => json
  | _ => <[ csv_path (year (clock (S (S t)))) := PublicationsCsv pubs ]> json
  end.

(** ** More concrete inputs *)

(** Four records, the last one without date. *)
Definition dated_list : list publication :=
  [dated "a.pdf" (Some "01/01/2024"); dated "b.pdf" (Some "15/06/2025");
   dated "c.pdf" (Some "20/06/2025"); dated "d.pdf" None].

(** A page with two PDF links.  The first one is four levels deep, so that
    no date is found for it in its three nearest ancestors; the second one
    carries its date. *)
Definition page_with_undated_link : node :=
  Element (s "[document]") []
    [Element (s "ul") []
       [Element (s "li") []
          [Element (s "p") []
             [Element (s "span") []
                [Element (s "a") [(s "href", s "/files/charte.pdf")]
                   [NavigableString (s "Charte de gouvernance")]]]]];
     Element (s "a") [(s "href", s "/files/rapport.pdf")]
       [NavigableString (s "Rapport annuel 15/06/2025")]].

Definition undated_page (_ : str) : node := page_with_undated_link.

(** A page whose text holds the title of the second known record, and
    nothing else. *)
Definition charter_page (_ : str) : node :=
  Element (s "[document]") []
    [NavigableString (s "Charte de gouvernance pour les EEP.")].

(** The known record that is found on it. *)
Definition charter : publication :=
  {| title := s "Charte de gouvernance pour les EEP.";
     download_url := s "https://angspe.ma/path/to/charte-gouvernance-eep.pdf";
     file_size := Some (s "1755 ko");
     date_posted := Some (s "22/05/2025");
     category := cat_autres;
     file_type := s "PDF" |}.

(** A clock that stands still in the following year. *)
Definition new_year (_ : nat) : datetime := DateTime 2026 (s "2026-01-02T06:00:00").

(** The files after [generate_dynamic_viewer], called at the tick [t] with
    the files [fs] of which [template] is the template of the viewer, when
    there is one: the viewer of the year is a copy of the template. *)
Definition with_viewer (clock : nat -> datetime) (t : nat) (template : option file)
    (fs : gmap str file) : gmap str file :=
  match template with
  | Some f => <[ viewer_path (year (clock t)) := f ]> fs
  | None => fs
  end.

(** A world in which the template of the viewer is there. *)
Definition world_with_template (r : response) : world :=
  World r {[ viewer_template := OtherFile (s "<html>viewer</html>") ]} 0 [].

(** * Properties *)

(** ** Strings *)

Lemma char_eqb_eq a b : char_eqb a b = true <-> a = b.
Proof. apply Ascii.eqb_eq. Qed.

Lemma char_eqb_refl a : char_eqb a a = true.
Proof. by apply char_eqb_eq. Qed.

Lemma char_eqb_neq a b : char_eqb a b = false <-> a <> b.
Proof. apply Ascii.eqb_neq. Qed.

Lemma char_lower_idem c : char_lower (char_lower c) = char_lower c.
Proof. destruct c as [[] [] [] [] [] [] [] []]; reflexivity. Qed.

Lemma startswith_spec p x : startswith p x = true <-> exists r, x = p ++ r.
Proof.
  revert x; induction p as [|a p IH]; intros x; simpl.
  - split; eauto.
  - destruct x as [|b x].
    + split; [done | intros [r Hr]; discriminate].
    + rewrite andb_true_iff, char_eqb_eq, IH. split.
      * intros [-> [r ->]]. by exists r.
      * intros [r Hr]. injection Hr as -> ->. eauto.
Qed.

Lemma startswith_app p r : startswith p (p ++ r) = true.
Proof. apply startswith_spec. eauto. Qed.

Lemma contains_spec p x :
  contains p x = true <-> exists a b, x = a ++ p ++ b.
Proof.
  induction x as [|c x IH]; simpl.
  - rewrite orb_false_r, startswith_spec. split.
    + intros [r Hr]. exists [], r. done.
    + intros (a & b & H). destruct a; simpl in H.
      * eauto.
      * discriminate.
  - rewrite orb_true_iff, startswith_spec, IH. split.
    + intros [[r ->] | (a & b & ->)].
      * by exists [], r.
      * by exists (c :: a), b.
    + intros (a & b & H). destruct a as [|c' a]; simpl in H.
      * left. eauto.
      * right. injection H as -> ->. eauto.
Qed.

Lemma contains_cons p c x : contains p x = true -> contains p (c :: x) = true.
Proof. simpl. intros ->. apply orb_true_r. Qed.

(** *** [replace] *)

Lemma replace_from_skip old new k x :
  replace_from old new k x = replace_from old new 0 (drop k x).
Proof.
  revert k; induction x as [|c x IH]; intros k.
  - by destruct k.
  - destruct k as [|k]; [done|]. simpl replace_from at 1. by rewrite IH.
Qed.

Lemma replace_from_hit old new x :
  old <> [] -> startswith old x = true ->
  replace_from old new 0 x = new ++ replace_from old new 0 (drop (length old) x).
Proof.
  intros Hold H. destruct x as [|c x].
  - destruct old; [done | discriminate].
  - simpl replace_from. rewrite H, replace_from_skip.
    destruct old as [|o old]; [done|]. simpl. by rewrite Nat.sub_0_r.
Qed.

Lemma replace_from_miss old new c x :
  startswith old (c :: x) = false ->
  replace_from old new 0 (c :: x) = c :: replace_from old new 0 x.
Proof. intros H. simpl replace_from. by rewrite H. Qed.

Lemma replace_from_absent old new x :
  contains old x = false -> replace_from old new 0 x = x.
Proof.
  induction x as [|c x IH]; [done|].
  simpl contains. intros [H1 H2]%orb_false_iff.
  rewrite replace_from_miss by done. by rewrite IH.
Qed.

Lemma replace_from_present old new x :
  old <> [] -> contains old x = true ->
  contains new (replace_from old new 0 x) = true.
Proof.
  intros Hold. induction x as [|c x IH].
  - simpl. rewrite orb_false_r. destruct old; done.
  - intros H. destruct (startswith old (c :: x)) eqn:Hs.
    + rewrite replace_from_hit by done. apply contains_spec.
      by exists [], (replace_from old new 0 (drop (length old) (c :: x))).
    + rewrite replace_from_miss by done. apply contains_cons, IH.
      simpl in H. simpl in Hs. rewrite Hs in H. done.
Qed.

(** A character that does not occur in [old] separates the replacements
    on its two sides. *)
Lemma startswith_before old p c q :
  ~ In c old -> startswith old (p ++ c :: q) = true -> startswith old p = true.
Proof.
  revert p; induction old as [|o old IH]; intros p Hc; [done|].
  destruct p as [|a p]; simpl.
  - rewrite andb_true_iff, char_eqb_eq. intros [-> _]. destruct Hc. by left.
  - rewrite !andb_true_iff. intros [? ?]. split; [done|].
    apply IH; [|done]. intros ?. apply Hc. by right.
Qed.

Lemma startswith_weaken old p q :
  startswith old p = true -> startswith old (p ++ q) = true.
Proof.
  rewrite !startswith_spec. intros [r ->]. exists (r ++ q). by rewrite <- app_assoc.
Qed.

Lemma replace_from_split old new p c q :
  old <> [] -> ~ In c old ->
  replace_from old new 0 (p ++ c :: q)
  = replace_from old new 0 p ++ c :: replace_from old new 0 q.
Proof.
  intros Hold Hc.
  remember (length p) as n eqn:Hn. revert p Hn.
  induction n as [n IH] using lt_wf_ind. intros p Hn.
  destruct p as [|a p].
  - simpl app. rewrite replace_from_miss; [done|].
    destruct old as [|o old]; [done|]. simpl.
    apply andb_false_iff. left. apply char_eqb_neq. intros ->. apply Hc. by left.
  - destruct (startswith old (a :: p)) eqn:Hs.
    + rewrite (replace_from_hit old new (a :: p)) by done.
      rewrite replace_from_hit by (done || by apply (startswith_weaken old (a :: p))).
      apply startswith_spec in Hs as [r Hr]. rewrite Hr.
      rewrite <- app_assoc, !drop_app_length, <- app_assoc. f_equal.
      apply (IH (length r)); [|done].
      rewrite Hn, Hr, length_app. destruct old; [done|]. simpl. lia.
    + assert (startswith old ((a :: p) ++ c :: q) = false) as Hs'.
      { destruct (startswith old ((a :: p) ++ c :: q)) eqn:E; [|done].
        apply startswith_before in E; [congruence | done]. }
      change ((a :: p) ++ c :: q) with (a :: (p ++ c :: q)) in *.
      rewrite (replace_from_miss old new a p) by done.
      rewrite (replace_from_miss old new a (p ++ c :: q)) by done.
      simpl. f_equal. apply (IH (length p)); [|done]. rewrite Hn. simpl. lia.
Qed.

(** *** [strip], [split] and [join] *)

Lemma Forall_lstrip (P : ascii -> Prop) x : Forall P x -> Forall P (lstrip x).
Proof.
  induction 1 as [|c x Hc Hx IH]; simpl; [constructor|].
  destruct (isspace c); [done | by constructor].
Qed.

Lemma Forall_strip (P : ascii -> Prop) x : Forall P x -> Forall P (strip x).
Proof.
  intros H. unfold strip, rstrip.
  apply Forall_rev, Forall_lstrip, Forall_rev, Forall_lstrip, H.
Qed.

Lemma lstrip_fixed c x : isspace c = false -> lstrip (c :: x) = c :: x.
Proof. simpl. by intros ->. Qed.

Lemma rstrip_fixed x c : isspace c = false -> rstrip (x ++ [c]) = x ++ [c].
Proof.
  intros H. unfold rstrip. rewrite rev_app_distr. simpl. rewrite H. simpl.
  by rewrite rev_involutive.
Qed.

Lemma split_from_app u : forall x w,
  nospace u -> split_from w (u ++ x) = split_from (w ++ u) x.
Proof.
  induction u as [|c u IH]; intros x w Hu; simpl.
  - by rewrite app_nil_r.
  - inversion Hu as [|? ? Hc Hu']; subst. rewrite Hc, IH by done.
    by rewrite <- app_assoc.
Qed.

Lemma split_from_Forall (P : ascii -> Prop) x : forall w,
  Forall P w -> Forall P x -> Forall (Forall P) (split_from w x).
Proof.
  induction x as [|c x IH]; intros w Hw Hx; simpl.
  - destruct w; [constructor | constructor; [done | constructor]].
  - inversion Hx as [|? ? Hc Hx']; subst.
    destruct (isspace c).
    + destruct w; [by apply IH | constructor; [done | by apply IH]].
    + apply IH; [|done]. apply Forall_app; split; [done | by constructor].
Qed.

Lemma split_from_words x : forall w, nospace w -> Forall word (split_from w x).
Proof.
  induction x as [|c x IH]; intros w Hw; simpl.
  - destruct w; [constructor | constructor; [done | constructor]].
  - destruct (isspace c) eqn:Hc.
    + destruct w; [by apply IH | constructor; [done | apply IH; constructor]].
    + apply IH. apply Forall_app; split; [done | by constructor].
Qed.

Lemma split_words x : Forall word (split x).
Proof. apply split_from_words. constructor. Qed.

Lemma split_join ws : Forall word ws -> split (join sp ws) = ws.
Proof.
  unfold split. induction 1 as [|w ws [Hne Hw] Hws IH]; [done|].
  destruct ws as [|w' ws].
  - simpl join. pose proof (split_from_app w [] [] Hw) as E.
    rewrite app_nil_r in E. rewrite E. simpl. destruct w; done.
  - change (join sp (w :: w' :: ws)) with (w ++ " "%char :: join sp (w' :: ws)).
    rewrite split_from_app by done. simpl app at 1.
    change (split_from w (" "%char :: join sp (w' :: ws)))
      with (match w with [] => split_from [] (join sp (w' :: ws))
            | _ => w :: split_from [] (join sp (w' :: ws)) end).
    rewrite IH. destruct w; done.
Qed.

Lemma Forall_join (P : ascii -> Prop) ws :
  P " "%char -> Forall (Forall P) ws -> Forall P (join sp ws).
Proof.
  intros Hsp. induction 1 as [|w ws Hw Hws IH]; [constructor|].
  destruct ws as [|w' ws]; [done|].
  change (join sp (w :: w' :: ws)) with (w ++ " "%char :: join sp (w' :: ws)).
  apply Forall_app; split; [done | by constructor].
Qed.

Lemma join_words_first ws :
  Forall word ws -> ws <> [] ->
  exists c r, join sp ws = c :: r /\ isspace c = false.
Proof.
  intros H Hne. destruct H as [|w ws [Hw Hn] _]; [done|].
  destruct w as [|c w]; [done|]. inversion Hn; subst.
  destruct ws; simpl; eauto.
Qed.

Lemma join_words_last ws :
  Forall word ws -> ws <> [] ->
  exists r c, join sp ws = r ++ [c] /\ isspace c = false.
Proof.
  induction 1 as [|w ws [Hw Hn] Hws IH]; [done|]. intros _.
  destruct ws as [|w' ws].
  - simpl. destruct (exists_last Hw) as (r & c & ->).
    exists r, c. split; [done|].
    apply Forall_app in Hn as [_ Hc]. by inversion Hc.
  - destruct IH as (r & c & Hr & Hc); [done|].
    change (join sp (w :: w' :: ws)) with (w ++ sp ++ join sp (w' :: ws)).
    rewrite Hr. exists (w ++ sp ++ r), c. by rewrite <- !app_assoc.
Qed.

Lemma strip_join ws : Forall word ws -> strip (join sp ws) = join sp ws.
Proof.
  intros H. destruct ws as [|w ws]; [done|].
  destruct (join_words_first (w :: ws)) as (c & r & Hj & Hc); [done..|].
  destruct (join_words_last (w :: ws)) as (r' & c' & Hj' & Hc'); [done..|].
  unfold strip. rewrite Hj, lstrip_fixed, <- Hj, Hj' by done.
  by apply rstrip_fixed.
Qed.

(** *** Collapsing double spaces *)

Lemma nospace_not_dsp c : isspace c = false -> ~ In c dsp.
Proof. intros H [<- | [<- | []]]; discriminate. Qed.

Lemma collapse_cons c q :
  isspace c = false ->
  replace_from dsp sp 0 (c :: q) = c :: replace_from dsp sp 0 q.
Proof.
  intros H. apply (replace_from_split dsp sp [] c q); [done|].
  by apply nospace_not_dsp.
Qed.

Lemma collapse_word_sp w :
  nospace w -> replace_from dsp sp 0 (w ++ sp) = w ++ sp.
Proof.
  induction 1 as [|c w Hc Hw IH]; [done|].
  simpl app. rewrite collapse_cons by done. by rewrite IH.
Qed.

Lemma collapse_word w : nospace w -> replace_from dsp sp 0 w = w.
Proof.
  induction 1 as [|c w Hc Hw IH]; [done|].
  rewrite collapse_cons by done. by rewrite IH.
Qed.

Lemma collapse_join ws :
  Forall word ws -> replace_from dsp sp 0 (join sp ws) = join sp ws.
Proof.
  induction 1 as [|w ws [Hne Hw] Hws IH]; [done|].
  destruct ws as [|w' ws]; [by apply collapse_word|].
  destruct (join_words_first (w' :: ws)) as (c & r & Hj & Hc); [done..|].
  change (join sp (w :: w' :: ws)) with (w ++ sp ++ join sp (w' :: ws)).
  rewrite Hj in *. rewrite collapse_cons in IH by done.
  rewrite app_assoc, replace_from_split; [|done|by apply nospace_not_dsp].
  rewrite collapse_word_sp by done. injection IH as ->. done.
Qed.

(** ** The title normaliser *)

Lemma normalize_unfold title :
  title <> [] ->
  _normalize_title title
  = replace_from dsp sp 0 (replace_from pattern_l pattern_le 0 (collapsed title)).
Proof. destruct title; [done|]. reflexivity. Qed.

Lemma Forall_delete_chars (P : ascii -> Prop) d x :
  Forall P x -> Forall P (delete_chars d x).
Proof.
  unfold delete_chars.
  induction 1 as [|c x Hc Hx IH]; simpl; [constructor|].
  destruct (negb _); [by constructor | done].
Qed.

Lemma delete_chars_absent d x :
  Forall (fun c => existsb (char_eqb c) d = false) (delete_chars d x).
Proof.
  unfold delete_chars.
  induction x as [|c x IH]; simpl; [constructor|].
  destruct (existsb (char_eqb c) d) eqn:E; simpl; [done | by constructor].
Qed.

Lemma delete_chars_fixed d x :
  Forall (fun c => existsb (char_eqb c) d = false) x -> delete_chars d x = x.
Proof.
  unfold delete_chars.
  induction 1 as [|c x Hc Hx IH]; [done|].
  simpl. rewrite Hc. simpl. by f_equal.
Qed.

Lemma lower_fixed x : Forall lowered x -> lower x = x.
Proof.
  induction 1 as [|c x Hc Hx IH]; [done|]. simpl. by rewrite Hc, IH.
Qed.

Lemma collapsed_canonical title : canonical (collapsed title).
Proof.
  unfold collapsed. split.
  - eexists. split; [done | apply split_words].
  - apply Forall_join; [done|]. apply split_from_Forall; [constructor|].
    apply Forall_delete_chars, Forall_strip. unfold lower.
    apply Forall_map, Forall_forall. intros c _. apply char_lower_idem.
  - apply Forall_join; [done|]. apply split_from_Forall; [constructor|].
    apply delete_chars_absent.
Qed.

Lemma collapsed_fixed z : canonical z -> collapsed z = z.
Proof.
  intros [(ws & -> & Hws) Hl Hk]. unfold collapsed.
  rewrite lower_fixed, strip_join, delete_chars_fixed, split_join; done.
Qed.

Lemma collapse_sp_cons c q :
  isspace c = false ->
  replace_from dsp sp 0 (" "%char :: c :: q) = " "%char :: c :: replace_from dsp sp 0 q.
Proof.
  intros H. apply (replace_from_split dsp sp [" "%char] c q); [done|].
  by apply nospace_not_dsp.
Qed.

Lemma collapse_around a b :
  replace_from dsp sp 0 (a ++ pattern_le ++ b)
  = replace_from dsp sp 0 a ++ pattern_le ++ replace_from dsp sp 0 b.
Proof.
  unfold pattern_le, s. cbn [list_ascii_of_string app].
  rewrite replace_from_split; [|done|by apply nospace_not_dsp].
  repeat (rewrite collapse_cons by reflexivity
          || rewrite collapse_sp_cons by reflexivity).
  done.
Qed.

Lemma normalize_without_pattern title :
  contains pattern_l (_normalize_title title) = false ->
  _normalize_title title = collapsed title.
Proof.
  destruct title as [|c t]; [done|]. set (x := c :: t).
  rewrite normalize_unfold by done. intros H.
  destruct (collapsed_canonical x) as [(ws & Hz & Hws) _ _].
  destruct (contains pattern_l (collapsed x)) eqn:E.
  - apply (replace_from_present pattern_l pattern_le) in E; [|done].
    apply contains_spec in E as (a & b & E). rewrite E, collapse_around in H.
    assert (contains pattern_l
              (replace_from dsp sp 0 a ++ pattern_le ++ replace_from dsp sp 0 b) = true)
      as H'; [|congruence].
    apply contains_spec. exists (replace_from dsp sp 0 a), (s "e" ++ replace_from dsp sp 0 b).
    done.
  - rewrite (replace_from_absent pattern_l) by done. rewrite Hz. by apply collapse_join.
Qed.

(** *** The substitution on collapsed titles *)

Lemma Forall_replace_from (P : ascii -> Prop) old new x :
  Forall P new -> Forall P x -> forall k, Forall P (replace_from old new k x).
Proof.
  intros Hnew. induction 1 as [|c x Hc Hx IH]; intros k; simpl; [constructor|].
  destruct k; [|done]. destruct (startswith old (c :: x)).
  - apply Forall_app. by split.
  - by constructor.
Qed.

Lemma length_replace_from old new :
  old <> [] -> length old <= length new ->
  forall n x, length x = n ->
  length x <= length (replace_from old new 0 x)
  /\ (contains old x = true -> length old < length new ->
      length x < length (replace_from old new 0 x)).
Proof.
  intros Hold Hlen n. induction n as [n IH] using lt_wf_ind. intros x Hn.
  destruct x as [|c x].
  - simpl. split; [lia|]. rewrite orb_false_r. destruct old; done.
  - destruct (startswith old (c :: x)) eqn:Hs.
    + rewrite replace_from_hit by done.
      pose proof Hs as Hs'. apply startswith_spec in Hs' as [r Hr].
      rewrite Hr, drop_app_length. rewrite Hr, length_app in Hn.
      destruct (IH (length r)) with (x := r) as [IH1 _]; [|done|].
      { destruct old; [done|]. simpl in Hn. lia. }
      rewrite !length_app. split; [lia|]. intros _ Hlt. lia.
    + rewrite replace_from_miss by done. simpl in Hn.
      destruct (IH (length x)) with (x := x) as [IH1 IH2]; [lia | done |].
      simpl length. split; [lia|]. intros Hc Hlt.
      simpl in Hc, Hs. rewrite Hs in Hc. specialize (IH2 Hc Hlt). lia.
Qed.

Lemma spaced_from_pattern b z :
  spaced_from b (pattern_l ++ z) = spaced_from false z.
Proof. reflexivity. Qed.

Lemma spaced_from_pattern_le b z :
  spaced_from b (pattern_le ++ z) = spaced_from false z.
Proof. reflexivity. Qed.

Lemma spaced_from_replace z : forall b,
  spaced_from b (replace_from pattern_l pattern_le 0 z) = spaced_from b z.
Proof.
  remember (length z) as n eqn:Hn. revert z Hn.
  induction n as [n IH] using lt_wf_ind. intros z Hn b.
  destruct z as [|c z]; [done|].
  destruct (startswith pattern_l (c :: z)) eqn:Hs.
  - rewrite replace_from_hit by done.
    apply startswith_spec in Hs as [r Hr]. rewrite Hr, drop_app_length.
    rewrite spaced_from_pattern, spaced_from_pattern_le.
    apply (IH (length r)); [|done]. rewrite Hn, Hr, length_app. simpl. lia.
  - rewrite replace_from_miss by done. simpl in Hn. cbn [spaced_from].
    by rewrite !(IH (length z)) by (lia || done).
Qed.

Lemma spaced_from_word w : forall b z,
  nospace w -> w <> [] -> spaced_from b (w ++ z) = spaced_from false z.
Proof.
  induction w as [|c w IH]; intros b z Hw Hne; [done|].
  apply Forall_cons_1 in Hw as [Hc Hw]. simpl. rewrite Hc.
  destruct w as [|c' w]; [done|]. by apply IH.
Qed.

Lemma spaced_from_join ws :
  Forall word ws -> ws <> [] -> spaced_from true (join sp ws) = true.
Proof.
  induction 1 as [|w ws [Hne Hw] Hws IH]; [done|]. intros _.
  destruct ws as [|w' ws].
  - simpl. rewrite <- (app_nil_r w). by rewrite spaced_from_word.
  - change (join sp (w :: w' :: ws)) with (w ++ " "%char :: join sp (w' :: ws)).
    rewrite spaced_from_word by done. simpl. by apply IH.
Qed.

Lemma join_split_spaced z : forall w,
  Forall plain_space z -> nospace w ->
  spaced_from (match w with [] => true | _ => false end) z = true ->
  join sp (split_from w z) = w ++ z.
Proof.
  induction z as [|c z IH]; intros w Hz Hw Hs; simpl.
  - destruct w; [done|]. by rewrite app_nil_r.
  - apply Forall_cons_1 in Hz as [Hc Hz]. simpl in Hs.
    destruct (isspace c) eqn:Ec.
    + pose proof (Hc Ec) as ->. destruct w as [|a w]; [done|]. simpl in Hs.
      specialize (IH [] Hz (List.Forall_nil _) Hs). simpl in IH.
      destruct (split_from [] z) as [|w' ws] eqn:E.
      * simpl in IH. subst z. done.
      * change (join sp ((a :: w) :: w' :: ws))
          with ((a :: w) ++ " "%char :: join sp (w' :: ws)).
        by rewrite IH.
    + rewrite (IH (w ++ [c])); [by rewrite <- app_assoc | done | |].
      * apply Forall_app. split; [done | by constructor].
      * by destruct w.
Qed.

Lemma canonical_replace z :
  canonical z -> canonical (replace_from pattern_l pattern_le 0 z).
Proof.
  intros [(ws & -> & Hws) Hl Hk].
  set (y := replace_from pattern_l pattern_le 0 (join sp ws)).
  assert (Forall lowered y) as Hyl by (apply Forall_replace_from; [by repeat constructor | done]).
  assert (Forall kept y) as Hyk by (apply Forall_replace_from; [by repeat constructor | done]).
  split; [|done..].
  destruct ws as [|w ws]; [by exists []|].
  exists (split y). split; [|apply split_words].
  symmetry. apply (join_split_spaced y []); [|constructor|].
  - apply Forall_replace_from.
    + repeat constructor; intros H; try discriminate H; done.
    + apply Forall_join; [done|]. eapply Forall_impl; [exact Hws|].
      intros w' [_ Hw']. eapply Forall_impl; [exact Hw'|].
      intros c Hc Hc'. cbv beta in Hc. congruence.
  - unfold y. rewrite spaced_from_replace. by apply spaced_from_join.
Qed.

Lemma normalize_canonical z :
  canonical z ->
  _normalize_title z = replace_from pattern_l pattern_le 0 z
  /\ canonical (_normalize_title z).
Proof.
  intros Hz. destruct z as [|c z]; [split; [reflexivity | exact Hz]|].
  rewrite normalize_unfold by done. rewrite (collapsed_fixed _ Hz).
  pose proof (canonical_replace _ Hz) as Hy.
  destruct (can_words _ Hy) as (ws & E & Hws).
  assert (replace_from dsp sp 0 (replace_from pattern_l pattern_le 0 (c :: z))
          = replace_from pattern_l pattern_le 0 (c :: z)) as ->.
  { rewrite E. by apply collapse_join. }
  by split.
Qed.

(** ** Regular expressions: what a match is *)

Section MatcherFacts.
Context {A : Type}.
Implicit Types (k : str -> caps -> option A).

Lemma re_star_sound p x (k : str -> option A) v :
  re_star p x k = Some v ->
  exists u x', x = u ++ x' /\ Forall (fun c => p c = true) u /\ k x' = Some v.
Proof.
  induction x as [|c x IH]; simpl; intros H.
  - by exists [], [].
  - destruct (p c) eqn:Hc; [|by exists [], (c :: x)].
    destruct (re_star p x k) as [v'|] eqn:E; [|by exists [], (c :: x)].
    injection H as ->. destruct (IH eq_refl) as (u & x' & -> & Hu & Hk).
    exists (c :: u), x'. split; [done|]. split; [by constructor | done].
Qed.

Lemma re_star_complete p u x' (k : str -> option A) :
  Forall (fun c => p c = true) u -> k x' <> None ->
  re_star p (u ++ x') k <> None.
Proof.
  intros Hu Hk. induction Hu as [|c u Hc Hu IH]; simpl.
  - destruct x' as [|c x']; [done|]. simpl.
    destruct (p c); [|done]. by destruct (re_star p x' k).
  - rewrite Hc. by destruct (re_star p (u ++ x') k).
Qed.
End MatcherFacts.

Lemma re_match_sound (r : regex) : forall (A : Type) x g (k : str -> caps -> option A) v,
  re_match r x g k = Some v ->
  exists u x' g', x = u ++ x' /\ matches r u g g' /\ k x' g' = Some v.
Proof.
  induction r as [|p|a IHa b IHb|a IHa b IHb|a IHa|p|p|n a IHa];
    intros A x g k v H; simpl in H.
  - exists [], x, g. split; [done|]. split; [constructor | done].
  - destruct x as [|c x]; [done|]. destruct (p c) eqn:Hc; [|done].
    exists [c], x, g. split; [done|]. split; [by constructor | done].
  - apply IHa in H as (u & x1 & g1 & -> & Ha & H).
    apply IHb in H as (w & x2 & g2 & -> & Hb & H).
    exists (u ++ w), x2, g2. rewrite <- app_assoc.
    split; [done|]. split; [by econstructor | done].
  - destruct (re_match a x g k) as [v'|] eqn:E.
    + injection H as ->. apply IHa in E as (u & x' & g' & -> & Ha & H).
      exists u, x', g'. split; [done|]. split; [by apply matches_alt_l | done].
    + apply IHb in H as (u & x' & g' & -> & Hb & H).
      exists u, x', g'. split; [done|]. split; [by apply matches_alt_r | done].
  - destruct (re_match a x g k) as [v'|] eqn:E.
    + injection H as ->. apply IHa in E as (u & x' & g' & -> & Ha & H).
      exists u, x', g'. split; [done|]. split; [by apply matches_opt_some | done].
    + exists [], x, g. split; [done|]. split; [apply matches_opt_none | done].
  - apply re_star_sound in H as (u & x' & -> & Hu & H).
    exists u, x', g. split; [done|]. split; [by constructor | done].
  - destruct x as [|c x]; [done|]. destruct (p c) eqn:Hc; [|done].
    apply re_star_sound in H as (u & x' & -> & Hu & H).
    exists (c :: u), x', g. split; [done|].
    split; [by constructor; [|constructor] | done].
  - apply IHa in H as (u & x' & g' & -> & Ha & H).
    exists u, x', ((n, u) :: g'). split; [done|]. split; [by constructor|].
    rewrite length_app, Nat.add_sub, take_app_length in H. done.
Qed.

Lemma re_match_complete r u g g' :
  matches r u g g' ->
  forall (A : Type) x' (k : str -> caps -> option A),
    k x' g' <> None -> re_match r (u ++ x') g k <> None.
Proof.
  induction 1 as [g|p c g Hc|a b u w g g' g'' Ha IHa Hb IHb|a b u g g' Ha IHa
                 |a b u g g' Hb IHb|a u g g' Ha IHa|a g|p u g Hu|p u g Hne Hu
                 |n a u g g' Ha IHa]; intros A x' k Hk; simpl.
  - done.
  - by rewrite Hc.
  - rewrite <- app_assoc. apply IHa. by apply IHb.
  - specialize (IHa A x' k Hk). by destruct (re_match a (u ++ x') g k).
  - specialize (IHb A x' k Hk). by destruct (re_match a (u ++ x') g k).
  - specialize (IHa A x' k Hk). by destruct (re_match a (u ++ x') g k).
  - by destruct (re_match a x' g k).
  - by apply re_star_complete.
  - destruct Hu as [|c u Hc Hu]; [done|]. simpl. rewrite Hc.
    by apply re_star_complete.
  - apply IHa. by rewrite length_app, Nat.add_sub, take_app_length.
Qed.

(** [search] finds a match exactly when some part of the text has one. *)
Lemma search_sound r x g :
  search r x = Some g ->
  exists pre u post, x = pre ++ u ++ post /\ matches r u [] g.
Proof.
  induction x as [|c x IH]; simpl.
  - destruct (re_match r [] [] _) as [g0|] eqn:E; [|done].
    intros [= ->]. apply re_match_sound in E as (u & x' & g' & Hx & Hm & [= ->]).
    by exists [], u, x'.
  - destruct (re_match r (c :: x) [] _) as [g0|] eqn:E.
    + intros [= ->]. apply re_match_sound in E as (u & x' & g' & Hx & Hm & [= ->]).
      by exists [], u, x'.
    + intros H. destruct (IH H) as (pre & u & post & -> & Hm).
      by exists (c :: pre), u, post.
Qed.

Lemma search_complete r pre u post g :
  matches r u [] g -> search r (pre ++ u ++ post) <> None.
Proof.
  intros Hm.
  assert (re_match r (u ++ post) [] (fun _ g => Some g) <> None) as H.
  { by eapply re_match_complete. }
  induction pre as [|c pre IH]; simpl.
  - destruct (u ++ post); simpl in *; by destruct (re_match r _ [] _).
  - by destruct (re_match r (c :: pre ++ u ++ post) [] _).
Qed.

(** Inversion of [matches], one lemma per construct. *)
Lemma matches_eps_inv u g g' : matches Eps u g g' -> u = [] /\ g' = g.
Proof. by inversion 1. Qed.

Lemma matches_chr_inv p u g g' :
  matches (Chr p) u g g' -> exists c, u = [c] /\ p c = true /\ g' = g.
Proof. inversion 1; subst. eauto. Qed.

Lemma matches_seq_inv a b u g g'' :
  matches (Seq a b) u g g'' ->
  exists v w g', u = v ++ w /\ matches a v g g' /\ matches b w g' g''.
Proof. inversion 1; subst. eauto 7. Qed.

Lemma matches_alt_inv a b u g g' :
  matches (Alt a b) u g g' -> matches a u g g' \/ matches b u g g'.
Proof. inversion 1; subst; eauto. Qed.

Lemma matches_opt_inv a u g g' :
  matches (Opt a) u g g' -> matches a u g g' \/ (u = [] /\ g' = g).
Proof. inversion 1; subst; eauto. Qed.

Lemma matches_star_inv p u g g' :
  matches (Star p) u g g' -> Forall (fun c => p c = true) u /\ g' = g.
Proof. by inversion 1. Qed.

Lemma matches_plus_inv p u g g' :
  matches (Plus p) u g g' -> u <> [] /\ Forall (fun c => p c = true) u /\ g' = g.
Proof. by inversion 1. Qed.

Lemma matches_group_inv n a u g g'' :
  matches (Group n a) u g g'' ->
  exists g', matches a u g g' /\ g'' = (n, u) :: g'.
Proof. inversion 1; subst. eauto. Qed.

Ltac invert_matches :=
  repeat match goal with
  | H : matches Eps _ _ _ |- _ => apply matches_eps_inv in H as [? ?]; subst
  | H : matches (Chr _) _ _ _ |- _ =>
      apply matches_chr_inv in H as (? & ? & ? & ?); subst
  | H : matches (Seq _ _) _ _ _ |- _ =>
      apply matches_seq_inv in H as (? & ? & ? & ? & ? & ?); subst
  | H : matches (Group _ _) _ _ _ |- _ =>
      apply matches_group_inv in H as (? & ? & ?); subst
  | H : matches (Star _) _ _ _ |- _ => apply matches_star_inv in H as [? ?]; subst
  | H : matches (Plus _) _ _ _ |- _ =>
      apply matches_plus_inv in H as (? & ? & ?); subst
  end.

(** ** Dates *)

Lemma matches_digit_1_2 u g g' :
  matches digit_1_2 u g g' <-> day_or_month u /\ g' = g.
Proof.
  unfold digit_1_2, digit, day_or_month, all_digits. split.
  - intros H. invert_matches.
    match goal with H : matches (Opt _) _ _ _ |- _ =>
      apply matches_opt_inv in H as [H | [-> ->]] end.
    + invert_matches. split; [|done]. split; [by right | by repeat constructor].
    + split; [|done]. split; [by left | by repeat constructor].
  - intros [[Hlen Hd] ->]. destruct u as [|a [|b [|c u]]]; simpl in Hlen; try lia.
    + apply Forall_cons_1 in Hd as [Ha _].
      change [a] with ([a] ++ []). eapply matches_seq; [by constructor|].
      apply matches_opt_none.
    + apply Forall_cons_1 in Hd as [Ha Hd]. apply Forall_cons_1 in Hd as [Hb _].
      change [a; b] with ([a] ++ [b]).
      eapply matches_seq; [by constructor|]. by apply matches_opt_some, matches_chr.
Qed.

Lemma matches_digit_4 u g g' :
  matches digit_4 u g g' <-> four_digits u /\ g' = g.
Proof.
  unfold digit_4, digit, four_digits, all_digits. split.
  - intros H. invert_matches. split; [|done]. split; [done | by repeat constructor].
  - intros [[Hlen Hd] ->].
    destruct u as [|a [|b [|c [|d [|e u]]]]]; simpl in Hlen; try lia.
    apply Forall_cons_1 in Hd as [Ha Hd]. apply Forall_cons_1 in Hd as [Hb Hd].
    apply Forall_cons_1 in Hd as [Hc Hd]. apply Forall_cons_1 in Hd as [Hd _].
    change [a; b; c; d] with ([a] ++ [b] ++ [c] ++ [d]).
    repeat (eapply matches_seq; [by constructor|]). by constructor.
Qed.

Lemma matches_date_pattern sep u g g' :
  matches (date_pattern sep) u g g' <->
  exists d m y, day_or_month d /\ day_or_month m /\ four_digits y /\
    u = d ++ sep :: m ++ sep :: y /\ g' = (3, y) :: (2, m) :: (1, d) :: g.
Proof.
  unfold date_pattern. split.
  - intros H. invert_matches.
    repeat match goal with
    | H : matches digit_1_2 _ _ _ |- _ => apply matches_digit_1_2 in H as [? ->]
    | H : matches digit_4 _ _ _ |- _ => apply matches_digit_4 in H as [? ->]
    | H : char_eqb _ _ = true |- _ => apply char_eqb_eq in H as <-
    end.
    refine (ex_intro _ _ (ex_intro _ _ (ex_intro _ _
      (conj _ (conj _ (conj _ (conj eq_refl eq_refl))))))); assumption.
  - intros (d & m & y & Hd & Hm & Hy & -> & ->).
    change (d ++ sep :: m ++ sep :: y) with (d ++ [sep] ++ m ++ [sep] ++ y).
    eapply matches_seq; [constructor; by apply matches_digit_1_2|].
    eapply matches_seq; [constructor; apply char_eqb_refl|].
    eapply matches_seq; [constructor; by apply matches_digit_1_2|].
    eapply matches_seq; [constructor; apply char_eqb_refl|].
    constructor. by apply matches_digit_4.
Qed.

(** What [re.search] with a date pattern returns. *)
Lemma search_date_pattern sep text :
  match search (date_pattern sep) text with
  | Some g => exists d m y, has_date sep text d m y /\
      group 1 g = d /\ group 2 g = m /\ group 3 g = y
  | None => forall d m y, ~ has_date sep text d m y
  end.
Proof.
  destruct (search (date_pattern sep) text) as [g|] eqn:E.
  - apply search_sound in E as (pre & u & post & -> & Hm).
    apply matches_date_pattern in Hm as (d & m & y & Hd & Hm & Hy & -> & ->).
    exists d, m, y. split; [|done]. repeat (split; [done|]). by exists pre, post.
  - intros d m y (Hd & Hm & Hy & pre & post & ->).
    eapply search_complete; [|exact E].
    apply matches_date_pattern. by exists d, m, y.
Qed.

Lemma matches_lit l : forall u g g', matches (lit l) u g g' -> u = l /\ g' = g.
Proof.
  induction l as [|c l IH]; intros u g g' H; simpl in H.
  - by apply matches_eps_inv in H.
  - apply matches_seq_inv in H as (v & w & g1 & -> & Hv & Hw).
    apply matches_chr_inv in Hv as (c' & -> & Hc & ->).
    apply IH in Hw as [-> ->]. by apply char_eqb_eq in Hc as ->.
Qed.

(** The third pattern of [extract_date_from_text] only matches where the
    first one does. *)
Lemma search_poste_le text :
  (forall d m y, ~ has_date "/" text d m y) ->
  search (Seq (lit poste_le) (date_pattern "/")) text = None.
Proof.
  intros Hno. destruct (search _ text) as [g|] eqn:E; [|done].
  apply search_sound in E as (pre & u & post & -> & Hm).
  apply matches_seq_inv in Hm as (v & w & g1 & -> & Hv & Hw).
  apply matches_lit in Hv as [-> ->].
  apply matches_date_pattern in Hw as (d & m & y & Hd & Hm & Hy & -> & ->).
  destruct (Hno d m y). repeat (split; [done|]).
  exists (pre ++ poste_le), post. by rewrite <- !app_assoc.
Qed.

(** ** Properties of the title normaliser *)

(** The normaliser is not idempotent: the substitution of "rapport sur l"
    applies again to its own result. *)
Lemma normalize_title_not_idempotent :
  _normalize_title (_normalize_title (s "rapport sur l"))
  <> _normalize_title (s "rapport sur l").
Proof. vm_compute. discriminate. Qed.

(** C6 (amended): on every title whose normalised form does not contain
    "rapport sur l", normalising a second time changes nothing. *)
Theorem normalize_title_idempotent_without_pattern (title : str) :
  contains (s "rapport sur l") (_normalize_title title) = false ->
  _normalize_title (_normalize_title title) = _normalize_title title.
Proof.
  intros H. pose proof (normalize_without_pattern title H) as Hz.
  rewrite Hz in *. pose proof (collapsed_canonical title) as Hc.
  destruct (collapsed title) as [|c z] eqn:E; [done|]. rewrite <- E in *.
  rewrite normalize_unfold by (rewrite E; done).
  rewrite (collapsed_fixed _ Hc).
  rewrite (replace_from_absent pattern_l) by done.
  destruct Hc as [(ws & -> & Hws) _ _]. by apply collapse_join.
Qed.

Lemma normalize_title_idempotent_witness :
  contains (s "rapport sur l") (_normalize_title (s "  Charte de  Gouvernance, 2024! ")) = false
  /\ _normalize_title (_normalize_title (s "  Charte de  Gouvernance, 2024! "))
     = _normalize_title (s "  Charte de  Gouvernance, 2024! ").
Proof.
  split; [reflexivity|].
  apply (normalize_title_idempotent_without_pattern
           (s "  Charte de  Gouvernance, 2024! ")).
  reflexivity.
Defined.

(** On the other titles the second application adds a letter. *)
Lemma normalize_title_changes_with_pattern title :
  contains pattern_l (_normalize_title title) = true ->
  _normalize_title (_normalize_title title) <> _normalize_title title.
Proof.
  destruct title as [|c t]; [done|]. set (x := c :: t).
  assert (_normalize_title x = _normalize_title (collapsed x)) as E.
  { rewrite normalize_unfold by done.
    destruct (collapsed x) as [|c' z'] eqn:Ez; [done|].
    rewrite normalize_unfold by done. rewrite <- Ez.
    by rewrite (collapsed_fixed _ (collapsed_canonical x)). }
  destruct (normalize_canonical _ (collapsed_canonical x)) as [E1 Hy].
  rewrite <- E in E1, Hy. clear E.
  set (y := _normalize_title x) in *. intros Hp.
  destruct (normalize_canonical _ Hy) as [E2 _]. rewrite E2. intros Heq.
  destruct (length_replace_from pattern_l pattern_le) with (n := length y) (x := y)
    as [_ Hlt]; [done | simpl; lia | done |].
  specialize (Hlt Hp). rewrite Heq in Hlt. simpl in Hlt. lia.
Qed.

(** ** Properties of the field extractors *)

(** C8: [extract_date_from_text] on every text.  When the text contains a
    date written with slashes, the result is such a date; otherwise, when
    it contains a date written with hyphens, the result is such a date
    rendered with slashes; otherwise there is no result.  The pattern with
    the prefix [Posté le] never decides, and the two examples hold. *)
Theorem extract_date_from_text_spec :
  (forall text : str,
     (exists d m y, has_date "/" text d m y /\
        extract_date_from_text text = Some (slashed d m y))
     \/ ((forall d m y, ~ has_date "/" text d m y) /\
         exists d m y, has_date "-" text d m y /\
           extract_date_from_text text = Some (slashed d m y))
     \/ ((forall d m y, ~ has_date "/" text d m y) /\
         (forall d m y, ~ has_date "-" text d m y) /\
         extract_date_from_text text = None))
  /\ extract_date_from_text (poste_le ++ s "26/06/2025") = Some (s "26/06/2025")
  /\ extract_date_from_text (s "26-06-2025") = Some (s "26/06/2025").
Proof.
  split; [|split; reflexivity].
  intros text.
  assert (extract_date_from_text text = first_date date_patterns text) as ->.
  { by destruct text. }
  unfold date_patterns, first_date.
  pose proof (search_date_pattern "/" text) as Hslash.
  pose proof (search_date_pattern "-" text) as Hhyphen.
  destruct (search (date_pattern "/") text) as [g|].
  - left. destruct Hslash as (d & m & y & Hd & <- & <- & <-).
    by exists (group 1 g), (group 2 g), (group 3 g).
  - right. destruct (search (date_pattern "-") text) as [g|].
    + left. split; [done|].
      destruct Hhyphen as (d & m & y & Hd & <- & <- & <-).
      by exists (group 1 g), (group 2 g), (group 3 g).
    + right. by rewrite search_poste_le.
Qed.

Lemma matches_groupless r u g g' :
  matches r u g g' -> groupless r = true ->
  g' = g /\ forall h, matches r u h h.
Proof.
  induction 1 as [g|p c g Hc|a b u w g g' g'' Ha IHa Hb IHb|a b u g g' Ha IHa
                 |a b u g g' Hb IHb|a u g g' Ha IHa|a g|p u g Hu|p u g Hne Hu
                 |n a u g g' Ha IHa]; simpl; intros Hg.
  - split; [done | constructor].
  - split; [done | by constructor].
  - apply andb_true_iff in Hg as [Hga Hgb].
    destruct (IHa Hga) as [-> Ha'], (IHb Hgb) as [-> Hb'].
    split; [done|]. intros h. by eapply matches_seq.
  - apply andb_true_iff in Hg as [Hga _]. destruct (IHa Hga) as [-> Ha'].
    split; [done|]. intros h. by apply matches_alt_l.
  - apply andb_true_iff in Hg as [_ Hgb]. destruct (IHb Hgb) as [-> Hb'].
    split; [done|]. intros h. by apply matches_alt_r.
  - destruct (IHa Hg) as [-> Ha']. split; [done|]. intros h. by apply matches_opt_some.
  - split; [done|]. intros h. apply matches_opt_none.
  - split; [done|]. intros h. by constructor.
  - split; [done|]. intros h. by constructor.
  - done.
Qed.

(** The texts matched by a size pattern: digits, possibly the decimal mark
    and digits, white space, a unit. *)
Lemma matches_size_pattern mark u g :
  matches (size_pattern mark) u [] g ->
  exists n frac ws unit,
    u = (n ++ frac) ++ ws ++ unit /\ n <> [] /\ all_digits n
    /\ (frac = [] \/ exists f, frac = mark :: f /\ f <> [] /\ all_digits f)
    /\ Forall (fun c => isspace c = true) ws
    /\ (forall h, matches unit_re unit h h)
    /\ g = [(2, unit); (1, n ++ frac)].
Proof.
  unfold size_pattern. intros Hm.
  apply matches_seq_inv in Hm as (v1 & v2 & g1 & -> & Hnum & Hrest).
  apply matches_group_inv in Hnum as (g0 & Hnum & ->).
  apply matches_seq_inv in Hnum as (n & frac & g2 & -> & Hn & Hfrac).
  apply matches_plus_inv in Hn as (Hne & Hd & ->).
  apply matches_seq_inv in Hrest as (ws & unit & g3 & -> & Hws & Hun).
  apply matches_star_inv in Hws as (Hws & ->).
  apply matches_group_inv in Hun as (g4 & Hun & ->).
  apply matches_groupless in Hun as [-> Hunit]; [|reflexivity].
  exists n, frac, ws, unit.
  apply matches_opt_inv in Hfrac as [Hfrac | [-> ->]].
  - apply matches_seq_inv in Hfrac as (c & f & g5 & -> & Hc & Hf).
    apply matches_chr_inv in Hc as (c' & -> & Hc & ->).
    apply matches_plus_inv in Hf as (Hfne & Hfd & ->).
    apply char_eqb_eq in Hc as <-. repeat (split; [done|]).
    split; [|done]. right. by exists f.
  - repeat (split; [done|]). split; [by left | done].
Qed.

Lemma matches_size_pattern_whole mark n ws unit :
  n <> [] -> all_digits n -> Forall (fun c => isspace c = true) ws ->
  (forall h, matches unit_re unit h h) ->
  matches (size_pattern mark) (n ++ ws ++ unit) [] [(2, unit); (1, n)].
Proof.
  intros Hne Hn Hws Hunit. unfold size_pattern. eapply matches_seq.
  - constructor. rewrite <- (app_nil_r n) at 1.
    eapply matches_seq; [by constructor | apply matches_opt_none].
  - eapply matches_seq; [by constructor|]. constructor. apply Hunit.
Qed.

(** Where the size pattern with the comma matches, the one with the
    period matches the end of the same text: the second pattern of
    [extract_file_size] is never used. *)
Lemma size_pattern_comma_shadowed text :
  search (size_pattern ".") text = None -> search (size_pattern ",") text = None.
Proof.
  intros Hnone. destruct (search (size_pattern ",") text) as [g|] eqn:E; [|done].
  exfalso. apply search_sound in E as (pre & u & post & -> & Hm).
  apply matches_size_pattern in Hm
    as (n & frac & ws & unit & -> & Hne & Hn & Hfrac & Hws & Hunit & _).
  destruct Hfrac as [-> | (f & -> & Hfne & Hf)].
  - rewrite app_nil_r in Hnone.
    apply (search_complete (size_pattern ".") pre (n ++ ws ++ unit) post
             [(2, unit); (1, n)]); [|done].
    by apply matches_size_pattern_whole.
  - apply (search_complete (size_pattern ".") (pre ++ n ++ [","%char])
             (f ++ ws ++ unit) post [(2, unit); (1, f)]).
    + by apply matches_size_pattern_whole.
    + rewrite <- Hnone. f_equal. by rewrite <- !app_assoc.
Qed.

Lemma matches_lit_i l : forall u g g',
  matches (lit_i l) u g g' -> lower u = lower l /\ g' = g.
Proof.
  induction l as [|c l IH]; intros u g g' H; simpl in H.
  - by apply matches_eps_inv in H as [-> ->].
  - apply matches_seq_inv in H as (v & w & g1 & -> & Hv & Hw).
    apply matches_chr_inv in Hv as (c' & -> & Hc & ->).
    apply IH in Hw as [Hw ->]. apply char_eqb_eq in Hc.
    simpl. by rewrite Hw, Hc.
Qed.

Lemma matches_unit_re unit g g' :
  matches unit_re unit g g' -> In (lower unit) (map lower size_units).
Proof.
  unfold unit_re, size_units. cbn [map alts]. intros H.
  repeat (apply matches_alt_inv in H as [H | H];
          [apply matches_lit_i in H as [-> _]; simpl; tauto|]).
  apply matches_lit_i in H as [-> _]. simpl. tauto.
Qed.

(** No result of [extract_file_size] has a comma in it: a number written
    with a decimal comma is never returned whole. *)
Lemma extract_file_size_no_comma text r :
  extract_file_size text = Some r -> ~ In ","%char r.
Proof.
  assert (forall d, all_digits d -> ~ In ","%char d) as Hdigits.
  { intros d Hd Hin. unfold all_digits in Hd. rewrite Forall_forall in Hd.
    apply list_elem_of_In, Hd in Hin. discriminate Hin. }
  unfold extract_file_size. destruct text as [|c text]; [done|].
  unfold size_patterns, first_size.
  destruct (search (size_pattern ".") (c :: text)) as [g|] eqn:E.
  - intros [= <-]. apply search_sound in E as (pre & u & post & _ & Hm).
    apply matches_size_pattern in Hm
      as (n & frac & ws & unit & _ & _ & Hn & Hfrac & _ & Hunit & ->).
    cbn [group Nat.eqb]. rewrite !in_app_iff. cbn [s list_ascii_of_string In].
    intros [[Hin | Hin] | [Hin | Hin]].
    + by apply (Hdigits n).
    + destruct Hfrac as [-> | (f & -> & _ & Hf)]; [done|].
      destruct Hin as [Hin | Hin]; [discriminate | by apply (Hdigits f)].
    + discriminate.
    + apply (in_map char_lower) in Hin.
      pose proof (matches_unit_re unit [] [] (Hunit [])) as Hu.
      unfold lower in Hu. simpl in Hu.
      repeat destruct Hu as [Hu | Hu]; try done;
        rewrite <- Hu in Hin; simpl in Hin;
        repeat destruct Hin as [Hin | Hin]; try done; discriminate.
  - by rewrite size_pattern_comma_shadowed.
Qed.

(** C7: the text "1,5 Mo".  The pattern with the period is searched first
    over the whole text and finds "5 Mo", so the pattern with the comma is
    not tried and the integer part is lost.  The two examples of the
    specification are as it says. *)
Theorem extract_file_size_comma_decimal :
  extract_file_size (s "1,5 Mo") = Some (s "5 Mo")
  /\ extract_file_size (s "Fichier 6.92 Mo disponible") = Some (s "6.92 Mo")
  /\ extract_file_size (s "no size here") = None.
Proof. repeat split; reflexivity. Qed.

(** ** Properties of the page parser *)

Lemma search_pdf_re href g :
  search pdf_re href = Some g -> contains (s ".pdf") (lower href) = true.
Proof.
  intros H. apply search_sound in H as (pre & u & post & -> & Hm).
  unfold pdf_re in Hm. simpl in Hm. invert_matches.
  repeat match goal with
  | H : char_eqb _ _ = true |- _ => apply char_eqb_eq in H; subst
  | H : char_eqb_i _ _ = true |- _ => apply char_eqb_eq in H; simpl in H
  end.
  apply contains_spec. exists (lower pre), (lower post).
  unfold lower. rewrite !map_app. simpl. by repeat match goal with
  | H : _ = char_lower _ |- _ => rewrite <- H; clear H
  end.
Qed.

Section ParserFacts.

Variable urljoin : str -> str -> option str.
Variable BeautifulSoup : str -> node.


Lemma is_unique_true p urls titles :
  _is_unique_publication p urls titles = true <->
  download_url p <> [] /\ title p <> [] /\
  (download_url p ∉ urls) /\ (title_key p ∉ titles).
Proof.
  unfold _is_unique_publication, title_key.
  destruct (download_url p) as [|c u] eqn:Eu.
  { split; [discriminate | by intros [? _]]. }
  destruct (title p) as [|c' t'] eqn:Et.
  { split; [discriminate | by intros (_ & ? & _)]. }
  cbv zeta. repeat case_bool_decide; split; try discriminate; try done;
    intros (_ & _ & ? & ?); done.
Qed.

Lemma str_eqb_eq a : forall b, str_eqb a b = true <-> a = b.
Proof.
  induction a as [|x a IH]; intros [|y b]; simpl; try done.
  rewrite andb_true_iff, char_eqb_eq, IH. split; [by intros [-> ->] | by intros [= -> ->]].
Qed.

Lemma NoDup_map_snoc {A B} (f : A -> B) (l : list A) (x : A) :
  NoDup (map f l) -> ~ In (f x) (map f l) -> NoDup (map f (l ++ [x])).
Proof.
  intros Hl Hx. rewrite map_app. apply NoDup_app. split; [done|]. split.
  - intros b Hb Hb'. apply list_elem_of_In in Hb, Hb'.
    destruct Hb' as [<- | []]. done.
  - apply NoDup_singleton.
Qed.

Lemma In_map_snoc {A B} (f : A -> B) (l : list A) (x : A) (b : B) :
  In b (map f (l ++ [x])) <-> b = f x \/ In b (map f l).
Proof.
  rewrite map_app, in_app_iff. simpl. split.
  - intros [H | [H | []]]; auto.
  - intros [-> | H]; auto.
Qed.

Lemma consistent_initial : consistent initial_state.
Proof.
  split; simpl.
  - apply NoDup_nil_2.
  - apply NoDup_nil_2.
  - constructor.
  - intros u. split; [intros H; by apply not_elem_of_empty in H | intros []].
  - intros k. split; [intros H; by apply not_elem_of_empty in H | intros []].
Qed.

Lemma consistent_enter t st : consistent st -> consistent (enter t st).
Proof. by intros []. Qed.

Lemma consistent_consider st c : consistent st -> consistent (consider st c).
Proof.
  intros [Hu Ht Hn Hsu Hst]. destruct c as [p|]; [|done]. simpl.
  destruct (_is_unique_publication p _ _) eqn:E; [|done].
  apply is_unique_true in E as (Hpu & Hpt & Hnu & Hnt).
  split; simpl.
  - apply NoDup_map_snoc; [done|]. by rewrite <- Hsu.
  - apply NoDup_map_snoc; [done|]. by rewrite <- Hst.
  - apply Forall_app. split; [done|]. by repeat constructor.
  - intros u. rewrite In_map_snoc, <- Hsu, elem_of_union, elem_of_singleton. done.
  - intros k. rewrite In_map_snoc, <- Hst, elem_of_union, elem_of_singleton. done.
Qed.

Lemma consistent_fold cs : forall st,
  consistent st -> consistent (fold_left consider cs st).
Proof.
  induction cs as [|c cs IH]; intros st H; [done|].
  simpl. by apply IH, consistent_consider.
Qed.

Lemma consistent_sections_or_links soup : consistent (sections_or_links urljoin soup).
Proof.
  unfold sections_or_links. destruct (publication_sections soup) eqn:E.
  - apply consistent_fold. repeat apply consistent_enter. apply consistent_initial.
  - unfold section_tier. rewrite E.
    apply consistent_fold, consistent_enter, consistent_initial.
Qed.

Lemma consistent_parse_soup soup : consistent (parse_soup urljoin soup).
Proof.
  pose proof (consistent_sections_or_links soup) as H. unfold parse_soup.
  destruct (publications (sections_or_links urljoin soup)); [|done].
  by apply consistent_fold, consistent_enter.
Qed.

Lemma is_unique_acceptable st p :
  consistent st ->
  _is_unique_publication p (seen_urls st) (seen_titles st)
  = acceptable (publications st) p.
Proof.
  intros [_ _ _ Hsu Hst]. apply eq_true_iff_eq.
  rewrite is_unique_true. unfold acceptable.
  rewrite !andb_true_iff, !negb_true_iff, <- !not_true_iff_false.
  rewrite !str_eqb_eq, Hsu, Hst, existsb_exists, !in_map_iff.
  split.
  - intros (Hu & Ht & Hnu & Hnt). split; [done|].
    intros (q & Hq & [H | H]%orb_true_iff); apply str_eqb_eq in H; eauto.
  - intros [[Ht Hu] Hn]. repeat split; try done.
    + intros (q & Hq & Hin). apply Hn. exists q. split; [done|].
      apply orb_true_iff. left. by apply str_eqb_eq.
    + intros (q & Hq & Hin). apply Hn. exists q. split; [done|].
      apply orb_true_iff. right. by apply str_eqb_eq.
Qed.

Lemma publications_fold_first_seen cs : forall st,
  consistent st ->
  publications (fold_left consider cs st) = first_seen (publications st) cs.
Proof.
  induction cs as [|c cs IH]; intros st Hst; [done|].
  simpl fold_left. rewrite IH by (by apply consistent_consider).
  destruct c as [p|]; [|done]. simpl.
  rewrite (is_unique_acceptable st p Hst). by destruct (acceptable _ p).
Qed.

Lemma parse_soup_first_seen soup :
  publications (parse_soup urljoin soup)
  = match first_seen [] (first_candidates urljoin soup) with
    | [] => first_seen [] (map Some (alternative_parsing soup))
    | kept => kept
    end.
Proof.
  assert (publications (sections_or_links urljoin soup)
          = first_seen [] (first_candidates urljoin soup)) as E.
  { unfold sections_or_links, first_candidates.
    destruct (publication_sections soup) eqn:Es.
    - unfold link_tier. rewrite publications_fold_first_seen; [done|].
      repeat apply consistent_enter. apply consistent_initial.
    - unfold section_tier. rewrite Es, publications_fold_first_seen; [done|].
      apply consistent_enter, consistent_initial. }
  unfold parse_soup. rewrite <- E.
  destruct (publications (sections_or_links urljoin soup)) eqn:Ep; [|done].
  unfold known_tier. rewrite publications_fold_first_seen.
  - simpl. by rewrite Ep.
  - apply consistent_enter, consistent_sections_or_links.
Qed.

(** C1: in the list returned by [parse_publications] no two publications
    have the same URL, no two have the same normalised title, and none has
    an empty title or an empty URL; the list is what first-seen-wins keeps
    of the candidates, in their order. *)
Theorem parse_publications_unique (html_content : str) :
  NoDup (map download_url (parse_publications urljoin BeautifulSoup html_content))
  /\ NoDup (map (fun p => _normalize_title (title p))
              (parse_publications urljoin BeautifulSoup html_content))
  /\ Forall (fun p => title p <> [] /\ download_url p <> [])
       (parse_publications urljoin BeautifulSoup html_content)
  /\ parse_publications urljoin BeautifulSoup html_content
     = match first_seen [] (first_candidates urljoin (soup_of BeautifulSoup html_content)) with
       | [] => first_seen []
                 (map Some (alternative_parsing (soup_of BeautifulSoup html_content)))
       | kept => kept
       end.
Proof.
  destruct (consistent_parse_soup (soup_of BeautifulSoup html_content)) as [Hu Ht Hn _ _].
  repeat split; try done. apply parse_soup_first_seen.
Qed.

(** The ghost field is only changed by [enter]. *)
Lemma tiers_run_fold cs : forall st,
  tiers_run (fold_left consider cs st) = tiers_run st.
Proof.
  induction cs as [|c cs IH]; intros st; [done|]. simpl. rewrite IH.
  destruct c as [p|]; [|done]. simpl.
  by destruct (_is_unique_publication p _ _).
Qed.

(** The records of the first two strategies are those of the one that
    ran. *)
Lemma first_records_kept soup :
  first_records urljoin soup
  = match publication_sections soup with
    | [] => links_kept urljoin soup
    | _ => sections_kept urljoin soup
    end.
Proof.
  unfold first_records, sections_or_links, links_kept, sections_kept.
  destruct (publication_sections soup) eqn:Es.
  - unfold link_tier. rewrite publications_fold_first_seen; [done|].
    repeat apply consistent_enter. apply consistent_initial.
  - unfold section_tier. rewrite Es, publications_fold_first_seen; [done|].
    apply consistent_enter, consistent_initial.
Qed.

(** No known record is dropped as a duplicate of another one. *)
Lemma first_seen_known soup :
  first_seen [] (map Some (alternative_parsing soup)) = alternative_parsing soup.
Proof.
  unfold alternative_parsing, known_publications. cbn [List.filter].
  destruct (contains _ _); destruct (contains _ _); vm_compute; reflexivity.
Qed.

(** C2 (amended): the result of [parse_publications] comes from one
    strategy.  When the search for sections finds a section, the result is
    what first-seen-wins keeps of the records of the sections, and the PDF
    links are not used, even if the sections give no record; when it finds
    no section at all, the result is what first-seen-wins keeps of the
    records of the PDF links.  In both cases, when nothing is kept, the
    result is the list of the known records whose title occurs in the text
    of the page, and otherwise the known records are not used.  The
    strategies are entered in the order sections, links, known records:
    the links exactly when no section was found, the known records exactly
    when the first two strategies together have accepted no record. *)
Theorem parse_publications_tiers (html_content : str) :
  let soup := soup_of BeautifulSoup html_content in
  let run := tiers_run (parse_soup urljoin soup) in
  parse_publications urljoin BeautifulSoup html_content
  = match publication_sections soup with
    | [] =>
        match links_kept urljoin soup with
        | [] => alternative_parsing soup
        | kept => kept
        end
    | _ =>
        match sections_kept urljoin soup with
        | [] => alternative_parsing soup
        | kept => kept
        end
    end
  /\ first_records urljoin soup
     = match publication_sections soup with
       | [] => links_kept urljoin soup
       | _ => sections_kept urljoin soup
       end
  /\ run = [StructuredSections]
        ++ (match publication_sections soup with [] => [RawLinks] | _ => [] end)
        ++ (match first_records urljoin soup with [] => [KnownRecords] | _ => [] end)
  /\ (In RawLinks run <-> publication_sections soup = [])
  /\ (In KnownRecords run <-> first_records urljoin soup = []).
Proof.
  intros soup run.
  split.
  { unfold parse_publications, parse_soup. fold soup. cbv zeta.
    pose proof (first_records_kept soup) as Ef. unfold first_records in Ef.
    destruct (publications (sections_or_links urljoin soup)) as [|p kept] eqn:Ep.
    - unfold known_tier. rewrite publications_fold_first_seen
        by apply consistent_enter, consistent_sections_or_links.
      cbn [enter publications]. rewrite Ep, first_seen_known.
      destruct (publication_sections soup); by rewrite <- Ef.
    - rewrite Ep. destruct (publication_sections soup); by rewrite <- Ef. }
  split; [apply first_records_kept|].
  assert (run = [StructuredSections]
        ++ (match publication_sections soup with [] => [RawLinks] | _ => [] end)
        ++ (match first_records urljoin soup with [] => [KnownRecords] | _ => [] end)) as E.
  { unfold run, parse_soup, first_records.
    assert (tiers_run (sections_or_links urljoin soup)
            = [StructuredSections]
              ++ match publication_sections soup with [] => [RawLinks] | _ => [] end) as E.
    { unfold sections_or_links.
      destruct (publication_sections soup) eqn:Es.
      - unfold link_tier. by rewrite tiers_run_fold.
      - unfold section_tier. by rewrite tiers_run_fold. }
    destruct (publications (sections_or_links urljoin soup)).
    - unfold known_tier. rewrite tiers_run_fold. simpl. rewrite E.
      by rewrite <- app_assoc.
    - rewrite E. by rewrite app_nil_r. }
  split; [done|]. rewrite E.
  destruct (publication_sections soup), (first_records urljoin soup); simpl;
    split; split; intros H; try done;
    repeat match goal with H : _ \/ _ |- _ => destruct H end; try done; auto.
Qed.

Lemma Forall_publications_fold (P : publication -> Prop) cs : forall st,
  Forall P (publications st) ->
  (forall p, In (Some p) cs -> P p) ->
  Forall P (publications (fold_left consider cs st)).
Proof.
  induction cs as [|c cs IH]; intros st Hst Hcs; [done|].
  simpl. apply IH; [|by intros p Hp; apply Hcs; right].
  destruct c as [p|]; [|done]. simpl.
  destruct (_is_unique_publication p _ _); [|done]. simpl.
  apply Forall_app. split; [done|]. constructor; [|done]. apply Hcs. by left.
Qed.

(** The candidate of a link whose [href] matched [\.pdf]. *)
Lemma pdf_link_file_type soup link p :
  In link (pdf_links soup) ->
  extract_publication_info urljoin link = Some p ->
  file_type p = s "PDF".
Proof.
  unfold pdf_links, find_all. intros [_ H]%filter_In.
  apply andb_true_iff in H as [_ H]. unfold href_matches in H.
  unfold extract_publication_info.
  destruct (get link (s "href")) as [href|]; [|done].
  destruct (search pdf_re href) as [g|] eqn:E; [|done].
  apply search_pdf_re in E. destruct href as [|c href]; [done|].
  destruct (urljoin base_url (c :: href)) as [url|]; [|done].
  intros Hp. cbv beta match zeta in Hp. apply (inj Some) in Hp. subst p.
  cbn [file_type]. by rewrite E.
Qed.

(** C10: every publication that the loop over the PDF links adds has the
    file type "PDF". *)
Theorem raw_link_tier_file_type (html_content : str) :
  Forall (fun p => file_type p = s "PDF")
    (publications
       (link_tier urljoin (soup_of BeautifulSoup html_content)
          (enter RawLinks (enter StructuredSections initial_state)))).
Proof.
  unfold link_tier. apply Forall_publications_fold; [constructor|].
  intros p (link & Hl & Hin)%in_map_iff. by eapply pdf_link_file_type.
Qed.

End ParserFacts.

Lemma raw_link_tier_skipped :
  let urljoin := fun base href : str => Some (base ++ href) in
  let soup := Tag page_with_empty_section [] in
  pdf_links soup <> []
  /\ ~ (In RawLinks (tiers_run (parse_soup urljoin soup))
        <-> section_records urljoin soup = []).
Proof.
  intros urljoin soup. split; [by vm_compute|]. intros [_ H].
  assert (section_records urljoin soup = []) as E by (by vm_compute).
  apply H in E. vm_compute in E. destruct E as [E | [E | []]]; discriminate.
Qed.

(** On that page the links alone would give a record, and the result is
    empty. *)
Lemma raw_link_tier_skipped_result :
  links_kept join_url (Tag page_with_empty_section []) <> []
  /\ sections_kept join_url (Tag page_with_empty_section []) = []
  /\ parse_publications join_url (fun _ => page_with_empty_section) [] = [].
Proof. split; [by vm_compute|]. split; by vm_compute. Qed.

(** ** Properties of the run *)

Lemma publications_path_analysis_path y y' : publications_path y <> analysis_path y'.
Proof. unfold publications_path, analysis_path, s. simpl. discriminate. Qed.

Lemma publications_path_viewer_path y y' : publications_path y <> viewer_path y'.
Proof. unfold publications_path, viewer_path, s. simpl. discriminate. Qed.

Lemma analysis_path_viewer_path y y' : analysis_path y <> viewer_path y'.
Proof. unfold analysis_path, viewer_path, s. simpl. discriminate. Qed.

Section RunFacts.

Variable urljoin : str -> str -> option str.
Variable BeautifulSoup : str -> node.
Variable clock : nat -> datetime.
Variable generate_standalone_py : world -> option nat.

Lemma fetch_page_html_fails w :
  fetch_fails (server w) ->
  fetch_page_html w
  = (Return None, World (server w) (files w) (ticks w) (stdout w ++ [MErrorFetching])).
Proof.
  destruct w as [[code text|] fs tk out]; unfold fetch_page_html;
    cbn [server files ticks stdout fetch_fails]; [|done].
  intros [H1 H2]. apply Nat.leb_le in H1. apply Nat.ltb_lt in H2. by rewrite H1, H2.
Qed.

Lemma fetch_page_html_succeeds w html :
  fetch_succeeds (server w) html -> fetch_page_html w = (Return (Some html), w).
Proof.
  destruct w as [srv fs tk out]. unfold fetch_page_html.
  cbn [server files ticks stdout]. intros (code & -> & H).
  destruct (Nat.leb 400 code) eqn:H1, (Nat.ltb code 600) eqn:H2; try done.
  apply Nat.leb_le in H1. apply Nat.ltb_lt in H2. destruct H. lia.
Qed.

(** C4: when the request fails, [run_full_scrape] returns [(None, None)],
    leaves every file as it was, and prints neither the message that
    precedes parsing nor the one that precedes the analysis, nor any
    message of [save_results]. *)
Theorem run_full_scrape_fetch_failure (w : world) :
  fetch_fails (server w) ->
  exists found,
    run_full_scrape urljoin BeautifulSoup clock generate_standalone_py w
    = (Return (None, None),
       World (server w) (files w) (S (S (ticks w)))
         (stdout w ++ [MStarting; MFetching target_url; MStartedAt (clock (ticks w))]
                   ++ found ++ [MErrorFetching; MFetchFailed]))
    /\ (found = [] \/ exists n, found = [MFoundExisting n]).
Proof.
  intros Hfail. unfold run_full_scrape.
  unfold bind at 1. unfold print at 1. unfold bind at 1. unfold print at 1.
  unfold bind at 1. unfold now at 1. cbn [server files ticks stdout].
  unfold bind at 1. unfold print at 1. cbn [server files ticks stdout].
  unfold bind at 1. unfold get_existing_publications_count.
  unfold bind at 1. unfold now at 1. cbn [server files ticks stdout].
  unfold bind at 1. unfold read_file at 1. cbn [server files ticks stdout].
  set (existing := files w !! _).
  set (count := match existing with
                | Some (PublicationsJson pubs _ _ _ _) => length pubs
                | _ => 0
                end).
  exists (if Nat.ltb 0 count then [MFoundExisting count] else []).
  split; [|destruct (Nat.ltb 0 count); eauto].
  assert (forall w', (match existing with
            | Some (PublicationsJson pubs _ _ _ _) => ret (length pubs)
            | _ => ret 0 end) w' = (Return count, w')) as ->.
  { intros w'. subst count. by destruct existing as [[]|]. }
  unfold bind at 1. unfold when.
  destruct (Nat.ltb 0 count).
  - unfold print at 1. cbn [server files ticks stdout].
    unfold bind at 1. rewrite fetch_page_html_fails by done.
    cbn [server files ticks stdout]. unfold bind, print, ret.
    cbn [server files ticks stdout]. by rewrite <- !app_assoc.
  - unfold ret at 1. unfold bind at 1. rewrite fetch_page_html_fails by done.
    cbn [server files ticks stdout]. unfold bind, print, ret.
    cbn [server files ticks stdout]. by rewrite <- !app_assoc.
Qed.

Lemma bind_eval {A B} (c : M A) (k : A -> M B) w a w' :
  c w = (Return a, w') -> bind c k w = k a w'.
Proof. unfold bind. by intros ->. Qed.

Lemma prints_only_print m : prints_only (print m).
Proof. intros w. by exists [m]. Qed.

Lemma prints_only_ret : prints_only (ret tt).
Proof. intros w. exists []. destruct w. unfold ret. simpl. by rewrite app_nil_r. Qed.

Lemma prints_only_seq c1 c2 :
  prints_only c1 -> prints_only c2 -> prints_only (c1 ;;; c2).
Proof.
  intros H1 H2 w. destruct (H1 w) as [out1 E1]. rewrite (bind_eval _ _ _ _ _ E1).
  destruct (H2 (World (server w) (files w) (ticks w) (stdout w ++ out1))) as [out2 E2].
  rewrite E2. exists (out1 ++ out2). cbn [server files ticks stdout].
  by rewrite <- app_assoc.
Qed.

Lemma prints_only_when b c : prints_only c -> prints_only (when b c).
Proof. intros H. destruct b; [done | apply prints_only_ret]. Qed.

Lemma prints_only_if (b : bool) c1 c2 :
  prints_only c1 -> prints_only c2 -> prints_only (if b then c1 else c2).
Proof. by destruct b. Qed.

Lemma prints_only_standalone_viewer :
  prints_only (generate_standalone_viewer generate_standalone_py).
Proof.
  intros w. unfold generate_standalone_viewer.
  destruct (generate_standalone_py w) as [[|n]|]; apply prints_only_print.
Qed.

Lemma get_existing_publications_count_eval w :
  exists n,
    get_existing_publications_count clock w
    = (Return n, World (server w) (files w) (S (ticks w)) (stdout w)).
Proof.
  unfold get_existing_publications_count.
  erewrite bind_eval by reflexivity. erewrite bind_eval by reflexivity.
  cbn [server files ticks stdout].
  destruct (files w !! _) as [[]|]; eexists; reflexivity.
Qed.

(** [generate_dynamic_viewer] writes at most the viewer file. *)
Lemma generate_dynamic_viewer_eval w :
  exists w',
    generate_dynamic_viewer clock w = (Return tt, w')
    /\ server w' = server w
    /\ (files w' = files w
        \/ exists y f, files w' = <[ viewer_path y := f ]> (files w)).
Proof.
  unfold generate_dynamic_viewer. erewrite bind_eval by reflexivity.
  destruct (files w !! viewer_template) as [template|].
  - erewrite bind_eval by reflexivity. erewrite bind_eval by reflexivity.
    eexists. split; [reflexivity|]. cbn [server files ticks stdout]. eauto.
  - eexists. split; [reflexivity|]. cbn [server files ticks stdout]. eauto.
Qed.

Lemma save_results_json_eval pubs a w :
  save_results clock pubs a Json w
  = (Return tt,
     World (server w)
       (<[ analysis_path (year (clock (ticks w))) := AnalysisJson a ]>
          (<[ publications_path (year (clock (ticks w))) :=
                PublicationsJson pubs a (isoformat (clock (S (ticks w))))
                  target_url (length pubs) ]> (files w)))
       (S (S (ticks w)))
       (stdout w ++ [MPublicationsSaved (publications_path (year (clock (ticks w))));
                     MAnalysisSaved (analysis_path (year (clock (ticks w))))])).
Proof.
  unfold save_results, bind, now, write_file, print.
  cbn [server files ticks stdout]. by rewrite <- app_assoc.
Qed.

Lemma save_results_csv_empty a w :
  save_results clock [] a Csv w
  = (Return tt, World (server w) (files w) (S (ticks w)) (stdout w)).
Proof. reflexivity. Qed.

(** C3 (amended): a run whose request succeeds with a non-empty page from
    which no publication is extracted returns the empty list with the "no
    publications" analysis, and after it the publications file of the year
    holds the new, empty snapshot and the analysis file the new analysis,
    whatever these files held before.  The page has to be non-empty: an
    empty body is taken for a failed fetch, and then nothing is written. *)
Theorem run_full_scrape_empty_result (w : world) (html : str) :
  fetch_succeeds (server w) html ->
  html <> [] ->
  parse_publications urljoin BeautifulSoup html = [] ->
  exists w',
    run_full_scrape urljoin BeautifulSoup clock generate_standalone_py w
    = (Return (Some [], Some NoPublicationsFound), w')
    /\ files w' !! publications_path (year (clock (S (S (ticks w)))))
       = Some (PublicationsJson [] NoPublicationsFound
                 (isoformat (clock (S (S (S (ticks w)))))) target_url 0)
    /\ files w' !! analysis_path (year (clock (S (S (ticks w)))))
       = Some (AnalysisJson NoPublicationsFound).
Proof.
  intros Hfetch Hhtml Hparse. unfold run_full_scrape.
  do 4 (erewrite bind_eval by reflexivity). cbn [server files ticks stdout].
  match goal with |- context [bind (get_existing_publications_count clock) _ ?w0] =>
    destruct (get_existing_publications_count_eval w0) as [count E] end.
  erewrite bind_eval by exact E. clear E. cbn [server files ticks stdout].
  match goal with |- context [bind (when ?b ?c) _ ?w0] =>
    destruct (prints_only_when b c (prints_only_print _) w0) as [out1 E] end.
  erewrite bind_eval by exact E. clear E. cbn [server files ticks stdout].
  erewrite bind_eval by (by apply fetch_page_html_succeeds).
  destruct html as [|c html]; [done|]. rewrite Hparse.
  do 4 (erewrite bind_eval by reflexivity). cbn [server files ticks stdout].
  match goal with |- context [bind (if ?b then ?c1 else ?c2) _ ?w0] =>
    assert (prints_only (if b then c1 else c2)) as Hp end.
  { apply prints_only_if.
    - apply prints_only_seq; apply prints_only_print.
    - apply prints_only_seq; [apply prints_only_print|].
      apply prints_only_when, prints_only_if; [apply prints_only_print|].
      apply prints_only_when, prints_only_print. }
  match goal with |- context [bind _ _ ?w0] => destruct (Hp w0) as [out2 E] end.
  erewrite bind_eval by exact E. clear E Hp. cbn [server files ticks stdout].
  do 2 (erewrite bind_eval by reflexivity). cbn [server files ticks stdout].
  erewrite bind_eval by apply save_results_json_eval.
  erewrite bind_eval by apply save_results_csv_empty.
  cbn [server files ticks stdout].
  match goal with |- context [bind _ _ ?w0] =>
    destruct (prints_only_standalone_viewer w0) as [out3 E] end.
  erewrite bind_eval by exact E. clear E. cbn [server files ticks stdout].
  match goal with |- context [bind _ _ ?w0] =>
    destruct (generate_dynamic_viewer_eval w0) as (w5 & E & Hs & Hf) end.
  erewrite bind_eval by exact E. clear E. cbn [server files ticks stdout] in Hf.
  destruct w5 as [srv5 fs5 tk5 out5]. cbn [server files ticks stdout] in *.
  do 3 (erewrite bind_eval by reflexivity). cbn [server files ticks stdout].
  eexists. split; [reflexivity|]. cbn [server files ticks stdout].
  destruct Hf as [-> | (y & f & ->)].
  - rewrite lookup_insert_ne by apply not_eq_sym, publications_path_analysis_path.
    by rewrite !lookup_insert_eq.
  - rewrite !(lookup_insert_ne _ (viewer_path y))
      by (apply not_eq_sym; first [apply publications_path_viewer_path
                                  | apply analysis_path_viewer_path]).
    rewrite lookup_insert_ne by apply not_eq_sym, publications_path_analysis_path.
    by rewrite !lookup_insert_eq.
Qed.

End RunFacts.

(** ** Properties of the analysis *)

(** *** Sizes *)

(** When the repetition can take all of [ds] and must stop there, it does. *)
Lemma re_star_greedy {A} p ds x (k : str -> option A) v :
  Forall (fun c => p c = true) ds ->
  match x with c :: _ => p c = false | [] => True end ->
  k x = Some v ->
  re_star p (ds ++ x) k = Some v.
Proof.
  intros Hds Hx Hk. induction Hds as [|c ds Hc Hds IH]; simpl.
  - destruct x as [|c x]; [done|]. simpl. by rewrite Hx.
  - by rewrite Hc, IH.
Qed.

Lemma take_prefix (n r : str) : take (length (n ++ r) - length r) (n ++ r) = n.
Proof. by rewrite length_app, Nat.add_sub, take_app_length. Qed.

Lemma search_here r x g :
  re_match r x [] (fun _ g => Some g) = Some g -> search r x = Some g.
Proof. intros H. destruct x; cbn [search]; by rewrite H. Qed.

Lemma re_match_number_body {A} n u (k : str -> caps -> option A) v :
  decimal_number n -> k (" "%char :: u) [] = Some v ->
  re_match number_body (n ++ " "%char :: u) [] k = Some v.
Proof.
  intros Hn Hk. unfold number_body.
  destruct Hn as [[Hne Hd] | (i & f & [Hi Hdi] & [Hf Hdf] & ->)].
  - destruct n as [|c n]; [done|]. apply Forall_cons_1 in Hd as [Hc Hd].
    cbn [re_match app]. rewrite Hc. apply re_star_greedy; [done | done |].
    change (char_eqb "." " ") with false. by cbv iota.
  - destruct i as [|c i]; [done|]. apply Forall_cons_1 in Hdi as [Hc Hdi].
    destruct f as [|c' f]; [done|]. apply Forall_cons_1 in Hdf as [Hc' Hdf].
    rewrite <- app_assoc. cbn [re_match app]. rewrite Hc.
    apply re_star_greedy; [done | done |].
    rewrite char_eqb_refl, Hc'.
    by rewrite (re_star_greedy _ f _ _ v).
Qed.

Lemma search_number_re n u :
  decimal_number n -> search number_re (n ++ " "%char :: u) = Some [(1, n)].
Proof.
  intros Hn. apply search_here. unfold number_re.
  change (Seq (Plus isdecimal) (Opt (Seq (Chr (char_eqb ".")) (Plus isdecimal))))
    with number_body.
  cbn [re_match]. apply re_match_number_body; [done|].
  by rewrite take_prefix.
Qed.

Lemma contains_skip c p a b :
  Forall (fun x => x <> c) a -> contains (c :: p) (a ++ b) = contains (c :: p) b.
Proof.
  induction 1 as [|x a Hx Ha IH]; [done|].
  simpl app. simpl contains at 1. rewrite IH.
  assert (char_eqb c x = false) as -> by (apply char_eqb_neq; congruence). done.
Qed.

Lemma number_no_letter n (c : ascii) :
  decimal_number n -> isdecimal c = false -> c <> "."%char -> c <> " "%char ->
  Forall (fun x => x <> c) (n ++ [" "%char]).
Proof.
  intros Hn Hc Hdot Hsp.
  assert (forall d, all_digits d -> Forall (fun x => x <> c) d) as Hd.
  { intros d Hd. eapply Forall_impl; [exact Hd|]. intros x Hx ->.
    cbv beta in Hx. congruence. }
  apply Forall_app. split; [|by repeat constructor].
  destruct Hn as [[_ H] | (i & f & [_ Hi] & [_ Hf] & ->)]; [by apply Hd|].
  apply Forall_app. split; [by apply Hd|]. constructor; [done | by apply Hd].
Qed.

(** The contribution of a size written as a number, a space and a unit. *)
Lemma size_in_mb_number_unit p n u :
  file_size p = Some (n ++ " "%char :: u) -> decimal_number n ->
  size_in_mb p =
    if contains (s "Mo") u || contains (s "MB") u
    then Some (float_of_decimal n)
    else if contains (s "ko") u || contains (s "KB") u
         then Some (float_of_decimal n / 1024)%Q
         else None.
Proof.
  intros Hp Hn. unfold size_in_mb. rewrite Hp.
  assert (exists c x, n ++ " "%char :: u = c :: x) as (c & x & E).
  { destruct n; simpl; eauto. }
  rewrite E. rewrite <- E. clear c x E.
  rewrite search_number_re by done. cbn [group Nat.eqb].
  replace (n ++ " "%char :: u) with ((n ++ [" "%char]) ++ u) by (by rewrite <- app_assoc).
  unfold s. cbn [list_ascii_of_string].
  rewrite !contains_skip by (by apply number_no_letter). done.
Qed.





Lemma digit_run_intro d :
  d <> [] -> forallb isdecimal d = true -> digit_run d.
Proof.
  intros Hd H. split; [done|]. apply Forall_forall. intros c Hc.
  rewrite forallb_forall in H. apply H. by apply list_elem_of_In.
Qed.


(** The example of the specification: "10 Mo" and "512 ko" average to
    5.25 megabytes. *)
Lemma average_example :
  match average (collect_sizes [sized "a.pdf" "10 Mo"; sized "b.pdf" "512 ko"]) with
  | Some q => Qeq q (21 # 4)
  | None => False
  end.
Proof. vm_compute. done. Qed.


(** *** The latest publication *)

(** With a date on every record, the second loop returns the first record
    whose date contains the year. *)
Lemma find_latest_dated year pubs :
  Forall (fun p => date_posted p <> None) pubs ->
  find_latest year pubs
  = Return (List.find (fun p => match date_posted p with
                                | Some d => contains year d
                                | None => false
                                end) pubs).
Proof.
  induction 1 as [|p pubs Hp Hpubs IH]; [done|].
  simpl. destruct (date_posted p) as [d|]; [|done].
  by destruct (contains year d).
Qed.

(** A record without date raises, when no record before it has a date
    that contains the year. *)
Lemma find_latest_undated year before p after :
  Forall (fun q => exists d, date_posted q = Some d /\ contains year d = false) before ->
  date_posted p = None ->
  find_latest year (before ++ p :: after) = Raise TypeError.
Proof.
  intros Hb Hp. induction Hb as [|q before (d & Hq & Hd) Hb IH]; simpl.
  - by rewrite Hp.
  - by rewrite Hq, Hd.
Qed.

(** When every record has a date, the analysis returns a report whose
    latest publication is the first record, in list order, whose date
    contains the greatest year read. *)
Lemma analyze_latest_dated pubs y years :
  Forall (fun p => date_posted p <> None) pubs ->
  collect_years pubs = y :: years ->
  exists r,
    analyze_publications pubs = Return (Analysis r)
    /\ latest_publication r
       = List.find (fun p => match date_posted p with
                             | Some d => contains (str_of_Z (max_year y years)) d
                             | None => false
                             end) pubs.
Proof.
  intros Hd Hy. unfold analyze_publications.
  destruct pubs as [|p pubs]; [done|]. rewrite Hy.
  rewrite find_latest_dated by done. eexists. split; reflexivity.
Qed.

(** The example of the specification: the first record of 2025 is chosen,
    not the one of the latest day. *)
Lemma latest_publication_example :
  latest_publication
    (report_of [dated "a.pdf" (Some "01/01/2024"); dated "b.pdf" (Some "15/06/2025");
                dated "c.pdf" (Some "20/06/2025")])
  = Some (dated "b.pdf" (Some "15/06/2025")).
Proof. by vm_compute. Qed.

(** C9: a list whose first record has no date and whose second record is
    dated 15/06/2025.  The search for the latest publication tests
    [str(latest_year) in date_str] on the first record, where [date_str] is
    [None], and the analysis raises [TypeError] instead of returning the
    second record. *)
Theorem latest_publication_undated_first :
  analyze_publications [dated "a.pdf" None; dated "b.pdf" (Some "15/06/2025")]
  = Raise TypeError.
Proof. by vm_compute. Qed.

(** ** Concrete runs *)

Lemma run_full_scrape_fetch_failure_witness :
  fetch_fails (server (world_with_snapshot (HttpResponse 503 (s "busy"))))
  /\ exists found,
       run_full_scrape join_url empty_page noon generator_ok
         (world_with_snapshot (HttpResponse 503 (s "busy")))
       = (Return (None, None),
          World (HttpResponse 503 (s "busy"))
            {[ publications_path 2025 := old_snapshot ]} 2
            ([] ++ [MStarting; MFetching target_url; MStartedAt (noon 0)]
                ++ found ++ [MErrorFetching; MFetchFailed]))
       /\ (found = [] \/ exists n, found = [MFoundExisting n]).
Proof.
  split; [simpl; lia|].
  apply (run_full_scrape_fetch_failure join_url empty_page noon generator_ok
           (world_with_snapshot (HttpResponse 503 (s "busy")))).
  simpl. lia.
Defined.

Lemma run_full_scrape_empty_result_witness :
  fetch_succeeds (server (world_with_snapshot (HttpResponse 200 (s "<html></html>"))))
    (s "<html></html>")
  /\ s "<html></html>" <> []
  /\ parse_publications join_url empty_page (s "<html></html>") = []
  /\ exists w',
       run_full_scrape join_url empty_page noon generator_ok
         (world_with_snapshot (HttpResponse 200 (s "<html></html>")))
       = (Return (Some [], Some NoPublicationsFound), w')
       /\ files w' !! publications_path (year (noon 2))
          = Some (PublicationsJson [] NoPublicationsFound (isoformat (noon 3)) target_url 0)
       /\ files w' !! analysis_path (year (noon 2))
          = Some (AnalysisJson NoPublicationsFound).
Proof.
  assert (fetch_succeeds
            (server (world_with_snapshot (HttpResponse 200 (s "<html></html>"))))
            (s "<html></html>")) as Hf.
  { exists 200. split; [reflexivity | simpl; lia]. }
  split; [exact Hf|]. split; [discriminate|]. split; [reflexivity|].
  apply (run_full_scrape_empty_result join_url empty_page noon generator_ok
           (world_with_snapshot (HttpResponse 200 (s "<html></html>")))
           (s "<html></html>") Hf); [discriminate | reflexivity].
Defined.

(** The request succeeds with an empty body, from which no publication is
    extracted: the run returns [(None, None)] and writes nothing, so that
    the snapshot of the run before stays. *)
Lemma empty_body_keeps_snapshot :
  fetch_succeeds (server (world_with_snapshot (HttpResponse 200 []))) []
  /\ parse_publications join_url empty_page [] = []
  /\ fst (run_full_scrape join_url empty_page noon generator_ok
            (world_with_snapshot (HttpResponse 200 [])))
     = Return (None, None)
  /\ files (snd (run_full_scrape join_url empty_page noon generator_ok
                   (world_with_snapshot (HttpResponse 200 []))))
     = files (world_with_snapshot (HttpResponse 200 []))
  /\ files (snd (run_full_scrape join_url empty_page noon generator_ok
                   (world_with_snapshot (HttpResponse 200 []))))
       !! publications_path 2025
     = Some old_snapshot.
Proof.
  split; [exists 200; split; [reflexivity | simpl; lia]|].
  split; [reflexivity|]. split; [reflexivity|]. split; [reflexivity|].
  reflexivity.
Qed.

(** * Further properties of the field extractors *)

(** ** Categories *)

Lemma first_contained_spec labels text :
  match first_contained labels text with
  | Some l => exists before after, labels = before ++ l :: after
      /\ contains l text = true
      /\ Forall (fun l' => contains l' text = false) before
  | None => Forall (fun l' => contains l' text = false) labels
  end.
Proof.
  induction labels as [|l labels IH]; simpl.
  - constructor.
  - destruct (contains l text) eqn:E.
    + exists [], labels. repeat split; auto.
    + destruct (first_contained labels text) as [l'|].
      * destruct IH as (b & a & -> & H1 & H2).
        exists (l :: b), a. repeat split; auto.
      * constructor; auto.
Qed.

Lemma extract_category_from_text_label text :
  In (extract_category_from_text text) (category_labels ++ [non_classe]).
Proof.
  unfold extract_category_from_text. fold category_labels.
  pose proof (first_contained_spec category_labels text) as H.
  destruct (first_contained category_labels text) as [l|].
  - destruct H as (b & a & E & _). apply in_or_app. left. rewrite E.
    apply in_or_app. right. by left.
  - apply in_or_app. right. by left.
Qed.

(** X1: the category of a text is the first label of the fixed list that
    occurs in it, wherever the labels stand in the text, and the sentinel
    exactly when none of the four occurs. *)
Theorem extract_category_from_text_first_label (text : str) :
  (exists before after,
     category_labels = before ++ extract_category_from_text text :: after
     /\ contains (extract_category_from_text text) text = true
     /\ Forall (fun l => contains l text = false) before)
  \/ (extract_category_from_text text = non_classe
      /\ Forall (fun l => contains l text = false) category_labels).
Proof.
  unfold extract_category_from_text. fold category_labels.
  pose proof (first_contained_spec category_labels text) as H.
  destruct (first_contained category_labels text) as [l|].
  - left. destruct H as (b & a & E & H1 & H2). by exists b, a.
  - by right.
Qed.

(** ** Sizes *)

Lemma matches_lit_i_intro l : forall u g,
  lower u = lower l -> matches (lit_i l) u g g.
Proof.
  induction l as [|c l IH]; intros [|a u] g E; try discriminate E; simpl.
  - constructor.
  - injection E as Ea Eu. change (a :: u) with ([a] ++ u).
    eapply matches_seq; [|by apply IH].
    constructor. unfold char_eqb_i. rewrite Ea. apply char_eqb_refl.
Qed.

Lemma matches_alts_intro rs r u g g' :
  In r rs -> matches r u g g' -> matches (alts rs) u g g'.
Proof.
  induction rs as [|r1 rs IH]; [done|].
  intros [-> | Hin] Hm.
  - destruct rs; [done | by apply matches_alt_l].
  - destruct rs as [|r2 rs]; [done|]. apply matches_alt_r. by apply IH.
Qed.

Lemma matches_unit_re_intro u h : size_unit u -> matches unit_re u h h.
Proof.
  unfold size_unit. intros Hin. apply in_map_iff in Hin as (l & E & Hl).
  apply (matches_alts_intro _ (lit_i l)).
  - unfold unit_re. by apply in_map.
  - by apply matches_lit_i_intro.
Qed.

Lemma matches_number_body n g : decimal_number n -> matches number_body n g g.
Proof.
  unfold number_body. intros [[Hne Hd] | (i & f & [Hi Hid] & [Hf Hfd] & ->)].
  - rewrite <- (app_nil_r n). eapply matches_seq; [by constructor | apply matches_opt_none].
  - eapply matches_seq; [by constructor|]. apply matches_opt_some.
    change ("."%char :: f) with (["."%char] ++ f).
    eapply matches_seq; [|by constructor]. constructor. apply char_eqb_refl.
Qed.

Lemma matches_size_pattern_intro n ws u :
  decimal_number n -> spaces ws -> size_unit u ->
  matches (size_pattern ".") (n ++ ws ++ u) [] [(2, u); (1, n)].
Proof.
  intros Hn Hws Hu. unfold size_pattern. eapply matches_seq.
  - constructor. by apply matches_number_body.
  - eapply matches_seq; [by constructor|]. constructor. by apply matches_unit_re_intro.
Qed.

(** The text matched by the first size pattern, and its groups. *)
Lemma matches_size_pattern_period u g :
  matches (size_pattern ".") u [] g ->
  exists n ws unit,
    u = n ++ ws ++ unit /\ decimal_number n /\ spaces ws /\ size_unit unit
    /\ g = [(2, unit); (1, n)].
Proof.
  intros Hm. apply matches_size_pattern in Hm
    as (n & frac & ws & unit & -> & Hne & Hn & Hfrac & Hws & Hunit & ->).
  exists (n ++ frac), ws, unit. repeat split; try done.
  - destruct Hfrac as [-> | (f & -> & Hfne & Hf)].
    + left. by rewrite app_nil_r.
    + right. by exists n, f.
  - apply (matches_unit_re unit [] []), Hunit.
Qed.

Lemma has_size_not_empty n ws u : ~ has_size [] n ws u.
Proof.
  intros (Hn & _ & _ & pre & post & E).
  assert (n <> []) as Hne.
  { destruct Hn as [[H _] | (i & f & [H _] & _ & ->)]; [done | by destruct i]. }
  destruct pre; [|done]. destruct n; [done | discriminate E].
Qed.

(** What [extract_file_size] finds, and when it finds nothing. *)
Lemma extract_file_size_found text :
  match extract_file_size text with
  | Some r => exists n ws u, has_size text n ws u /\ r = n ++ " "%char :: u
  | None => forall n ws u, ~ has_size text n ws u
  end.
Proof.
  unfold extract_file_size. destruct text as [|c text].
  { intros n ws u. apply has_size_not_empty. }
  unfold size_patterns, first_size.
  destruct (search (size_pattern ".") (c :: text)) as [g|] eqn:E.
  - apply search_sound in E as (pre & v & post & Ev & Hm).
    apply matches_size_pattern_period in Hm as (n & ws & u & -> & Hn & Hws & Hu & ->).
    exists n, ws, u. split; [|done]. repeat split; try done. by exists pre, post.
  - rewrite (size_pattern_comma_shadowed _ E).
    intros n ws u (Hn & Hws & Hu & pre & post & Ev).
    rewrite Ev in E. revert E. eapply search_complete.
    by apply matches_size_pattern_intro.
Qed.

(** X2: [extract_file_size] returns a value exactly for the texts in which
    a number (digits, or digits, a period and digits), white space and one
    of the eight units in any letter case occur one after the other; the
    value is such a number and unit of the text, joined by one space. *)
Theorem extract_file_size_spec (text : str) :
  (exists n ws u, has_size text n ws u
     /\ extract_file_size text = Some (n ++ " "%char :: u))
  \/ ((forall n ws u, ~ has_size text n ws u) /\ extract_file_size text = None).
Proof.
  pose proof (extract_file_size_found text) as H.
  destruct (extract_file_size text) as [r|].
  - left. destruct H as (n & ws & u & Hs & ->). by exists n, ws, u.
  - by right.
Qed.

Lemma extract_file_size_size_text text r :
  extract_file_size text = Some r -> size_text r.
Proof.
  intros E. pose proof (extract_file_size_found text) as H. rewrite E in H.
  destruct H as (n & ws & u & (Hn & _ & Hu & _) & ->). by exists n, u.
Qed.

Lemma char_eqb_sym a b : char_eqb a b = char_eqb b a.
Proof.
  destruct (char_eqb b a) eqn:E.
  - apply char_eqb_eq in E as ->. apply char_eqb_refl.
  - apply char_eqb_neq. apply char_eqb_neq in E. congruence.
Qed.

Lemma str_eqb_refl a : str_eqb a a = true.
Proof. induction a as [|c a IH]; [done|]. simpl. by rewrite char_eqb_refl. Qed.

Lemma str_eqb_true a b : str_eqb a b = true -> a = b.
Proof.
  revert b. induction a as [|c a IH]; intros [|d b] H; try done.
  simpl in H. apply andb_true_iff in H as [H1 H2].
  apply char_eqb_eq in H1 as ->. by rewrite (IH b).
Qed.

(** A literal under [re.IGNORECASE] against a text of its length. *)
Lemma re_match_lit_i {A} l : forall u g (k : str -> caps -> option A),
  length u = length l ->
  re_match (lit_i l) u g k = if str_eqb (lower u) (lower l) then k [] g else None.
Proof.
  induction l as [|c l IH]; intros [|a u] g k E; try discriminate E; [done|].
  simpl. unfold char_eqb_i. rewrite (char_eqb_sym (char_lower a)).
  destruct (char_eqb (char_lower c) (char_lower a)); [|done].
  apply IH. by injection E.
Qed.

Lemma re_match_alts_lit_i {A} ls : forall u g (k : str -> caps -> option A) v,
  Forall (fun l => length l = length u) ls ->
  In (lower u) (map lower ls) ->
  k [] g = Some v ->
  re_match (alts (map lit_i ls)) u g k = Some v.
Proof.
  induction ls as [|l ls IH]; intros u g k v Hlen Hin Hk; [done|].
  apply Forall_cons_1 in Hlen as [Hl Hlen].
  assert (re_match (lit_i l) u g k
          = if str_eqb (lower u) (lower l) then Some v else None) as El.
  { rewrite re_match_lit_i by done. by rewrite Hk. }
  destruct ls as [|l2 ls].
  - cbn [map alts]. rewrite El. destruct Hin as [<- | []].
    by rewrite str_eqb_refl.
  - change (alts (map lit_i (l :: l2 :: ls)))
      with (Alt (lit_i l) (alts (map lit_i (l2 :: ls)))).
    cbn [re_match]. rewrite El.
    destruct (str_eqb (lower u) (lower l)) eqn:E; [done|].
    apply IH; try done. destruct Hin as [Hin | Hin]; [|done].
    rewrite <- Hin, str_eqb_refl in E. discriminate E.
Qed.

Lemma size_unit_length u : size_unit u -> length u = 2.
Proof.
  unfold size_unit. intros H. rewrite <- (length_map char_lower). fold (lower u).
  simpl in H. repeat destruct H as [<- | H]; done.
Qed.

Lemma re_match_unit_re {A} u g (k : str -> caps -> option A) v :
  size_unit u -> k [] g = Some v -> re_match unit_re u g k = Some v.
Proof.
  intros Hu Hk. unfold unit_re. apply re_match_alts_lit_i; try done.
  rewrite (size_unit_length u Hu). unfold size_units. by repeat constructor.
Qed.

Lemma isspace_char_lower c : isspace (char_lower c) = isspace c.
Proof. by destruct c as [[] [] [] [] [] [] [] []]. Qed.

Lemma size_unit_first u :
  size_unit u -> exists a b, u = [a; b] /\ isspace a = false.
Proof.
  intros Hu. pose proof (size_unit_length u Hu) as Hl.
  destruct u as [|a [|b [|c u]]]; try discriminate Hl.
  exists a, b. split; [done|]. rewrite <- isspace_char_lower.
  unfold size_unit in Hu. simpl in Hu.
  repeat destruct Hu as [Hu | Hu]; try done; injection Hu as <- _; done.
Qed.

(** The equations of the matcher. *)
Lemma re_match_seq {A} a b x g (k : str -> caps -> option A) :
  re_match (Seq a b) x g k = re_match a x g (fun x' g' => re_match b x' g' k).
Proof. reflexivity. Qed.

Lemma re_match_group {A} n a x g (k : str -> caps -> option A) :
  re_match (Group n a) x g k
  = re_match a x g (fun x' g' => k x' ((n, take (length x - length x') x) :: g')).
Proof. reflexivity. Qed.

Lemma re_match_star {A} p x g (k : str -> caps -> option A) :
  re_match (Star p) x g k = re_star p x (fun x' => k x' g).
Proof. reflexivity. Qed.

Lemma re_match_chr {A} p c x g (k : str -> caps -> option A) :
  re_match (Chr p) (c :: x) g k = if p c then k x g else None.
Proof. reflexivity. Qed.

(** On a size text the first pattern matches at once, and whole. *)
Lemma search_size_text n u :
  decimal_number n -> size_unit u ->
  search (size_pattern ".") (n ++ " "%char :: u) = Some [(2, u); (1, n)].
Proof.
  intros Hn Hu. apply search_here.
  change (size_pattern ".")
    with (Seq (Group 1 number_body) (Seq (Star isspace) (Group 2 unit_re))).
  rewrite re_match_seq, re_match_group.
  apply re_match_number_body; [done|].
  rewrite re_match_seq, re_match_star, take_prefix.
  destruct (size_unit_first u Hu) as (a & b & -> & Ha).
  cbn [re_star]. change (isspace " ") with true. cbv iota. rewrite Ha.
  rewrite re_match_group.
  by rewrite (re_match_unit_re [a; b] _ _ [(2, [a; b]); (1, n)]).
Qed.

Lemma extract_file_size_size_text_fixed x :
  size_text x -> extract_file_size x = Some x.
Proof.
  intros (n & u & Hn & Hu & ->). unfold extract_file_size.
  destruct (n ++ " "%char :: u) eqn:E; [by destruct n|]. rewrite <- E.
  unfold size_patterns, first_size. by rewrite search_size_text.
Qed.

(** X3: every value of [extract_file_size] is a number, one space and a
    unit, and the extractor returns such a text unchanged: extracting from
    an extracted size gives the same size. *)
Theorem extract_file_size_idempotent (text r : str) :
  extract_file_size text = Some r ->
  size_text r /\ extract_file_size r = Some r.
Proof.
  intros E. apply extract_file_size_size_text in E.
  split; [done | by apply extract_file_size_size_text_fixed].
Qed.

Lemma extract_file_size_idempotent_witness :
  extract_file_size (s "Taille : 6.92   mo (PDF)") = Some (s "6.92 mo")
  /\ size_text (s "6.92 mo")
  /\ extract_file_size (s "6.92 mo") = Some (s "6.92 mo").
Proof.
  split; [reflexivity|].
  apply (extract_file_size_idempotent (s "Taille : 6.92   mo (PDF)")). reflexivity.
Defined.

(** ** Dates *)

Lemma extract_date_from_text_date_text text r :
  extract_date_from_text text = Some r -> date_text r.
Proof.
  unfold extract_date_from_text. destruct text as [|c text]; [done|].
  unfold date_patterns, first_date.
  pose proof (search_date_pattern "/" (c :: text)) as H1.
  destruct (search (date_pattern "/") (c :: text)) as [g|].
  { intros [= <-]. destruct H1 as (d & m & y & (Hd & Hm & Hy & _) & <- & <- & <-).
    by exists (group 1 g), (group 2 g), (group 3 g). }
  pose proof (search_date_pattern "-" (c :: text)) as H2.
  destruct (search (date_pattern "-") (c :: text)) as [g|].
  { intros [= <-]. destruct H2 as (d & m & y & (Hd & Hm & Hy & _) & <- & <- & <-).
    by exists (group 1 g), (group 2 g), (group 3 g). }
  by rewrite search_poste_le.
Qed.

Lemma re_match_digit_1_2 {A} d sep x g (k : str -> caps -> option A) v :
  day_or_month d -> isdecimal sep = false ->
  k (sep :: x) g = Some v ->
  re_match digit_1_2 (d ++ sep :: x) g k = Some v.
Proof.
  intros [Hlen Hd] Hsep Hk.
  destruct d as [|a [|b [|c d]]]; simpl in Hlen; try lia.
  - apply Forall_cons_1 in Hd as [Ha _].
    unfold digit_1_2, digit. simpl. by rewrite Ha, Hsep, Hk.
  - apply Forall_cons_1 in Hd as [Ha Hd]. apply Forall_cons_1 in Hd as [Hb _].
    unfold digit_1_2, digit. simpl. by rewrite Ha, Hb, Hk.
Qed.

Lemma re_match_digit_4 {A} y g (k : str -> caps -> option A) :
  four_digits y -> re_match digit_4 y g k = k [] g.
Proof.
  intros [Hlen Hd].
  destruct y as [|a [|b [|c [|d [|e y]]]]]; try discriminate Hlen.
  repeat match goal with
  | H : all_digits (_ :: _) |- _ => apply Forall_cons_1 in H as [? H]
  | H : Forall _ (_ :: _) |- _ => apply Forall_cons_1 in H as [? H]
  end.
  unfold digit_4, digit. simpl.
  by repeat match goal with H : isdecimal _ = true |- _ => rewrite H; clear H end.
Qed.

(** On day, month and year joined by [sep] the date pattern matches at
    once, and whole. *)
Lemma search_date_text sep d m y :
  isdecimal sep = false ->
  day_or_month d -> day_or_month m -> four_digits y ->
  search (date_pattern sep) (d ++ sep :: m ++ sep :: y)
  = Some [(3, y); (2, m); (1, d)].
Proof.
  intros Hsep Hd Hm Hy. apply search_here. unfold date_pattern.
  rewrite re_match_seq, re_match_group.
  apply re_match_digit_1_2; [done | done |].
  rewrite take_prefix, re_match_seq, re_match_chr, char_eqb_refl.
  rewrite re_match_seq, re_match_group.
  apply re_match_digit_1_2; [done | done |].
  rewrite take_prefix, re_match_seq, re_match_chr, char_eqb_refl.
  rewrite re_match_group, re_match_digit_4 by done.
  cbn [length]. by rewrite Nat.sub_0_r, firstn_all.
Qed.

Lemma extract_date_from_text_date_text_fixed x :
  date_text x -> extract_date_from_text x = Some x.
Proof.
  intros (d & m & y & Hd & Hm & Hy & ->). unfold extract_date_from_text, slashed.
  change (d ++ s "/" ++ m ++ s "/" ++ y) with (d ++ "/"%char :: m ++ "/"%char :: y).
  destruct (d ++ "/"%char :: m ++ "/"%char :: y) eqn:E; [by destruct d|].
  rewrite <- E. unfold date_patterns, first_date.
  by rewrite search_date_text.
Qed.

(** X4: every value of [extract_date_from_text] is a day and a month of
    one or two digits and a year of four digits joined by slashes, and the
    extractor returns such a text unchanged. *)
Theorem extract_date_from_text_idempotent (text r : str) :
  extract_date_from_text text = Some r ->
  date_text r /\ extract_date_from_text r = Some r.
Proof.
  intros E. apply extract_date_from_text_date_text in E.
  split; [done | by apply extract_date_from_text_date_text_fixed].
Qed.

Lemma extract_date_from_text_idempotent_witness :
  extract_date_from_text (s "Mis en ligne le 5-6-2025 a 10h") = Some (s "5/6/2025")
  /\ date_text (s "5/6/2025")
  /\ extract_date_from_text (s "5/6/2025") = Some (s "5/6/2025").
Proof.
  split; [reflexivity|].
  apply (extract_date_from_text_idempotent (s "Mis en ligne le 5-6-2025 a 10h")).
  reflexivity.
Defined.

(** * Further properties of the title normaliser *)

Lemma normalize_replaced title :
  _normalize_title title = replace_from pattern_l pattern_le 0 (collapsed title)
  /\ canonical (_normalize_title title).
Proof.
  assert (canonical (replace_from pattern_l pattern_le 0 (collapsed title))) as Hc
    by apply canonical_replace, collapsed_canonical.
  assert (_normalize_title title = replace_from pattern_l pattern_le 0 (collapsed title))
    as E.
  { destruct title as [|c title]; [reflexivity|].
    rewrite normalize_unfold by done.
    destruct Hc as [(ws & -> & Hws) _ _]. by apply collapse_join. }
  by rewrite E.
Qed.

Lemma spaced_no_double_space z : forall b,
  spaced_from b z = true -> contains dsp z = false.
Proof.
  induction z as [|c z IH]; intros b H; [done|].
  simpl in H. cbn [contains].
  assert (startswith dsp (c :: z) = false) as ->.
  { change dsp with [" "%char; " "%char]. cbn [startswith].
    destruct (char_eqb " " c) eqn:E; [|done].
    apply char_eqb_eq in E as <-. change (isspace " ") with true in H. cbv iota in H.
    apply andb_true_iff in H as [_ H]. destruct z as [|c' z]; [done|].
    cbn [spaced_from] in H. destruct (char_eqb " " c') eqn:E'; [|done].
    apply char_eqb_eq in E' as <-. change (isspace " ") with true in H.
    cbv iota in H. discriminate H. }
  destruct (isspace c).
  - apply andb_true_iff in H as [_ H]. by rewrite (IH _ H).
  - by rewrite (IH _ H).
Qed.

Lemma canonical_no_double_space z : canonical z -> contains dsp z = false.
Proof.
  intros [(ws & -> & Hws) _ _]. destruct ws as [|w ws]; [done|].
  apply (spaced_no_double_space _ true), spaced_from_join; done.
Qed.

Lemma canonical_plain_space z : canonical z -> Forall plain_space z.
Proof.
  intros [(ws & -> & Hws) _ _]. apply Forall_join; [done|].
  eapply Forall_impl; [exact Hws|]. intros w [_ Hw]. unfold nospace in Hw.
  eapply Forall_impl; [exact Hw|]. intros c Hc Hs. congruence.
Qed.

Lemma kept_punctuation c :
  kept c -> In c punctuation -> c = "-"%char \/ c = "."%char.
Proof.
  unfold kept. intros Hk Hin. unfold punctuation, s in Hin. simpl in Hin.
  repeat destruct Hin as [<- | Hin]; try discriminate Hk; auto. done.
Qed.

(** X5: the normalised title of any title is in lower case, has no white
    space at either end, no white space other than single spaces between
    its words, and of the punctuation characters only hyphens and
    periods. *)
Theorem normalize_title_shape (title : str) :
  lower (_normalize_title title) = _normalize_title title
  /\ strip (_normalize_title title) = _normalize_title title
  /\ contains (s "  ") (_normalize_title title) = false
  /\ Forall (fun c => isspace c = true -> c = " "%char) (_normalize_title title)
  /\ Forall (fun c => In c punctuation -> c = "-"%char \/ c = "."%char)
       (_normalize_title title).
Proof.
  destruct (normalize_replaced title) as [_ Hc].
  split; [apply lower_fixed, Hc|].
  split; [destruct Hc as [(ws & -> & Hws) _ _]; by apply strip_join|].
  split; [by apply canonical_no_double_space|].
  split; [by apply canonical_plain_space|].
  eapply Forall_impl; [apply (can_kept _ Hc)|]. intros c Hk Hin. exact (kept_punctuation c Hk Hin).
Qed.

Lemma lstrip_decomp x : exists l, spaces l /\ x = l ++ lstrip x.
Proof.
  induction x as [|c x (l & Hl & E)]; [exists []; split; [constructor | done]|].
  simpl. destruct (isspace c) eqn:Ec.
  - exists (c :: l). split; [by constructor|]. simpl. by rewrite <- E.
  - exists []. split; [constructor | done].
Qed.

Lemma strip_decomp x :
  exists l r, spaces l /\ spaces r /\ x = l ++ strip x ++ r.
Proof.
  destruct (lstrip_decomp x) as (l & Hl & El).
  destruct (lstrip_decomp (rev (lstrip x))) as (r & Hr & Er).
  exists l, (rev r). split; [done|]. split.
  - unfold spaces. apply Forall_forall. intros c Hc.
    apply list_elem_of_In, in_rev, list_elem_of_In in Hc.
    unfold spaces in Hr. rewrite Forall_forall in Hr. by apply Hr.
  - unfold strip, rstrip. rewrite <- rev_app_distr, <- Er, rev_involutive. exact El.
Qed.

Lemma delete_chars_app d a b :
  delete_chars d (a ++ b) = delete_chars d a ++ delete_chars d b.
Proof. apply List.filter_app. Qed.

Lemma split_from_spaces_l l x : spaces l -> split_from [] (l ++ x) = split_from [] x.
Proof.
  induction 1 as [|c l Hc Hl IH]; [done|]. simpl. by rewrite Hc.
Qed.

Lemma split_from_spaces_r x : forall w r,
  spaces r -> split_from w (x ++ r) = split_from w x.
Proof.
  induction x as [|c x IH]; intros w r Hr.
  - simpl. revert w. induction Hr as [|c r Hc Hr IH]; intros w; [done|].
    simpl. rewrite Hc. rewrite (IH []). by destruct w.
  - simpl. destruct (isspace c); [|by apply IH].
    destruct w; by rewrite IH.
Qed.

Lemma deleted_keeps_spaces r : spaces r -> spaces (delete_chars deleted r).
Proof. apply Forall_delete_chars. Qed.

(** The collapsed title is made of the words of the title. *)
Lemma collapsed_title_words title : collapsed title = join sp (title_words title).
Proof.
  unfold collapsed, title_words. f_equal.
  destruct (strip_decomp (lower title)) as (l & r & Hl & Hr & E).
  rewrite E at 2. rewrite !delete_chars_app. unfold split.
  rewrite split_from_spaces_l by by apply deleted_keeps_spaces.
  by rewrite split_from_spaces_r by by apply deleted_keeps_spaces.
Qed.

(** X6: two titles with the same words - the runs of characters between
    white space, in lower case and without the deleted punctuation - have
    the same normalised title: letter case, the amount and kind of white
    space, and punctuation other than hyphens and periods make no
    difference to de-duplication by title. *)
Theorem normalize_title_same_words (t1 t2 : str) :
  title_words t1 = title_words t2 -> _normalize_title t1 = _normalize_title t2.
Proof.
  intros E. destruct (normalize_replaced t1) as [-> _].
  destruct (normalize_replaced t2) as [-> _].
  by rewrite !collapsed_title_words, E.
Qed.

Lemma normalize_title_same_words_witness :
  title_words (s "Rapport,  Annuel (2024)!") = title_words (s " rapport annuel 2024 ")
  /\ _normalize_title (s "Rapport,  Annuel (2024)!")
     = _normalize_title (s " rapport annuel 2024 ").
Proof.
  split; [reflexivity|].
  apply (normalize_title_same_words (s "Rapport,  Annuel (2024)!")). reflexivity.
Defined.

(** * Further properties of the page parser *)

Lemma search_doc_re href g :
  search doc_re href = Some g ->
  contains (s ".pdf") (lower href) = true \/ contains (s ".doc") (lower href) = true.
Proof.
  intros H. apply search_sound in H as (pre & u & post & -> & Hm).
  unfold doc_re in Hm. cbn [alts] in Hm.
  apply matches_seq_inv in Hm as (v & w & g1 & -> & Hv & Hw).
  apply matches_chr_inv in Hv as (c & -> & Hc & ->).
  apply char_eqb_eq in Hc as <-.
  apply matches_group_inv in Hw as (g2 & Hw & _).
  assert (forall l, lower w = lower l ->
            contains ("."%char :: lower l) (lower (pre ++ (["."%char] ++ w) ++ post)) = true)
    as Hfound.
  { intros l E. apply contains_spec. exists (lower pre), (lower post).
    unfold lower in *. rewrite !map_app. cbn [map]. by rewrite E. }
  apply matches_alt_inv in Hw as [Hw | Hw].
  { left. apply matches_lit_i in Hw as [Hw _]. by apply (Hfound (s "pdf")). }
  apply matches_alt_inv in Hw as [Hw | Hw].
  { right. apply matches_lit_i in Hw as [Hw _]. by apply (Hfound (s "doc")). }
  right. apply matches_lit_i in Hw as [Hw _].
  apply (Hfound (s "docx")) in Hw. apply contains_spec in Hw as (a & b & E).
  apply contains_spec. exists a, ("x"%char :: b). by rewrite E.
Qed.

Lemma known_publications_well_formed : Forall well_formed known_publications.
Proof.
  assert (forall i f u, digit_run (s i) -> digit_run (s f) -> size_unit (s u) ->
            size_text (s i ++ "."%char :: s f ++ " "%char :: s u)) as Hsize.
  { intros i f u Hi Hf Hu. exists (s i ++ "."%char :: s f), (s u).
    split; [right; exists (s i), (s f); auto|]. split; [done|].
    by rewrite <- app_assoc. }
  assert (forall d m y, day_or_month (s d) -> day_or_month (s m) -> four_digits (s y) ->
            date_text (slashed (s d) (s m) (s y))) as Hdate.
  { intros d m y Hd Hm Hy. by exists (s d), (s m), (s y). }
  assert (forall d, forallb isdecimal d = true -> all_digits d) as Hdigits.
  { intros d H. destruct d as [|c d]; [constructor|].
    by apply digit_run_intro in H as [_ H]. }
  unfold known_publications.
  constructor; [split | constructor; [split | constructor]];
    cbn [file_size date_posted category file_type].
  - apply (Hsize "6" "92" "Mo"); try (by apply digit_run_intro).
    unfold size_unit. simpl. tauto.
  - apply (Hdate "26" "06" "2025"); (split; [simpl; auto | by apply Hdigits]).
  - by left.
  - by left.
  - exists (s "1755"), (s "ko"). split; [left; by apply digit_run_intro|].
    split; [|done]. unfold size_unit. simpl. tauto.
  - apply (Hdate "22" "05" "2025"); (split; [simpl; auto | by apply Hdigits]).
  - right. by left.
  - by left.
Qed.

Section ParserShape.

Variable urljoin : str -> str -> option str.
Variable BeautifulSoup : str -> node.

Lemma extract_date_date_text element d :
  extract_date element = Some d -> date_text d.
Proof.
  cbv delta [extract_date] beta.
  generalize (element :: take 3 (find_parents element)).
  intros l. induction l as [|e l IH]; simpl; [done|].
  destruct (extract_date_from_text (get_text (t_node e))) as [d'|] eqn:E; [|done].
  intros [= <-]. by eapply extract_date_from_text_date_text.
Qed.

Lemma extract_category_label element :
  In (extract_category element) (category_labels ++ [non_classe]).
Proof.
  unfold extract_category. generalize (find_parents element).
  intros l. induction l as [|e l IH].
  - apply in_or_app. right. by left.
  - cbv beta zeta. destruct (existsb _ _); [apply extract_category_from_text_label | done].
Qed.

(** In a text that holds one of the three labels, the category is the
    first of the three that it holds. *)
Lemma extract_category_from_text_first_three text :
  existsb (fun cat => contains cat text) link_labels = true ->
  exists before after,
    link_labels = before ++ extract_category_from_text text :: after
    /\ contains (extract_category_from_text text) text = true
    /\ Forall (fun l => contains l text = false) before.
Proof.
  unfold extract_category_from_text, link_labels. cbn [existsb first_contained].
  destruct (contains cat_rapport text) eqn:E1.
  { intros _. exists [], [cat_autres; cat_publications]. repeat split; [done | constructor]. }
  destruct (contains cat_autres text) eqn:E2.
  { intros _. exists [cat_rapport], [cat_publications].
    repeat split; [done|]. by repeat constructor. }
  destruct (contains cat_publications text) eqn:E3; [|done].
  intros _. exists [cat_rapport; cat_autres], [].
  repeat split; [done|]. by repeat constructor.
Qed.

Lemma existsb_unlabelled t :
  existsb (fun cat => contains cat (get_text (t_node t))) link_labels = false ->
  unlabelled t.
Proof.
  unfold unlabelled, link_labels. cbn [existsb]. intros H.
  apply orb_false_iff in H as [H1 H]. apply orb_false_iff in H as [H2 H].
  apply orb_false_iff in H as [H3 _]. by repeat constructor.
Qed.

(** The ancestor that decides: the nearest one that holds a label. *)
Lemma extract_category_nearest element :
  (exists before parent after,
     find_parents element = before ++ parent :: after
     /\ Forall unlabelled before
     /\ existsb (fun cat => contains cat (get_text (t_node parent))) link_labels = true
     /\ extract_category element = extract_category_from_text (get_text (t_node parent)))
  \/ (Forall unlabelled (find_parents element)
      /\ extract_category element = non_classe).
Proof.
  cbv delta [extract_category] beta. fold link_labels.
  generalize (find_parents element). intros l.
  induction l as [|e l IH]; [right; split; [constructor | done]|].
  cbn fix beta iota. cbv zeta.
  destruct (existsb (fun cat => contains cat (get_text (t_node e))) link_labels) eqn:E.
  - left. exists [], e, l. repeat split; [constructor | done].
  - apply existsb_unlabelled in E.
    destruct IH as [(before & parent & after & -> & Hb & Hp & Hc) | [Hl Hc]].
    + left. exists (e :: before), parent, after. repeat split; try done. by constructor.
    + right. split; [by constructor | done].
Qed.

(** X7: [extract_category] reads the ancestors of a link from the nearest
    one on and stops at the first one whose text holds one of the labels
    "Rapport d'activités", "Autres rapports" and "Publications"; the
    category is the first of these three labels that this ancestor holds.
    Without such an ancestor the category is the sentinel.  The category
    of a link is therefore never "Documents". *)
Theorem extract_category_never_documents (element : tag) :
  ((exists before parent after labels_before labels_after,
      find_parents element = before ++ parent :: after
      /\ Forall unlabelled before
      /\ link_labels = labels_before ++ extract_category element :: labels_after
      /\ contains (extract_category element) (get_text (t_node parent)) = true
      /\ Forall (fun l => contains l (get_text (t_node parent)) = false) labels_before)
   \/ (Forall unlabelled (find_parents element)
       /\ extract_category element = non_classe))
  /\ extract_category element <> cat_documents.
Proof.
  destruct (extract_category_nearest element)
    as [(before & parent & after & Ep & Hb & Hp & Hc) | [Hl Hc]].
  - apply extract_category_from_text_first_three in Hp as (lb & la & El & Hin & Hlb).
    rewrite <- Hc in El, Hin. split.
    + left. by exists before, parent, after, lb, la.
    + intros E.
      assert (In (extract_category element) link_labels) as H.
      { rewrite El. apply in_or_app. right. by left. }
      rewrite E in H. destruct H as [H | [H | [H | []]]]; discriminate H.
  - split; [by right|]. rewrite Hc. discriminate.
Qed.

Lemma find_found names keep t d :
  find names keep t = Some d -> keep d = true.
Proof.
  unfold find, find_all. intros H.
  assert (In d (List.filter (fun d => existsb (str_eqb (name d)) names && keep d)
                  (descendants (t_parents t) (t_node t)))) as Hin.
  { destruct (List.filter _ _); [done|]. injection H as ->. by left. }
  apply filter_In in Hin as [_ Hin]. by apply andb_true_iff in Hin as [_ Hin].
Qed.

(** The record of a section. *)
Lemma section_record_well_formed section p :
  extract_publication_from_section urljoin section = Some p -> well_formed p.
Proof.
  unfold extract_publication_from_section.
  set (title := match find headings _ section with Some e => _ | None => _ end).
  destruct (find [s "a"] (href_matches doc_re) section) as [link|] eqn:Ef.
  - apply find_found in Ef. unfold href_matches in Ef.
    destruct (get link (s "href")) as [href|]; [|done].
    destruct (search doc_re href) as [g|] eqn:Es; [|done].
    apply search_doc_re in Es. cbn [default from_option id]. cbv zeta.
    destruct (urljoin base_url href) as [url|]; [|done].
    destruct title; [done|]. destruct url; [done|].
    intros Hp. apply (inj Some) in Hp. subst p.
    split; cbn [file_size date_posted category file_type].
    + destruct (extract_file_size _) eqn:E; [|done].
      by eapply extract_file_size_size_text.
    + destruct (extract_date_from_text _) eqn:E; [|done].
      by eapply extract_date_from_text_date_text.
    + apply extract_category_from_text_label.
    + destruct (contains (s ".pdf") (lower href)); [by left|].
      destruct Es as [Es | Es]; [done|]. rewrite Es. right. by left.
  - cbv zeta. by destruct title.
Qed.

(** The record of a link whose [href] matched [\.pdf]. *)
Lemma link_record_well_formed soup link p :
  In link (pdf_links soup) ->
  extract_publication_info urljoin link = Some p -> well_formed p.
Proof.
  intros Hin Hp. pose proof (pdf_link_file_type urljoin soup link p Hin Hp) as Htype.
  revert Hp. unfold extract_publication_info.
  destruct (get link (s "href")) as [[|c href]|]; try done.
  destruct (urljoin base_url (c :: href)) as [url|]; [|done].
  intros Hp. cbv beta match zeta in Hp. apply (inj Some) in Hp. subst p.
  cbn [file_type] in Htype. split; cbn [file_size date_posted category file_type].
  - destruct (extract_file_size (get_text (t_node link))) eqn:E.
    { by eapply extract_file_size_size_text. }
    destruct (find_parent link) as [parent|]; [|done].
    destruct (extract_file_size (get_text (t_node parent))) eqn:E'; [|done].
    by eapply extract_file_size_size_text.
  - destruct (extract_date link) eqn:E; [|done]. by eapply extract_date_date_text.
  - apply extract_category_label.
  - rewrite Htype. by left.
Qed.

Lemma alternative_parsing_known soup p :
  In p (alternative_parsing soup) -> In p known_publications.
Proof. unfold alternative_parsing. by intros [H _]%filter_In. Qed.

(** X8: in every publication that [parse_publications] returns, the size
    is unset or a number, one space and a unit; the date is unset or day,
    month and year in digits joined by slashes; the category is one of the
    four labels or the sentinel; and the file type is "PDF" or "DOC",
    never "Unknown". *)
Theorem parse_publications_well_formed (html_content : str) :
  Forall well_formed (parse_publications urljoin BeautifulSoup html_content).
Proof.
  unfold parse_publications. set (soup := soup_of BeautifulSoup html_content).
  assert (Forall well_formed (publications (sections_or_links urljoin soup))) as Hfirst.
  { unfold sections_or_links. destruct (publication_sections soup) eqn:Es.
    - unfold link_tier. apply Forall_publications_fold; [constructor|].
      intros p (link & Hl & Hin)%in_map_iff. by eapply link_record_well_formed.
    - unfold section_tier. apply Forall_publications_fold; [constructor|].
      intros p (section & Hl & Hin)%in_map_iff. by eapply section_record_well_formed. }
  unfold parse_soup.
  destruct (publications (sections_or_links urljoin soup)) eqn:Ep; [|by rewrite Ep].
  unfold known_tier. apply Forall_publications_fold.
  - cbn [enter publications]. rewrite Ep. constructor.
  - intros p (q & [= ->] & Hin)%in_map_iff.
    pose proof known_publications_well_formed as Hk. rewrite Forall_forall in Hk.
    by apply Hk, list_elem_of_In, (alternative_parsing_known soup).
Qed.

Lemma consider_grows st c :
  (exists added, publications (consider st c) = publications st ++ added)
  /\ seen_urls st ⊆ seen_urls (consider st c)
  /\ seen_titles st ⊆ seen_titles (consider st c).
Proof.
  destruct c as [p|]; simpl.
  - destruct (_is_unique_publication p _ _); simpl.
    + split; [by exists [p]|]. split; set_solver.
    + split; [exists []; by rewrite app_nil_r|]. split; set_solver.
  - split; [exists []; by rewrite app_nil_r|]. split; set_solver.
Qed.

Lemma fold_consider_grows cs : forall st,
  (exists added, publications (fold_left consider cs st) = publications st ++ added)
  /\ seen_urls st ⊆ seen_urls (fold_left consider cs st)
  /\ seen_titles st ⊆ seen_titles (fold_left consider cs st).
Proof.
  induction cs as [|c cs IH]; intros st.
  - split; [exists []; by rewrite app_nil_r|]. split; set_solver.
  - simpl. destruct (IH (consider st c)) as ([a2 E2] & Hu2 & Ht2).
    destruct (consider_grows st c) as ([a1 E1] & Hu1 & Ht1).
    split; [exists (a1 ++ a2); by rewrite E2, E1, app_assoc|].
    split; [by etrans | by etrans].
Qed.

Lemma is_unique_false_mono p urls titles urls' titles' :
  urls ⊆ urls' -> titles ⊆ titles' ->
  _is_unique_publication p urls titles = false ->
  _is_unique_publication p urls' titles' = false.
Proof.
  intros Hu Ht H. destruct (_is_unique_publication p urls' titles') eqn:E; [|done].
  apply is_unique_true in E as (H1 & H2 & H3 & H4).
  rewrite <- H. symmetry. apply is_unique_true. repeat split; try done; set_solver.
Qed.

(** X9: whatever candidates a loop of [parse_publications] goes through,
    the publications accepted before it stay where they are at the head of
    the list, the two sets only grow, and a candidate that was a duplicate
    before the loop is a duplicate after it. *)
Theorem consider_monotone (cs : list (option publication)) (st : parse_state) :
  (exists added, publications (fold_left consider cs st) = publications st ++ added)
  /\ seen_urls st ⊆ seen_urls (fold_left consider cs st)
  /\ seen_titles st ⊆ seen_titles (fold_left consider cs st)
  /\ forall p,
       _is_unique_publication p (seen_urls st) (seen_titles st) = false ->
       _is_unique_publication p (seen_urls (fold_left consider cs st))
         (seen_titles (fold_left consider cs st)) = false.
Proof.
  destruct (fold_consider_grows cs st) as (Ha & Hu & Ht).
  repeat split; try done. intros p. by apply is_unique_false_mono.
Qed.

(** X10: when the sections and the links give no publication, the result
    of [parse_publications] is the list of the known records whose title
    occurs in the text of the page, none of them dropped as a duplicate;
    when they give some, the known records are not looked at. *)
Theorem parse_publications_fallback (html_content : str) :
  parse_publications urljoin BeautifulSoup html_content
  = match first_records urljoin (soup_of BeautifulSoup html_content) with
    | [] => List.filter
              (fun pub => contains (title pub)
                            (get_text (BeautifulSoup html_content)))
              known_publications
    | kept => kept
    end.
Proof.
  unfold parse_publications, parse_soup, first_records.
  set (soup := soup_of BeautifulSoup html_content).
  destruct (publications (sections_or_links urljoin soup)) eqn:Ep; [|done].
  unfold known_tier. rewrite publications_fold_first_seen.
  - cbn [enter publications]. rewrite Ep. apply first_seen_known.
  - apply consistent_enter, consistent_sections_or_links.
Qed.

Lemma NoDup_map_factor {A B C} (f : A -> B) (g : B -> C) (l : list A) :
  NoDup (map (fun x => g (f x)) l) -> NoDup (map f l).
Proof.
  induction l as [|a l IH]; [constructor|].
  cbn [map]. intros H. apply NoDup_cons in H as [Hin H].
  apply NoDup_cons. split; [|by apply IH].
  intros Ha. apply Hin. apply list_elem_of_In in Ha. apply list_elem_of_In.
  apply in_map_iff in Ha as (x & E & Hx). apply in_map_iff. exists x.
  by rewrite E.
Qed.

(** X11: no two publications returned by [parse_publications] have
    titles with the same words: of the candidates whose titles differ only
    in letter case, white space or deleted punctuation, one is kept. *)
Theorem parse_publications_distinct_words (html_content : str) :
  NoDup (map (fun p => title_words (title p))
           (parse_publications urljoin BeautifulSoup html_content)).
Proof.
  unfold parse_publications.
  pose proof (cons_titles _ (consistent_parse_soup urljoin
                               (soup_of BeautifulSoup html_content))) as H.
  apply (NoDup_map_factor (fun p => title_words (title p))
           (fun ws => replace_from pattern_l pattern_le 0 (join sp ws))).
  erewrite map_ext; [exact H|]. intros p. cbv beta. unfold title_key.
  destruct (normalize_replaced (title p)) as [-> _]. by rewrite collapsed_title_words.
Qed.

End ParserShape.

(** * Further properties of the analysis *)

(** ** Counters *)

Lemma Counter_fold `{Countable K} (xs : list K) : forall (m : gmap K nat) x,
  fold_left (fun m x => <[ x := S (default 0 (m !! x)) ]> m) xs m !! x
  = match occurrences x xs with
    | O => m !! x
    | S n => Some (default 0 (m !! x) + S n)
    end.
Proof.
  unfold occurrences.
  induction xs as [|a xs IH]; intros m x; [done|].
  cbn [fold_left List.filter]. rewrite IH. case_bool_decide as Hax.
  - subst a. rewrite lookup_insert_eq. cbn [length default from_option id].
    destruct (length _); f_equal; lia.
  - by rewrite lookup_insert_ne.
Qed.

Lemma Counter_lookup `{Countable K} (xs : list K) x :
  Counter xs !! x = counted (occurrences x xs).
Proof.
  unfold Counter. rewrite Counter_fold, lookup_empty. by destruct (occurrences x xs).
Qed.

(** X12: in a report, the total is the length of the list, and the three
    counters hold, for every category, file type and year, the number of
    publications that have it, and nothing for those that no publication
    has; the years counted are those that could be read from a date. *)
Theorem analyze_publications_counts (pubs : list publication) (r : report) :
  analyze_publications pubs = Return (Analysis r) ->
  total_publications r = length pubs
  /\ publications_list r = pubs
  /\ (forall c, categories r !! c = counted (occurrences c (map category pubs)))
  /\ (forall t, file_types r !! t = counted (occurrences t (map file_type pubs)))
  /\ (forall y, publications_by_year r !! y = counted (occurrences y (collect_years pubs))).
Proof.
  unfold analyze_publications. destruct pubs as [|p pubs]; [done|].
  destruct (collect_years (p :: pubs)) as [|y years] eqn:Ey.
  - intros [= <-]. cbn [total_publications publications_list categories file_types
                        publications_by_year].
    repeat split; intros; apply Counter_lookup.
  - destruct (find_latest _ _) as [latest|]; [|done].
    intros [= <-]. cbn [total_publications publications_list categories file_types
                        publications_by_year].
    repeat split; intros; apply Counter_lookup.
Qed.

Lemma analyze_publications_counts_witness :
  analyze_publications dated_list = Return (Analysis (report_of dated_list))
  /\ total_publications (report_of dated_list) = length dated_list
  /\ publications_list (report_of dated_list) = dated_list
  /\ (forall c, categories (report_of dated_list) !! c
                = counted (occurrences c (map category dated_list)))
  /\ (forall t, file_types (report_of dated_list) !! t
                = counted (occurrences t (map file_type dated_list)))
  /\ (forall y, publications_by_year (report_of dated_list) !! y
                = counted (occurrences y (collect_years dated_list))).
Proof.
  split; [reflexivity|]. apply (analyze_publications_counts dated_list). reflexivity.
Defined.

(** ** When the analysis raises *)

Lemma find_latest_raises year pubs :
  find_latest year pubs = Raise TypeError <-> reaches_undated year pubs.
Proof.
  split.
  - induction pubs as [|pub pubs IH]; [done|]. simpl.
    destruct (date_posted pub) as [d|] eqn:Ed.
    + destruct (contains year d) eqn:Ec; [done|]. intros H.
      destruct (IH H) as (before & p & after & -> & Hp & Hb).
      exists (pub :: before), p, after. repeat split; try done.
      constructor; [by exists d | done].
    + intros _. exists [], pub, pubs. repeat split; try done. constructor.
  - intros (before & p & after & -> & Hp & Hb). by apply find_latest_undated.
Qed.

(** X13: [analyze_publications] raises (a [TypeError]) exactly when some
    year can be read from a date and the search for the latest publication
    reaches a record without date before a record whose date contains the
    greatest year; in every other case it returns. *)
Theorem analyze_publications_raises (pubs : list publication) :
  analyze_publications pubs = Raise TypeError
  <-> exists y years,
        collect_years pubs = y :: years
        /\ reaches_undated (str_of_Z (max_year y years)) pubs.
Proof.
  unfold analyze_publications. destruct pubs as [|p pubs].
  { split; [done | by intros (y & years & E & _)]. }
  destruct (collect_years (p :: pubs)) as [|y years] eqn:Ey.
  { split; [done | by intros (y & years & E & _)]. }
  split.
  - intros H. exists y, years. split; [done|]. apply find_latest_raises.
    destruct (find_latest _ (p :: pubs)) as [latest|[]]; done.
  - intros (y' & years' & [= <- <-] & H%find_latest_raises). by rewrite H.
Qed.

(** ** The latest publication *)

Lemma find_latest_found year pubs p :
  find_latest year pubs = Return (Some p) ->
  exists before after d,
    pubs = before ++ p :: after /\ date_posted p = Some d
    /\ contains year d = true /\ passed_over year before.
Proof.
  induction pubs as [|pub pubs IH]; [done|]. simpl.
  destruct (date_posted pub) as [d|] eqn:Ed; [|done].
  destruct (contains year d) eqn:Ec.
  - intros [= <-]. exists [], pubs, d. repeat split; try done. constructor.
  - intros H. destruct (IH H) as (before & after & d' & -> & Hp & Hc & Hb).
    exists (pub :: before), after, d'. repeat split; try done.
    constructor; [by exists d | done].
Qed.

Lemma max_year_spec years : forall y,
  In (max_year y years) (y :: years)
  /\ Forall (fun z => (z <= max_year y years)%Z) (y :: years).
Proof.
  unfold max_year. induction years as [|z years IH]; intros y.
  - split; [by left|]. constructor; [simpl; lia | constructor].
  - cbn [fold_left]. destruct (IH (Z.max y z)) as [Hin Hle].
    apply Forall_cons_1 in Hle as [Hm Hle]. split.
    + destruct Hin as [Hin | Hin]; [|by right; right].
      rewrite <- Hin. destruct (Z.max_spec y z) as [[_ ->] | [_ ->]];
        [right; by left | by left].
    + constructor; [lia|]. constructor; [lia | done].
Qed.

(** X14: the latest publication of a report, when it has one, is the
    first record of the list whose date contains, as a substring, the
    greatest year that was read from the dates; every record before it has
    a date, in which that year does not occur. *)
Theorem latest_publication_first_of_greatest_year
    (pubs : list publication) (r : report) (p : publication) :
  analyze_publications pubs = Return (Analysis r) ->
  latest_publication r = Some p ->
  exists y years before after d,
    collect_years pubs = y :: years
    /\ In (max_year y years) (y :: years)
    /\ Forall (fun z => (z <= max_year y years)%Z) (y :: years)
    /\ pubs = before ++ p :: after
    /\ date_posted p = Some d
    /\ contains (str_of_Z (max_year y years)) d = true
    /\ passed_over (str_of_Z (max_year y years)) before.
Proof.
  unfold analyze_publications. destruct pubs as [|q pubs]; [done|].
  destruct (collect_years (q :: pubs)) as [|y years] eqn:Ey.
  { by intros [= <-]. }
  destruct (find_latest _ (q :: pubs)) as [latest|] eqn:Ef; [|done].
  intros [= <-]. cbn [latest_publication]. intros ->.
  apply find_latest_found in Ef as (before & after & d & E & Hp & Hc & Hb).
  destruct (max_year_spec years y) as [Hin Hle].
  by exists y, years, before, after, d.
Qed.

Lemma latest_publication_first_of_greatest_year_witness :
  analyze_publications dated_list = Return (Analysis (report_of dated_list))
  /\ latest_publication (report_of dated_list) = Some (dated "b.pdf" (Some "15/06/2025"))
  /\ exists y years before after d,
       collect_years dated_list = y :: years
       /\ In (max_year y years) (y :: years)
       /\ Forall (fun z => (z <= max_year y years)%Z) (y :: years)
       /\ dated_list = before ++ dated "b.pdf" (Some "15/06/2025") :: after
       /\ date_posted (dated "b.pdf" (Some "15/06/2025")) = Some d
       /\ contains (str_of_Z (max_year y years)) d = true
       /\ passed_over (str_of_Z (max_year y years)) before.
Proof.
  split; [reflexivity|]. split; [reflexivity|].
  apply (latest_publication_first_of_greatest_year dated_list (report_of dated_list));
    reflexivity.
Defined.

(** ** From the extractors to the analysis *)

Lemma digits_value_digits x : forall acc b,
  all_digits x -> x <> [] \/ b = true ->
  digits_value acc b x = Some (decimal_value acc x).
Proof.
  induction x as [|c x IH]; intros acc b Hx Hb.
  - destruct Hb as [Hb | ->]; done.
  - apply Forall_cons_1 in Hx as [Hc Hx]. simpl. rewrite Hc. apply IH; auto.
Qed.

Lemma isdecimal_not_int_space c : isdecimal c = true -> int_space c = false.
Proof. by destruct c as [[] [] [] [] [] [] [] []]. Qed.

Lemma int_lstrip_fixed c x : int_space c = false -> int_lstrip (c :: x) = c :: x.
Proof. intros H. simpl. by rewrite H. Qed.

Lemma int_of_str_unsigned c x :
  c <> "-"%char -> c <> "+"%char ->
  rev (int_lstrip (rev (int_lstrip (c :: x)))) = c :: x ->
  int_of_str (c :: x) = option_map Z.of_N (digits_value 0 false (c :: x)).
Proof.
  intros Hm Hp E. unfold int_of_str. rewrite E.
  destruct c as [[] [] [] [] [] [] [] []]; try reflexivity; congruence.
Qed.

(** [int] on a run of digits. *)
Lemma int_of_str_digits y :
  digit_run y -> int_of_str y = Some (Z.of_N (decimal_value 0 y)).
Proof.
  intros [Hne Hy].
  assert (exists y' l, y = y' ++ [l]) as (y' & l & Ey).
  { destruct (rev y) as [|l r] eqn:E.
    - apply (f_equal (@rev ascii)) in E. rewrite rev_involutive in E. done.
    - exists (rev r), l. apply (f_equal (@rev ascii)) in E.
      by rewrite rev_involutive in E. }
  assert (isdecimal l = true) as Hl.
  { unfold all_digits in Hy. rewrite Forall_forall in Hy. apply Hy.
    rewrite Ey. apply list_elem_of_In, in_or_app. right. by left. }
  destruct y as [|c x]; [done|].
  pose proof Hy as Hy'. apply Forall_cons_1 in Hy' as [Hc _].
  rewrite int_of_str_unsigned.
  - rewrite digits_value_digits by auto. reflexivity.
  - intros ->. discriminate Hc.
  - intros ->. discriminate Hc.
  - rewrite int_lstrip_fixed by by apply isdecimal_not_int_space.
    rewrite Ey, rev_app_distr. cbn [rev app].
    rewrite int_lstrip_fixed by by apply isdecimal_not_int_space.
    change (l :: rev y') with (rev [l] ++ rev y').
    by rewrite <- rev_app_distr, rev_involutive.
Qed.

Lemma after_last_app sep y : forall a,
  existsb (char_eqb sep) y = false -> after_last sep (a ++ sep :: y) = y.
Proof.
  intros a Hy. induction a as [|c a IH].
  - cbn [app after_last]. by rewrite Hy, char_eqb_refl.
  - cbn [app after_last]. rewrite IH.
    assert (existsb (char_eqb sep) (a ++ sep :: y) = true) as ->; [|done].
    apply existsb_exists. exists sep. split; [|apply char_eqb_refl].
    apply in_or_app. right. by left.
Qed.

Lemma digits_no_slash y : all_digits y -> existsb (char_eqb "/") y = false.
Proof.
  induction 1 as [|c y Hc Hy IH]; [done|]. cbn [existsb]. rewrite IH, orb_false_r.
  apply char_eqb_neq. intros <-. discriminate Hc.
Qed.

(** The year that the analysis reads from a date of the extractor. *)
Lemma year_of_date_text p d m y :
  day_or_month d -> day_or_month m -> four_digits y ->
  date_posted p = Some (slashed d m y) ->
  year_of p = Some (Z.of_N (decimal_value 0 y)).
Proof.
  intros [Hd _] Hm [Hlen Hy] Hp. unfold year_of. rewrite Hp.
  unfold slashed. change (d ++ s "/" ++ m ++ s "/" ++ y)
    with (d ++ "/"%char :: m ++ "/"%char :: y).
  destruct (d ++ "/"%char :: m ++ "/"%char :: y) as [|c x] eqn:E; [by destruct d|].
  rewrite <- E. clear E.
  assert (contains (s "/") (d ++ "/"%char :: m ++ "/"%char :: y) = true) as ->.
  { apply contains_spec. by exists d, (m ++ "/"%char :: y). }
  change (d ++ "/"%char :: m ++ "/"%char :: y)
    with (d ++ ["/"%char] ++ m ++ "/"%char :: y).
  rewrite !app_assoc, after_last_app by by apply digits_no_slash.
  apply int_of_str_digits. split; [by destruct y | done].
Qed.

(** X15: every date that [extract_date_from_text] produces is read by the
    analysis: the year of a record with such a date is the number written
    by the four digits after the last slash. *)
Theorem extracted_date_has_year (text x : str) (p : publication) :
  extract_date_from_text text = Some x ->
  date_posted p = Some x ->
  exists d m y,
    x = slashed d m y /\ four_digits y
    /\ year_of p = Some (Z.of_N (decimal_value 0 y)).
Proof.
  intros E Hp. apply extract_date_from_text_date_text in E as (d & m & y & Hd & Hm & Hy & ->).
  exists d, m, y. split; [done|]. split; [done|].
  exact (year_of_date_text p d m y Hd Hm Hy Hp).
Qed.

Lemma extracted_date_has_year_witness :
  extract_date_from_text (s "Mis en ligne le 5-6-2025") = Some (s "5/6/2025")
  /\ date_posted (dated "a.pdf" (Some "5/6/2025")) = Some (s "5/6/2025")
  /\ exists d m y,
       s "5/6/2025" = slashed d m y /\ four_digits y
       /\ year_of (dated "a.pdf" (Some "5/6/2025")) = Some (Z.of_N (decimal_value 0 y)).
Proof.
  split; [reflexivity|]. split; [reflexivity|].
  apply (extracted_date_has_year (s "Mis en ligne le 5-6-2025")); reflexivity.
Defined.

Lemma contains_two x y u :
  length u = 2 -> contains [x; y] u = str_eqb u [x; y].
Proof.
  destruct u as [|a [|b [|c u]]]; try discriminate. intros _.
  cbn [contains startswith str_eqb].
  rewrite !andb_true_r, !andb_false_r, !orb_false_r.
  by rewrite (char_eqb_sym x a), (char_eqb_sym y b).
Qed.

(** X16: a size that [extract_file_size] produces is counted by the
    analysis only when its unit is written exactly "Mo", "MB", "ko" or
    "KB": the extractor accepts the units in any letter case, the analysis
    reads them as written, and gigabytes and terabytes are not counted. *)
Theorem extracted_size_counted (text x : str) (p : publication) :
  extract_file_size text = Some x ->
  file_size p = Some x ->
  exists n u,
    x = n ++ " "%char :: u
    /\ size_in_mb p
       = if existsb (str_eqb u) [s "Mo"; s "MB"]
         then Some (float_of_decimal n)
         else if existsb (str_eqb u) [s "ko"; s "KB"]
              then Some (float_of_decimal n / 1024)%Q
              else None.
Proof.
  intros E Hp. apply extract_file_size_size_text in E as (n & u & Hn & Hu & ->).
  exists n, u. split; [done|].
  rewrite (size_in_mb_number_unit p n u Hp Hn).
  pose proof (size_unit_length u Hu) as Hlen.
  change (s "Mo") with ["M"%char; "o"%char]. change (s "MB") with ["M"%char; "B"%char].
  change (s "ko") with ["k"%char; "o"%char]. change (s "KB") with ["K"%char; "B"%char].
  rewrite !contains_two by done. cbn [existsb]. by rewrite !orb_false_r.
Qed.

Lemma extracted_size_counted_witness :
  extract_file_size (s "Taille : 12 mo") = Some (s "12 mo")
  /\ file_size (sized "a.pdf" "12 mo") = Some (s "12 mo")
  /\ size_in_mb (sized "a.pdf" "12 mo") = None
  /\ exists n u,
       s "12 mo" = n ++ " "%char :: u
       /\ size_in_mb (sized "a.pdf" "12 mo")
          = if existsb (str_eqb u) [s "Mo"; s "MB"]
            then Some (float_of_decimal n)
            else if existsb (str_eqb u) [s "ko"; s "KB"]
                 then Some (float_of_decimal n / 1024)%Q
                 else None.
Proof.
  split; [reflexivity|]. split; [reflexivity|]. split; [reflexivity|].
  apply (extracted_size_counted (s "Taille : 12 mo")); reflexivity.
Defined.

(** * Further properties of the run *)

Lemma publications_path_csv_path y y' : publications_path y <> csv_path y'.
Proof.
  unfold publications_path, csv_path. intros E. apply app_inv_head in E.
  apply (f_equal (@rev ascii)) in E. rewrite !rev_app_distr in E. discriminate E.
Qed.

Lemma analysis_path_csv_path y y' : analysis_path y <> csv_path y'.
Proof. unfold analysis_path, csv_path, s. simpl. discriminate. Qed.

Lemma csv_path_viewer_path y y' : csv_path y <> viewer_path y'.
Proof. unfold csv_path, viewer_path, s. simpl. discriminate. Qed.

Lemma fetch_succeeds_unique r h1 h2 :
  fetch_succeeds r h1 -> fetch_succeeds r h2 -> h1 = h2.
Proof. intros (c1 & -> & _) (c2 & [= _ ->] & _). done. Qed.

Lemma fetch_fails_not_succeeds r h : fetch_fails r -> ~ fetch_succeeds r h.
Proof. intros Hf (c & -> & Hc). by apply Hc. Qed.

Lemma fetch_fails_or_succeeds r : fetch_fails r \/ exists h, fetch_succeeds r h.
Proof.
  destruct r as [code text|]; [|by left].
  destruct (Nat.leb 400 code) eqn:H1, (Nat.ltb code 600) eqn:H2.
  - left. apply Nat.leb_le in H1. apply Nat.ltb_lt in H2. simpl. lia.
  - right. exists text, code. split; [done|]. apply Nat.ltb_ge in H2. lia.
  - right. exists text, code. split; [done|]. apply Nat.leb_gt in H1. lia.
  - right. exists text, code. split; [done|]. apply Nat.leb_gt in H1. lia.
Qed.

(** What is stored at the paths of the year, and what is left alone. *)

Lemma saved_publications clock t pubs a fs :
  saved clock t pubs a fs !! publications_path (year (clock t))
  = Some (PublicationsJson pubs a (isoformat (clock (S t))) target_url (length pubs)).
Proof.
  unfold saved. destruct pubs.
  - rewrite lookup_insert_ne by apply not_eq_sym, publications_path_analysis_path.
    by rewrite lookup_insert_eq.
  - rewrite lookup_insert_ne by apply not_eq_sym, publications_path_csv_path.
    rewrite lookup_insert_ne by apply not_eq_sym, publications_path_analysis_path.
    by rewrite lookup_insert_eq.
Qed.

Lemma saved_analysis clock t pubs a fs :
  saved clock t pubs a fs !! analysis_path (year (clock t)) = Some (AnalysisJson a).
Proof.
  unfold saved. destruct pubs.
  - by rewrite lookup_insert_eq.
  - rewrite lookup_insert_ne by apply not_eq_sym, analysis_path_csv_path.
    by rewrite lookup_insert_eq.
Qed.

Lemma saved_csv clock t pubs a fs :
  saved clock t pubs a fs !! csv_path (year (clock (S (S t))))
  = match pubs with
    | [] => fs !! csv_path (year (clock (S (S t))))
    | _ => Some (PublicationsCsv pubs)
    end.
Proof.
  unfold saved. destruct pubs.
  - rewrite lookup_insert_ne by apply analysis_path_csv_path.
    by rewrite lookup_insert_ne by apply publications_path_csv_path.
  - by rewrite lookup_insert_eq.
Qed.

Lemma saved_other clock t pubs a fs p :
  ~ output_path p -> saved clock t pubs a fs !! p = fs !! p.
Proof.
  intros Hp.
  assert (forall y, publications_path y <> p /\ analysis_path y <> p /\ csv_path y <> p)
    as Hne.
  { intros y. repeat split; intros <-; apply Hp; exists y; tauto. }
  unfold saved. destruct pubs.
  - rewrite lookup_insert_ne by apply Hne. by rewrite lookup_insert_ne by apply Hne.
  - rewrite lookup_insert_ne by apply Hne. rewrite lookup_insert_ne by apply Hne.
    by rewrite lookup_insert_ne by apply Hne.
Qed.

Lemma output_path_template : ~ output_path viewer_template.
Proof.
  intros (y & [E | [E | [E | E]]]); revert E;
    unfold viewer_template, publications_path, analysis_path, csv_path, viewer_path, s;
    simpl; discriminate.
Qed.

Lemma with_viewer_other clock t template fs p :
  (forall y, p <> viewer_path y) ->
  with_viewer clock t template fs !! p = fs !! p.
Proof.
  intros Hp. unfold with_viewer. destruct template; [|done].
  by rewrite lookup_insert_ne by apply not_eq_sym, Hp.
Qed.

Section RunCases.

Variable urljoin : str -> str -> option str.
Variable BeautifulSoup : str -> node.
Variable clock : nat -> datetime.
Variable generate_standalone_py : world -> option nat.

Lemma save_results_csv_eval pubs a w :
  exists out,
    save_results clock pubs a Csv w
    = (Return tt,
       World (server w)
         (match pubs with
          | [] => files w
          | _ => <[ csv_path (year (clock (ticks w))) := PublicationsCsv pubs ]> (files w)
          end)
         (S (ticks w)) (stdout w ++ out)).
Proof.
  destruct pubs as [|p pubs].
  - exists []. unfold save_results, bind, now, ret. cbn [server files ticks stdout].
    by rewrite app_nil_r.
  - eexists. unfold save_results, bind, now, write_file, print.
    cbn [server files ticks stdout]. reflexivity.
Qed.

Lemma generate_dynamic_viewer_exact w :
  exists w',
    generate_dynamic_viewer clock w = (Return tt, w')
    /\ server w' = server w
    /\ files w' = with_viewer clock (ticks w) (files w !! viewer_template) (files w).
Proof.
  unfold generate_dynamic_viewer. erewrite bind_eval by reflexivity.
  destruct (files w !! viewer_template) as [template|].
  - erewrite bind_eval by reflexivity. erewrite bind_eval by reflexivity.
    eexists. split; [reflexivity|]. cbn [server files ticks stdout]. done.
  - eexists. split; [reflexivity|]. cbn [server files ticks stdout]. done.
Qed.

(** The three ways in which a run ends: without page, with an analysis
    that raises, and with the results stored. *)
Lemma run_full_scrape_cases w :
  exists res w',
    run_full_scrape urljoin BeautifulSoup clock generate_standalone_py w = (res, w')
    /\ server w' = server w
    /\ ((res = Return (None, None) /\ files w' = files w
         /\ (fetch_fails (server w) \/ fetch_succeeds (server w) []))
        \/ (exists html e,
              fetch_succeeds (server w) html /\ html <> []
              /\ analyze_publications (parse_publications urljoin BeautifulSoup html)
                 = Raise e
              /\ res = Raise e /\ files w' = files w)
        \/ (exists html a,
              fetch_succeeds (server w) html /\ html <> []
              /\ analyze_publications (parse_publications urljoin BeautifulSoup html)
                 = Return a
              /\ res = Return (Some (parse_publications urljoin BeautifulSoup html), Some a)
              /\ files w'
                 = with_viewer clock (S (S (S (S (S (ticks w))))))
                     (files w !! viewer_template)
                     (saved clock (S (S (ticks w)))
                        (parse_publications urljoin BeautifulSoup html) a (files w)))).
Proof.
  unfold run_full_scrape.
  do 4 (erewrite bind_eval by reflexivity). cbn [server files ticks stdout].
  match goal with |- context [bind (get_existing_publications_count clock) _ ?w0] =>
    destruct (get_existing_publications_count_eval clock w0) as [count E] end.
  erewrite bind_eval by exact E. clear E. cbn [server files ticks stdout].
  match goal with |- context [bind (when ?b ?c) _ ?w0] =>
    destruct (prints_only_when b c (prints_only_print _) w0) as [out1 E] end.
  erewrite bind_eval by exact E. clear E. cbn [server files ticks stdout].
  destruct (fetch_fails_or_succeeds (server w)) as [Hfail | [html Hok]].
  { erewrite bind_eval by (by apply fetch_page_html_fails).
    cbn [server files ticks stdout].
    do 2 eexists. split; [reflexivity|]. cbn [server files ticks stdout].
    split; [done|]. left. auto. }
  erewrite bind_eval by (by apply fetch_page_html_succeeds).
  destruct html as [|c html].
  { do 2 eexists. split; [reflexivity|]. cbn [server files ticks stdout].
    split; [done|]. left. auto. }
  set (pubs := parse_publications urljoin BeautifulSoup (c :: html)).
  do 4 (erewrite bind_eval by reflexivity). cbn [server files ticks stdout].
  match goal with |- context [bind (if ?b then ?c1 else ?c2) _ ?w0] =>
    assert (prints_only (if b then c1 else c2)) as Hp end.
  { apply prints_only_if.
    - apply prints_only_seq; apply prints_only_print.
    - apply prints_only_seq; [apply prints_only_print|].
      apply prints_only_when, prints_only_if; [apply prints_only_print|].
      apply prints_only_when, prints_only_print. }
  match goal with |- context [bind _ _ ?w0] => destruct (Hp w0) as [out2 E] end.
  erewrite bind_eval by exact E. clear E Hp. cbn [server files ticks stdout].
  erewrite bind_eval by reflexivity. cbn [server files ticks stdout].
  destruct (analyze_publications pubs) as [a|e] eqn:Ea.
  2: { do 2 eexists. split; [reflexivity|]. cbn [server files ticks stdout].
       split; [done|]. right. left. exists (c :: html), e. repeat split; done. }
  erewrite bind_eval by reflexivity.
  erewrite bind_eval by apply save_results_json_eval.
  cbn [server files ticks stdout].
  match goal with |- context [bind (save_results clock pubs a Csv) _ ?w0] =>
    destruct (save_results_csv_eval pubs a w0) as [out3 E] end.
  erewrite bind_eval by exact E. clear E. cbn [server files ticks stdout].
  match goal with |- context [bind _ _ ?w0] =>
    destruct (prints_only_standalone_viewer generate_standalone_py w0) as [out4 E] end.
  erewrite bind_eval by exact E. clear E. cbn [server files ticks stdout].
  match goal with |- context [bind _ _ ?w0] =>
    destruct (generate_dynamic_viewer_exact w0) as (w5 & E & Hs & Hf) end.
  erewrite bind_eval by exact E. clear E. cbn [server files ticks stdout] in Hs, Hf.
  destruct w5 as [srv5 fs5 tk5 out5]. cbn [server files ticks stdout] in *.
  do 3 (erewrite bind_eval by reflexivity). cbn [server files ticks stdout].
  do 2 eexists. split; [reflexivity|]. cbn [server files ticks stdout].
  split; [done|]. right. right. exists (c :: html), a.
  split; [done|]. split; [done|]. split; [exact Ea|]. split; [done|].
  fold pubs. rewrite Hf.
  change (match pubs with
          | [] => ?f
          | _ :: _ => <[ ?k := ?v ]> ?f
          end) with (saved clock (S (S (ticks w))) pubs a (files w)).
  by rewrite saved_other by apply output_path_template.
Qed.

(** X17: a run whose request is answered with a non-empty page and whose
    analysis returns stores the publications with the analysis, the source
    URL and their number in the snapshot of the year, the analysis in the
    analysis file, and the publications in the CSV file when there is at
    least one; without publication the CSV file is left as it was. *)
Theorem run_full_scrape_stores_results (w : world) (html : str) (a : analysis) :
  fetch_succeeds (server w) html ->
  html <> [] ->
  analyze_publications (parse_publications urljoin BeautifulSoup html) = Return a ->
  exists w',
    run_full_scrape urljoin BeautifulSoup clock generate_standalone_py w
    = (Return (Some (parse_publications urljoin BeautifulSoup html), Some a), w')
    /\ files w' !! publications_path (year (clock (S (S (ticks w)))))
       = Some (PublicationsJson (parse_publications urljoin BeautifulSoup html) a
                 (isoformat (clock (S (S (S (ticks w)))))) target_url
                 (length (parse_publications urljoin BeautifulSoup html)))
    /\ files w' !! analysis_path (year (clock (S (S (ticks w))))) = Some (AnalysisJson a)
    /\ files w' !! csv_path (year (clock (S (S (S (S (ticks w)))))))
       = match parse_publications urljoin BeautifulSoup html with
         | [] => files w !! csv_path (year (clock (S (S (S (S (ticks w)))))))
         | pubs => Some (PublicationsCsv pubs)
         end.
Proof.
  intros Hok Hne Ha.
  destruct (run_full_scrape_cases w) as (res & w' & E & _ & H).
  destruct H as [(_ & _ & [Hf | He]) | [(h & e & Hh & _ & Hr & _) | H]].
  - by destruct (fetch_fails_not_succeeds _ _ Hf Hok).
  - by destruct Hne; apply (fetch_succeeds_unique _ _ _ Hok He).
  - rewrite (fetch_succeeds_unique _ _ _ Hok Hh), Hr in Ha. done.
  - destruct H as (h & a' & Hh & _ & Hr & -> & Hfiles).
    rewrite <- (fetch_succeeds_unique _ _ _ Hok Hh) in *.
    rewrite Ha in Hr. injection Hr as <-.
    exists w'. split; [done|]. rewrite Hfiles.
    rewrite !with_viewer_other
      by (intros ?; first [apply publications_path_viewer_path
                             | apply analysis_path_viewer_path
                             | apply csv_path_viewer_path]).
    rewrite saved_publications, saved_analysis, saved_csv.
    repeat split. by destruct (parse_publications _ _ _).
Qed.

(** X18: when the analysis raises, the run ends with its exception and no
    file is written: the publications that were parsed are lost and the
    files of the previous run stay. *)
Theorem run_full_scrape_analysis_raises (w : world) (html : str) (e : exn) :
  fetch_succeeds (server w) html ->
  html <> [] ->
  analyze_publications (parse_publications urljoin BeautifulSoup html) = Raise e ->
  exists w',
    run_full_scrape urljoin BeautifulSoup clock generate_standalone_py w = (Raise e, w')
    /\ files w' = files w.
Proof.
  intros Hok Hne Ha.
  destruct (run_full_scrape_cases w) as (res & w' & E & _ & H).
  destruct H as [(_ & _ & [Hf | He]) | [(h & e' & Hh & _ & Hr & -> & Hfiles) | H]].
  - by destruct (fetch_fails_not_succeeds _ _ Hf Hok).
  - by destruct Hne; apply (fetch_succeeds_unique _ _ _ Hok He).
  - rewrite <- (fetch_succeeds_unique _ _ _ Hok Hh), Ha in Hr.
    injection Hr as <-. by exists w'.
  - destruct H as (h & a & Hh & _ & Hr & _).
    rewrite <- (fetch_succeeds_unique _ _ _ Hok Hh), Ha in Hr. done.
Qed.

(** X19: whatever the outcome of a run, a file whose path is none of the
    paths of the snapshot, the analysis, the CSV file and the viewer of
    some year is after the run what it was before; the template of the
    viewer is such a file. *)
Theorem run_full_scrape_other_files (w : world) (p : str) :
  ~ output_path p ->
  files (snd (run_full_scrape urljoin BeautifulSoup clock generate_standalone_py w)) !! p
  = files w !! p.
Proof.
  intros Hp.
  destruct (run_full_scrape_cases w) as (res & w' & -> & _ & H). cbn [snd].
  destruct H as [(_ & -> & _) | [(h & e & _ & _ & _ & _ & ->) | H]]; try done.
  destruct H as (h & a & _ & _ & _ & _ & ->).
  rewrite with_viewer_other; [by apply saved_other|].
  intros y ->. apply Hp. exists y. tauto.
Qed.

(** X20: an empty body is a failed fetch: when the request is answered
    without error status and with an empty page, the run returns
    [(None, None)] and writes no file. *)
Theorem run_full_scrape_empty_body (w : world) :
  fetch_succeeds (server w) [] ->
  exists w',
    run_full_scrape urljoin BeautifulSoup clock generate_standalone_py w
    = (Return (None, None), w')
    /\ files w' = files w.
Proof.
  intros Hok.
  destruct (run_full_scrape_cases w) as (res & w' & E & _ & H).
  destruct H as [(-> & Hf & _) | [(h & e & Hh & Hne & _) | (h & a & Hh & Hne & _)]].
  - by exists w'.
  - by destruct Hne; apply (fetch_succeeds_unique _ _ _ Hh Hok).
  - by destruct Hne; apply (fetch_succeeds_unique _ _ _ Hh Hok).
Qed.

Lemma saved_viewer clock' t pubs a fs y :
  saved clock' t pubs a fs !! viewer_path y = fs !! viewer_path y.
Proof.
  unfold saved. destruct pubs.
  - rewrite lookup_insert_ne by apply analysis_path_viewer_path.
    by rewrite lookup_insert_ne by apply publications_path_viewer_path.
  - rewrite lookup_insert_ne by apply csv_path_viewer_path.
    rewrite lookup_insert_ne by apply analysis_path_viewer_path.
    by rewrite lookup_insert_ne by apply publications_path_viewer_path.
Qed.

(** X21: after a run that stored its results, the viewer of the year is
    a copy of the template [angspe_dynamic_viewer.html] as it was before
    the run, and the template is still there; when there is no template,
    no viewer is written. *)
Theorem run_full_scrape_viewer (w : world) (html : str) (a : analysis) :
  fetch_succeeds (server w) html ->
  html <> [] ->
  analyze_publications (parse_publications urljoin BeautifulSoup html) = Return a ->
  match files w !! viewer_template with
  | Some template =>
      files (snd (run_full_scrape urljoin BeautifulSoup clock generate_standalone_py w))
        !! viewer_path (year (clock (S (S (S (S (S (ticks w)))))))) = Some template
      /\ files (snd (run_full_scrape urljoin BeautifulSoup clock generate_standalone_py w))
           !! viewer_template = Some template
  | None =>
      forall y,
        files (snd (run_full_scrape urljoin BeautifulSoup clock generate_standalone_py w))
          !! viewer_path y = files w !! viewer_path y
  end.
Proof.
  intros Hok Hne Ha.
  destruct (run_full_scrape_cases w) as (res & w' & -> & _ & H). cbn [snd].
  destruct H as [(_ & _ & [Hf | He]) | [(h & e & Hh & _ & Hr & _) | H]].
  - by destruct (fetch_fails_not_succeeds _ _ Hf Hok).
  - by destruct Hne; apply (fetch_succeeds_unique _ _ _ Hok He).
  - rewrite (fetch_succeeds_unique _ _ _ Hok Hh), Hr in Ha. done.
  - destruct H as (h & a' & _ & _ & _ & _ & ->).
    destruct (files w !! viewer_template) as [template|] eqn:Et.
    + split.
      * unfold with_viewer. by rewrite lookup_insert_eq.
      * rewrite with_viewer_other.
        -- by rewrite saved_other by apply output_path_template.
        -- intros y E. apply output_path_template. exists y. tauto.
    + intros y. cbn [with_viewer]. apply saved_viewer.
Qed.

(** X22: the snapshot that a run stores is the one that the next run
    counts: while the clock stays in one year, the number of existing
    publications read after a run that stored its results is the number of
    publications of that run. *)
Theorem run_full_scrape_then_count (w : world) (html : str) (a : analysis) (y : Z) :
  (forall n, year (clock n) = y) ->
  fetch_succeeds (server w) html ->
  html <> [] ->
  analyze_publications (parse_publications urljoin BeautifulSoup html) = Return a ->
  exists res w',
    run_full_scrape urljoin BeautifulSoup clock generate_standalone_py w = (res, w')
    /\ fst (get_existing_publications_count clock w')
       = Return (length (parse_publications urljoin BeautifulSoup html)).
Proof.
  intros Hy Hok Hne Ha.
  destruct (run_full_scrape_cases w) as (res & w' & E & _ & H).
  exists res, w'. split; [done|].
  destruct H as [(_ & _ & [Hf | He]) | [(h & e & Hh & _ & Hr & _) | H]].
  - by destruct (fetch_fails_not_succeeds _ _ Hf Hok).
  - by destruct Hne; apply (fetch_succeeds_unique _ _ _ Hok He).
  - rewrite (fetch_succeeds_unique _ _ _ Hok Hh), Hr in Ha. done.
  - destruct H as (h & a' & Hh & _ & _ & _ & Hfiles).
    rewrite <- (fetch_succeeds_unique _ _ _ Hok Hh) in *.
    unfold get_existing_publications_count, bind, now, read_file.
    cbn [server files ticks stdout]. rewrite Hy, <- (Hy (S (S (ticks w)))).
    rewrite Hfiles, with_viewer_other by (intros ?; apply publications_path_viewer_path).
    by rewrite saved_publications.
Qed.

(** ** The entry point *)

Lemma analyze_publications_none pubs :
  analyze_publications pubs = Return NoPublicationsFound <-> pubs = [].
Proof.
  split; [|by intros ->]. unfold analyze_publications.
  destruct pubs as [|p pubs]; [done|].
  destruct (collect_years _); [done|]. by destruct (find_latest _ _).
Qed.

(** X23: the four ways in which [main] ends.  It prints that scraping
    failed when there is no page; it ends with the exception of the
    analysis when the analysis raises; it prints the summary of the report
    when there is one; and when no publication is found it stores the
    empty snapshot and then ends with a [KeyError], the dictionary of the
    analysis having no key [total_publications]. *)
Theorem main_endings (w : world) :
  exists e w',
    main urljoin BeautifulSoup clock generate_standalone_py w = (e, w')
    /\ match e with
       | ScrapingFailed =>
           (fetch_fails (server w) \/ fetch_succeeds (server w) [])
           /\ files w' = files w
       | Crash (FromRun x) =>
           exists html,
             fetch_succeeds (server w) html /\ html <> []
             /\ analyze_publications (parse_publications urljoin BeautifulSoup html)
                = Raise x
             /\ files w' = files w
       | Crash (KeyError key) =>
           key = s "total_publications"
           /\ exists html,
                fetch_succeeds (server w) html /\ html <> []
                /\ parse_publications urljoin BeautifulSoup html = []
                /\ files w' !! publications_path (year (clock (S (S (ticks w)))))
                   = Some (PublicationsJson [] NoPublicationsFound
                             (isoformat (clock (S (S (S (ticks w)))))) target_url 0)
       | Summary r =>
           exists html,
             fetch_succeeds (server w) html /\ html <> []
             /\ analyze_publications (parse_publications urljoin BeautifulSoup html)
                = Return (Analysis r)
             /\ files w' !! analysis_path (year (clock (S (S (ticks w)))))
                = Some (AnalysisJson (Analysis r))
       end.
Proof.
  unfold main.
  destruct (run_full_scrape_cases w) as (res & w' & -> & _ & H).
  destruct H as [(-> & Hf & Hs) | [(h & e & Hh & Hne & Ha & -> & Hf) | H]].
  - exists ScrapingFailed, w'. by repeat split.
  - exists (Crash (FromRun e)), w'. split; [done|]. by exists h.
  - destruct H as (h & a & Hh & Hne & Ha & -> & Hf).
    assert (files w' !! publications_path (year (clock (S (S (ticks w)))))
            = Some (PublicationsJson (parse_publications urljoin BeautifulSoup h) a
                      (isoformat (clock (S (S (S (ticks w)))))) target_url
                      (length (parse_publications urljoin BeautifulSoup h)))
            /\ files w' !! analysis_path (year (clock (S (S (ticks w)))))
               = Some (AnalysisJson a)) as [Hp Han].
    { rewrite Hf, !with_viewer_other
        by (intros ?; first [apply publications_path_viewer_path
                            | apply analysis_path_viewer_path]).
      by rewrite saved_publications, saved_analysis. }
    destruct a as [|r].
    + exists (Crash (KeyError (s "total_publications"))), w'. split; [done|].
      split; [done|]. exists h. apply analyze_publications_none in Ha.
      rewrite Ha in Hp. by repeat split.
    + exists (Summary r), w'. split; [done|]. by exists h.
Qed.

End RunCases.

(** The empty page is a page on which [main] ends with the [KeyError]. *)
Lemma main_no_publications_example :
  fst (main join_url empty_page noon generator_ok
         (world_with_snapshot (HttpResponse 200 (s "<html></html>"))))
  = Crash (KeyError (s "total_publications")).
Proof. vm_compute. reflexivity. Qed.

Lemma run_full_scrape_stores_results_witness :
  fetch_succeeds (server (world_with_snapshot (HttpResponse 200 (s "<html></html>"))))
    (s "<html></html>")
  /\ s "<html></html>" <> []
  /\ parse_publications join_url charter_page (s "<html></html>") = [charter]
  /\ analyze_publications (parse_publications join_url charter_page (s "<html></html>"))
     = Return (Analysis (report_of [charter]))
  /\ exists w',
       run_full_scrape join_url charter_page noon generator_ok
         (world_with_snapshot (HttpResponse 200 (s "<html></html>")))
       = (Return (Some (parse_publications join_url charter_page (s "<html></html>")),
                  Some (Analysis (report_of [charter]))), w')
       /\ files w' !! publications_path (year (noon 2))
          = Some (PublicationsJson
                    (parse_publications join_url charter_page (s "<html></html>"))
                    (Analysis (report_of [charter])) (isoformat (noon 3)) target_url
                    (length (parse_publications join_url charter_page (s "<html></html>"))))
       /\ files w' !! analysis_path (year (noon 2))
          = Some (AnalysisJson (Analysis (report_of [charter])))
       /\ files w' !! csv_path (year (noon 4))
          = match parse_publications join_url charter_page (s "<html></html>") with
            | [] => files (world_with_snapshot (HttpResponse 200 (s "<html></html>")))
                      !! csv_path (year (noon 4))
            | pubs => Some (PublicationsCsv pubs)
            end.
Proof.
  assert (fetch_succeeds (HttpResponse 200 (s "<html></html>")) (s "<html></html>")) as Hok.
  { exists 200. split; [reflexivity | simpl; lia]. }
  split; [exact Hok|]. split; [discriminate|].
  split; [vm_compute; reflexivity|]. split; [vm_compute; reflexivity|].
  apply (run_full_scrape_stores_results join_url charter_page noon generator_ok
           (world_with_snapshot (HttpResponse 200 (s "<html></html>"))));
    [exact Hok | discriminate | vm_compute; reflexivity].
Defined.

Lemma run_full_scrape_analysis_raises_witness :
  fetch_succeeds (server (world_with_snapshot (HttpResponse 200 (s "<html></html>"))))
    (s "<html></html>")
  /\ s "<html></html>" <> []
  /\ map date_posted (parse_publications join_url undated_page (s "<html></html>"))
     = [None; Some (s "15/06/2025")]
  /\ analyze_publications (parse_publications join_url undated_page (s "<html></html>"))
     = Raise TypeError
  /\ exists w',
       run_full_scrape join_url undated_page noon generator_ok
         (world_with_snapshot (HttpResponse 200 (s "<html></html>")))
       = (Raise TypeError, w')
       /\ files w' = files (world_with_snapshot (HttpResponse 200 (s "<html></html>"))).
Proof.
  assert (fetch_succeeds (HttpResponse 200 (s "<html></html>")) (s "<html></html>")) as Hok.
  { exists 200. split; [reflexivity | simpl; lia]. }
  split; [exact Hok|]. split; [discriminate|].
  split; [vm_compute; reflexivity|]. split; [vm_compute; reflexivity|].
  apply (run_full_scrape_analysis_raises join_url undated_page noon generator_ok
           (world_with_snapshot (HttpResponse 200 (s "<html></html>"))) (s "<html></html>"));
    [exact Hok | discriminate | vm_compute; reflexivity].
Defined.

Lemma run_full_scrape_other_files_witness :
  ~ output_path viewer_template
  /\ files (snd (run_full_scrape join_url charter_page noon generator_ok
                   (world_with_snapshot (HttpResponse 200 (s "<html></html>")))))
       !! viewer_template
     = files (world_with_snapshot (HttpResponse 200 (s "<html></html>"))) !! viewer_template.
Proof.
  split; [exact output_path_template|].
  apply (run_full_scrape_other_files join_url charter_page noon generator_ok).
  exact output_path_template.
Defined.

Lemma run_full_scrape_empty_body_witness :
  fetch_succeeds (server (world_with_snapshot (HttpResponse 200 []))) []
  /\ exists w',
       run_full_scrape join_url empty_page noon generator_ok
         (world_with_snapshot (HttpResponse 200 []))
       = (Return (None, None), w')
       /\ files w' = files (world_with_snapshot (HttpResponse 200 [])).
Proof.
  assert (fetch_succeeds (HttpResponse 200 []) []) as Hok.
  { exists 200. split; [reflexivity | simpl; lia]. }
  split; [exact Hok|].
  apply (run_full_scrape_empty_body join_url empty_page noon generator_ok
           (world_with_snapshot (HttpResponse 200 []))).
  exact Hok.
Defined.

Lemma run_full_scrape_viewer_witness :
  fetch_succeeds (server (world_with_template (HttpResponse 200 (s "<html></html>"))))
    (s "<html></html>")
  /\ s "<html></html>" <> []
  /\ analyze_publications (parse_publications join_url charter_page (s "<html></html>"))
     = Return (Analysis (report_of [charter]))
  /\ files (world_with_template (HttpResponse 200 (s "<html></html>"))) !! viewer_template
     = Some (OtherFile (s "<html>viewer</html>"))
  /\ match files (world_with_template (HttpResponse 200 (s "<html></html>")))
             !! viewer_template with
     | Some template =>
         files (snd (run_full_scrape join_url charter_page noon generator_ok
                       (world_with_template (HttpResponse 200 (s "<html></html>")))))
           !! viewer_path (year (noon 5)) = Some template
         /\ files (snd (run_full_scrape join_url charter_page noon generator_ok
                          (world_with_template (HttpResponse 200 (s "<html></html>")))))
              !! viewer_template = Some template
     | None =>
         forall y,
           files (snd (run_full_scrape join_url charter_page noon generator_ok
                         (world_with_template (HttpResponse 200 (s "<html></html>")))))
             !! viewer_path y
           = files (world_with_template (HttpResponse 200 (s "<html></html>")))
               !! viewer_path y
     end.
Proof.
  assert (fetch_succeeds (HttpResponse 200 (s "<html></html>")) (s "<html></html>")) as Hok.
  { exists 200. split; [reflexivity | simpl; lia]. }
  split; [exact Hok|]. split; [discriminate|].
  split; [vm_compute; reflexivity|]. split; [vm_compute; reflexivity|].
  apply (run_full_scrape_viewer join_url charter_page noon generator_ok
           (world_with_template (HttpResponse 200 (s "<html></html>")))
           (s "<html></html>") (Analysis (report_of [charter])));
    [exact Hok | discriminate | vm_compute; reflexivity].
Defined.

Lemma run_full_scrape_then_count_witness :
  (forall n, year (noon n) = 2025%Z)
  /\ fetch_succeeds (server (world_with_snapshot (HttpResponse 200 (s "<html></html>"))))
       (s "<html></html>")
  /\ s "<html></html>" <> []
  /\ analyze_publications (parse_publications join_url charter_page (s "<html></html>"))
     = Return (Analysis (report_of [charter]))
  /\ exists res w',
       run_full_scrape join_url charter_page noon generator_ok
         (world_with_snapshot (HttpResponse 200 (s "<html></html>"))) = (res, w')
       /\ fst (get_existing_publications_count noon w')
          = Return (length (parse_publications join_url charter_page (s "<html></html>"))).
Proof.
  assert (fetch_succeeds (HttpResponse 200 (s "<html></html>")) (s "<html></html>")) as Hok.
  { exists 200. split; [reflexivity | simpl; lia]. }
  split; [reflexivity|]. split; [exact Hok|]. split; [discriminate|].
  split; [vm_compute; reflexivity|].
  apply (run_full_scrape_then_count join_url charter_page noon generator_ok
           (world_with_snapshot (HttpResponse 200 (s "<html></html>")))
           (s "<html></html>") (Analysis (report_of [charter])) 2025%Z);
    [reflexivity | exact Hok | discriminate | vm_compute; reflexivity].
Defined.

(** * Properties of the API *)

(** X24: the two data endpoints never answer 404.  The [HTTPException]
    with status 404 that is raised for a missing data file is raised inside
    the [try] and caught by its [except Exception], so that a missing file,
    like a file that cannot be read, is answered with status 500. *)
Theorem api_errors_are_500 (fs : gmap str file) :
  (forall e, get_publications fs = inr e -> e = HTTPException 500)
  /\ (forall e, get_analysis fs = inr e -> e = HTTPException 500)
  /\ (fs !! data_path = None ->
      load_data fs = inr (HTTPException 404)
      /\ get_publications fs = inr (HTTPException 500)
      /\ get_analysis fs = inr (HTTPException 500)).
Proof.
  unfold get_publications, get_analysis, load_data.
  destruct (fs !! data_path) as [[]|]; cbn [except_Exception];
    repeat split; try done; by intros e [= <-].
Qed.

(** [str] of a natural number reads back as the number. *)

Lemma digit_value_digit_char d : (d < 10)%N -> digit_value (digit_char d) = d.
Proof.
  intros H. unfold digit_value, digit_char, code.
  rewrite N_ascii_embedding by lia. lia.
Qed.

Lemma decimal_value_pos_digits fuel : forall n acc,
  (n < 2 ^ N.of_nat fuel)%N ->
  decimal_value 0 (pos_digits fuel n acc) = decimal_value n acc.
Proof.
  induction fuel as [|fuel IH]; intros n acc Hn.
  - simpl in Hn. by replace n with 0%N by lia.
  - cbn [pos_digits]. cbv zeta. destruct (N.ltb_spec n 10) as [Hlt | Hge].
    + cbn [decimal_value]. rewrite digit_value_digit_char by by apply N.mod_lt.
      by rewrite N.mod_small by done.
    + rewrite IH.
      * cbn [decimal_value]. rewrite digit_value_digit_char by by apply N.mod_lt.
        f_equal. rewrite (N.div_mod n 10) at 3 by done. lia.
      * rewrite Nat2N.inj_succ, N.pow_succ_r' in Hn.
        apply N.Div0.div_lt_upper_bound. lia.
Qed.

Lemma decimal_value_str_of_N n : decimal_value 0 (str_of_N n) = n.
Proof.
  unfold str_of_N. rewrite decimal_value_pos_digits; [done|].
  rewrite Nat2N.inj_succ, N2Nat.id. destruct n as [|p]; [done|].
  apply N.log2_spec. lia.
Qed.

Lemma publications_path_inj y y' :
  (0 <= y)%Z -> (0 <= y')%Z -> publications_path y = publications_path y' -> y = y'.
Proof.
  intros Hy Hy' E. unfold publications_path in E. apply app_inv_head in E.
  apply app_inv_tail in E.
  assert (forall z, (0 <= z)%Z -> str_of_Z z = str_of_N (Z.to_N z)) as Hz.
  { intros z Hz. by destruct z. }
  rewrite !Hz in E by done. apply (f_equal (decimal_value 0)) in E.
  rewrite !decimal_value_str_of_N in E. lia.
Qed.

Lemma data_path_publications_path : data_path = publications_path 2025.
Proof. reflexivity. Qed.

(** The endpoints read one file only. *)
Lemma api_same_data fs fs' :
  fs' !! data_path = fs !! data_path ->
  get_publications fs' = get_publications fs /\ get_analysis fs' = get_analysis fs.
Proof. unfold get_publications, get_analysis, load_data. by intros ->. Qed.

Section ApiAfterRun.

Variable urljoin : str -> str -> option str.
Variable BeautifulSoup : str -> node.
Variable clock : nat -> datetime.
Variable generate_standalone_py : world -> option nat.

(** X25: in the year 2025 the API serves what the scraper stored: after
    a run that stored its results, [get_publications] returns the
    publications of that run. *)
Theorem api_serves_run_of_2025 (w : world) (html : str) (a : analysis) :
  (forall n, year (clock n) = 2025%Z) ->
  fetch_succeeds (server w) html ->
  html <> [] ->
  analyze_publications (parse_publications urljoin BeautifulSoup html) = Return a ->
  get_publications
    (files (snd (run_full_scrape urljoin BeautifulSoup clock generate_standalone_py w)))
  = inl (parse_publications urljoin BeautifulSoup html).
Proof.
  intros Hy Hok Hne Ha.
  destruct (run_full_scrape_cases urljoin BeautifulSoup clock generate_standalone_py w)
    as (res & w' & -> & _ & H). cbn [snd].
  destruct H as [(_ & _ & [Hf | He]) | [(h & e & Hh & _ & Hr & _) | H]].
  - by destruct (fetch_fails_not_succeeds _ _ Hf Hok).
  - by destruct Hne; apply (fetch_succeeds_unique _ _ _ Hok He).
  - rewrite (fetch_succeeds_unique _ _ _ Hok Hh), Hr in Ha. done.
  - destruct H as (h & a' & Hh & _ & Hr & _ & Hfiles).
    rewrite <- (fetch_succeeds_unique _ _ _ Hok Hh) in *.
    rewrite Ha in Hr. injection Hr as <-.
    assert (files w' !! data_path
            = Some (PublicationsJson (parse_publications urljoin BeautifulSoup html) a
                      (isoformat (clock (S (S (S (ticks w)))))) target_url
                      (length (parse_publications urljoin BeautifulSoup html)))) as E.
    { rewrite data_path_publications_path, <- (Hy (S (S (ticks w)))).
      rewrite Hfiles, with_viewer_other by (intros ?; apply publications_path_viewer_path).
      by rewrite saved_publications. }
    unfold get_publications, load_data. by rewrite E.
Qed.

(** X26: in every other year the API does not see the run: the
    endpoints read the snapshot of 2025 whatever the year is, so that after
    a run in another year they answer what they answered before it. *)
Theorem api_blind_to_other_years (w : world) (y : Z) :
  (forall n, year (clock n) = y) ->
  (0 <= y)%Z ->
  y <> 2025%Z ->
  get_publications
    (files (snd (run_full_scrape urljoin BeautifulSoup clock generate_standalone_py w)))
  = get_publications (files w)
  /\ get_analysis
       (files (snd (run_full_scrape urljoin BeautifulSoup clock generate_standalone_py w)))
     = get_analysis (files w).
Proof.
  intros Hy H0 Hne. apply api_same_data.
  destruct (run_full_scrape_cases urljoin BeautifulSoup clock generate_standalone_py w)
    as (res & w' & -> & _ & H). cbn [snd].
  assert (forall pubs a,
            saved clock (S (S (ticks w))) pubs a (files w) !! data_path
            = files w !! data_path) as Hsaved.
  { intros pubs a. unfold saved. rewrite !Hy, data_path_publications_path.
    assert (publications_path y <> publications_path 2025) as Hp.
    { intros E. apply publications_path_inj in E; [done | done | lia]. }
    destruct pubs.
    - rewrite lookup_insert_ne by apply not_eq_sym, publications_path_analysis_path.
      by rewrite lookup_insert_ne.
    - rewrite lookup_insert_ne by apply not_eq_sym, publications_path_csv_path.
      rewrite lookup_insert_ne by apply not_eq_sym, publications_path_analysis_path.
      by rewrite lookup_insert_ne. }
  destruct H as [(_ & -> & _) | [(h & e & _ & _ & _ & _ & ->) | H]]; try done.
  destruct H as (h & a & _ & _ & _ & _ & ->).
  rewrite with_viewer_other; [done|].
  intros y'. rewrite data_path_publications_path. apply publications_path_viewer_path.
Qed.

End ApiAfterRun.

Lemma api_serves_run_of_2025_witness :
  (forall n, year (noon n) = 2025%Z)
  /\ fetch_succeeds (server (world_with_snapshot (HttpResponse 200 (s "<html></html>"))))
       (s "<html></html>")
  /\ s "<html></html>" <> []
  /\ analyze_publications (parse_publications join_url charter_page (s "<html></html>"))
     = Return (Analysis (report_of [charter]))
  /\ parse_publications join_url charter_page (s "<html></html>") = [charter]
  /\ get_publications
       (files (snd (run_full_scrape join_url charter_page noon generator_ok
                      (world_with_snapshot (HttpResponse 200 (s "<html></html>"))))))
     = inl (parse_publications join_url charter_page (s "<html></html>")).
Proof.
  assert (fetch_succeeds (HttpResponse 200 (s "<html></html>")) (s "<html></html>")) as Hok.
  { exists 200. split; [reflexivity | simpl; lia]. }
  split; [reflexivity|]. split; [exact Hok|]. split; [discriminate|].
  split; [vm_compute; reflexivity|]. split; [vm_compute; reflexivity|].
  apply (api_serves_run_of_2025 join_url charter_page noon generator_ok
           (world_with_snapshot (HttpResponse 200 (s "<html></html>")))
           (s "<html></html>") (Analysis (report_of [charter])));
    [reflexivity | exact Hok | discriminate | vm_compute; reflexivity].
Defined.

Lemma api_blind_to_other_years_witness :
  (forall n, year (new_year n) = 2026%Z)
  /\ (0 <= 2026)%Z
  /\ 2026%Z <> 2025%Z
  /\ get_publications
       (files (snd (run_full_scrape join_url charter_page new_year generator_ok
                      (world_with_snapshot (HttpResponse 200 (s "<html></html>"))))))
     = get_publications
         (files (world_with_snapshot (HttpResponse 200 (s "<html></html>"))))
  /\ get_analysis
       (files (snd (run_full_scrape join_url charter_page new_year generator_ok
                      (world_with_snapshot (HttpResponse 200 (s "<html></html>"))))))
     = get_analysis
         (files (world_with_snapshot (HttpResponse 200 (s "<html></html>")))).
Proof.
  split; [reflexivity|]. split; [lia|]. split; [lia|].
  apply (api_blind_to_other_years join_url charter_page new_year generator_ok
           (world_with_snapshot (HttpResponse 200 (s "<html></html>"))) 2026%Z);
    [reflexivity | lia | lia].
Defined.
